(** * butler: the install orchestration of [cmd/operate/install_perform.go]

    A shallow embedding of [InstallPerform], [doForceLocal],
    [InstallPrepare] and [doInstallPerform].  The Go functions thread an
    operation context, a shared install substate ([isub.Data]) and a
    consumer through calls to collaborators (API client, receipt reader,
    installer managers, file system).  Here:

    - the shared substate, the staging store and the observable effects
      (log lines, collaborator calls) live in a [World] passed explicitly;
    - a Go function returning [error] is a computation [M unit], one
      returning [(T, error)] is [M T];
    - collaborators are fields of an environment [Env]: the answers they
      give during one run. *)

From Stdlib Require Import ZArith List String Bool Lia.
Import ListNotations.
Local Open Scope string_scope.
Local Open Scope Z_scope.
Local Open Scope list_scope.

(** ** Data model *)

(** [int64] values are integers with wrap-around written out. *)
Definition wrap64 (z : Z) : Z := (z + 2 ^ 63) mod 2 ^ 64 - 2 ^ 63.
Definition add64 (a b : Z) : Z := wrap64 (a + b).

(** go-itchio: [Game], [Upload], [Build] (the fields this file reads). *)
Record Game := { Game_ID : Z }.
Record Upload := { Upload_ID : Z; Upload_Filename : string; Upload_Size : Z }.
Record Build := { Build_ID : Z }.
Record GameCredentials := { Server : string; APIKey : string; DownloadKey : Z }.

(** go-itchio: one step of an upgrade path. *)
Record UpgradePathItem := { Item_ID : Z; PatchSize : Z }.
Record FindUpgradeResponse := { UpgradePath : list UpgradePathItem }.

Record NewDownloadSessionParams := { GameID : Z; DownloadKeyID_session : Z }.
Record FindUpgradeParams :=
  { CurrentBuildID : Z; UploadID : Z; DownloadKeyID : Z }.

(** bfs.Receipt: what is installed in a folder; both pointers may be nil. *)
Record Receipt :=
  { Receipt_Upload : option Upload;
    Receipt_Build : option Build;
    Receipt_Files : list string }.

(** The parameters held by the meta subcontext ([meta.Data]).  [Upload]
    and [Build] are optional pointers. *)
Record InstallParams :=
  { Game_ : Game;
    InstallFolder : string;
    Upload_ : option Upload;
    Build_ : option Build;
    Credentials : GameCredentials;
    IgnoreInstallers : bool;
    NoCave : bool;
    CaveID : string;
    InstallFolderName : string;
    InstallLocationID : string }.

Record InstallPerformParams := { StagingFolder : string }.

(** Modelled from the spec: package [installer] is not among the sources.
    [InstallerType] is a string type there; the four constants named by
    install_perform.go are constructors, every other value (the native
    installer formats) is carried by [InstallerTypeOther]. *)
Inductive InstallerType :=
| InstallerTypeArchive
| InstallerTypeNaked
| InstallerTypeUnknown
| InstallerTypeUnsupported
| InstallerTypeOther (name : string).

Definition InstallerType_eqb (a b : InstallerType) : bool :=
  match a, b with
  | InstallerTypeArchive, InstallerTypeArchive => true
  | InstallerTypeNaked, InstallerTypeNaked => true
  | InstallerTypeUnknown, InstallerTypeUnknown => true
  | InstallerTypeUnsupported, InstallerTypeUnsupported => true
  | InstallerTypeOther x, InstallerTypeOther y => String.eqb x y
  | _, _ => false
  end.

Record InstallerInfo := { Type_ : InstallerType }.
Record InstallResult := { Files : list string }.

(** [InstallSubcontextState], the data of the "install" subcontext. *)
Record InstallSubcontextState :=
  { DownloadSessionId : string;
    IsAvailableLocally : bool;
    InstallerInfo_ : option InstallerInfo;
    SecondInstallerInfo : option InstallerInfo;
    FirstInstallResult : option InstallResult }.

(** [&InstallSubcontextState{}] *)
Definition zeroState : InstallSubcontextState :=
  {| DownloadSessionId := "";
     IsAvailableLocally := false;
     InstallerInfo_ := None;
     SecondInstallerInfo := None;
     FirstInstallResult := None |}.

(** An open file ([eos.File], [*os.File]), identified by what was opened. *)
Record File := { file_location : string }.
Record FileInfo := { Name : string; Size : Z }.

(** install_perform.go:53-59 *)
Definition InstallPerformStrategy := Z.
Definition InstallPerformStrategyNone : InstallPerformStrategy := 0.
Definition InstallPerformStrategyInstall : InstallPerformStrategy := 1.
Definition InstallPerformStrategyHeal : InstallPerformStrategy := 2.

(** install_perform.go:61-65 *)
Record InstallPrepareResult :=
  { File_ : option File;
    ReceiptIn : option Receipt;
    Strategy : InstallPerformStrategy }.

(** [&InstallPrepareResult{}] *)
Definition emptyResult : InstallPrepareResult :=
  {| File_ := None; ReceiptIn := None; Strategy := 0 |}.

Definition setReceiptIn (r : InstallPrepareResult) (x : option Receipt) :=
  {| File_ := File_ r; ReceiptIn := x; Strategy := Strategy r |}.
Definition setStrategy (r : InstallPrepareResult) (s : InstallPerformStrategy) :=
  {| File_ := File_ r; ReceiptIn := ReceiptIn r; Strategy := s |}.
Definition setFile (r : InstallPrepareResult) (f : File) :=
  {| File_ := Some f; ReceiptIn := ReceiptIn r; Strategy := Strategy r |}.

(** ** Errors *)

(** buse/types.go:951-957 declares [Code] with [CodeOperationCancelled]
    (499) and [CodeOperationAborted] (410).  Modelled from the spec:
    [CodeUnsupportedPackaging] is declared in package butlerd, outside the
    sources; it is a further value of the same type. *)
Inductive Code :=
| CodeOperationCancelled
| CodeOperationAborted
| CodeUnsupportedPackaging.

(** Error values.  [WithStack] and [WithMessage] are the wrappers of
    github.com/pkg/errors; [errors.Wrap e m] is
    [WithStack (WithMessage e m)].  [ErrNeedLocal] is the sentinel of
    package installer; [Foreign] is any error made by a collaborator. *)
Inductive error :=
| ErrNeedLocal
| CodeError (c : Code)
| ErrorNew (msg : string)
| Foreign (what : string)
| WithStack (e : error)
| WithMessage (e : error) (msg : string).

Definition Wrap (e : error) (msg : string) : error :=
  WithStack (WithMessage e msg).

(** [errors.Cause]: strip every wrapper. *)
Fixpoint Cause (e : error) : error :=
  match e with
  | WithStack e' => Cause e'
  | WithMessage e' _ => Cause e'
  | _ => e
  end.

(** [err == installer.ErrNeedLocal] *)
Definition isErrNeedLocal (e : error) : bool :=
  match e with ErrNeedLocal => true | _ => false end.

(** ** Observable effects *)

(** The consumer's [Infof], [Warnf] and [Errorf]. *)
Inductive Level := Infof | Warnf | Errorf.

Inductive TaskType := TaskTypeDownload | TaskTypeInstall.

(** Collaborator calls that may happen more than once in a run are told
    apart by the place they are made from, so that two calls with equal
    arguments can be answered differently. *)
Inductive CallSite :=
| SiteSource        (* InstallPrepare, on the install source *)
| SiteForcePrepare  (* doForceLocal called from InstallPrepare *)
| SiteFirst         (* first backend invocation *)
| SiteRetry         (* doForceLocal and the re-invocation after ErrNeedLocal *)
| SiteSecondProbe   (* probing the single installed file *)
| SiteNested.       (* nested backend invocation *)

Record CommitInstallParams :=
  { Commit_InstallFolder : string;
    Commit_InstallerName : InstallerType;
    Commit_Game : Game;
    Commit_Upload : option Upload;
    Commit_Build : option Build;
    Commit_InstallResult : InstallResult }.

Inductive Event :=
| EvLog (l : Level) (fmt : string)
| EvClientFromCredentials
| EvReadReceipt (folder : string)
| EvNewDownloadSession (p : NewDownloadSessionParams)
| EvFindUpgrade (p : FindUpgradeParams)
| EvSave (s : InstallSubcontextState)
| EvLoad
| EvLoadMeta
| EvTask (res : InstallPrepareResult)
| EvOpen (where_ : string)
| EvClose (f : File)
| EvStat (f : File)
| EvSeek (f : File)
| EvGetInstallerInfo (site : CallSite) (f : File)
| EvAssessDiskUsage (f : File)
| EvTaskStarted (t : TaskType)
| EvTaskSucceeded (t : TaskType)
| EvStartProgress
| EvEndProgress
| EvProgress0
| EvDownloadInstallSource (f : File) (dest : string)
| EvHeal (r : option Receipt)
| EvCaveByID (id : string)
| EvInstall (site : CallSite) (manager : InstallerType) (f : File)
| EvOsStat (path : string)
| EvMkdirAll (path : string)
| EvRemoveAll (path : string)
| EvRename (from to : string)
| EvCommitInstall (p : CommitInstallParams)
| EvLogUpload (u : option Upload) (b : option Build)
| EvLoadContext (staging : string)
| EvRetire.

(** ** The world and the monad *)

Record World :=
  { istate : InstallSubcontextState;           (* isub.Data, shared *)
    store : option InstallSubcontextState;     (* the saved "install" record *)
    trace : list Event }.                      (* oldest first *)

Inductive outcome (A : Type) :=
| Ok (a : A)
| Err (e : error)
| Panic.            (* nil pointer dereference *)
Arguments Ok {A} a.
Arguments Err {A} e.
Arguments Panic {A}.

Definition M (A : Type) := World -> outcome A * World.

Definition ret {A} (a : A) : M A := fun w => (Ok a, w).
Definition fail {A} (e : error) : M A := fun w => (Err e, w).
Definition panic {A} : M A := fun w => (Panic, w).

Definition bind {A B} (m : M A) (f : A -> M B) : M B :=
  fun w =>
    match m w with
    | (Ok a, w') => f a w'
    | (Err e, w') => (Err e, w')
    | (Panic, w') => (Panic, w')
    end.

Declare Scope go_scope.
Delimit Scope go_scope with go.
Notation "x <- m ;; k" := (bind m (fun x => k))
  (at level 61, m at next level, right associativity) : go_scope.
Notation "m ;; k" := (bind m (fun _ => k))
  (at level 61, right associativity) : go_scope.
Local Open Scope go_scope.

Definition record (ev : Event) (w : World) : World :=
  {| istate := istate w; store := store w; trace := trace w ++ [ev] |}.

Definition emit (ev : Event) : M unit := fun w => (Ok tt, record ev w).

(** A call to a collaborator: the call is observed, the environment's
    answer is the result. *)
Definition call {A} (ev : Event) (answer : outcome A) : M A :=
  fun w => (answer, record ev w).

Definition log (l : Level) (fmt : string) : M unit := emit (EvLog l fmt).

(** [if err != nil { return errors.WithStack(err) }] *)
Definition with_stack {A} (m : M A) : M A :=
  fun w =>
    match m w with
    | (Err e, w') => (Err (WithStack e), w')
    | r => r
    end.

(** [if err != nil { return errors.WithMessage(err, msg) }] *)
Definition with_message {A} (m : M A) (msg : string) : M A :=
  fun w =>
    match m w with
    | (Err e, w') => (Err (WithMessage e msg), w')
    | r => r
    end.

(** [x, err := f()] where the error is inspected rather than returned. *)
Definition attempt {A} (m : M A) : M (error + A) :=
  fun w =>
    match m w with
    | (Ok a, w') => (Ok (inr a), w')
    | (Err e, w') => (Ok (inl e), w')
    | (Panic, w') => (Panic, w')
    end.

(** [defer f.Close()]: runs when the function returns or panics. *)
Definition defer_close {A} (f : File) (m : M A) : M A :=
  fun w => let (r, w') := m w in (r, record (EvClose f) w').

Definition get_istate : M InstallSubcontextState := fun w => (Ok (istate w), w).

Definition update (f : InstallSubcontextState -> InstallSubcontextState)
    (w : World) : World :=
  {| istate := f (istate w); store := store w; trace := trace w |}.

(** Assignments to the fields of the shared substate. *)
Definition with_DownloadSessionId (v : string) (s : InstallSubcontextState) :=
  {| DownloadSessionId := v;
     IsAvailableLocally := IsAvailableLocally s;
     InstallerInfo_ := InstallerInfo_ s;
     SecondInstallerInfo := SecondInstallerInfo s;
     FirstInstallResult := FirstInstallResult s |}.
Definition with_IsAvailableLocally (v : bool) (s : InstallSubcontextState) :=
  {| DownloadSessionId := DownloadSessionId s;
     IsAvailableLocally := v;
     InstallerInfo_ := InstallerInfo_ s;
     SecondInstallerInfo := SecondInstallerInfo s;
     FirstInstallResult := FirstInstallResult s |}.
Definition with_InstallerInfo (v : InstallerInfo) (s : InstallSubcontextState) :=
  {| DownloadSessionId := DownloadSessionId s;
     IsAvailableLocally := IsAvailableLocally s;
     InstallerInfo_ := Some v;
     SecondInstallerInfo := SecondInstallerInfo s;
     FirstInstallResult := FirstInstallResult s |}.
Definition with_SecondInstallerInfo (v : InstallerInfo) (s : InstallSubcontextState) :=
  {| DownloadSessionId := DownloadSessionId s;
     IsAvailableLocally := IsAvailableLocally s;
     InstallerInfo_ := InstallerInfo_ s;
     SecondInstallerInfo := Some v;
     FirstInstallResult := FirstInstallResult s |}.
Definition with_FirstInstallResult (v : InstallResult) (s : InstallSubcontextState) :=
  {| DownloadSessionId := DownloadSessionId s;
     IsAvailableLocally := IsAvailableLocally s;
     InstallerInfo_ := InstallerInfo_ s;
     SecondInstallerInfo := SecondInstallerInfo s;
     FirstInstallResult := Some v |}.

(** Modelled from the spec: [OperationContext.Save] is outside the
    sources; it flushes the record to the staging store. *)
Definition saved (w : World) : World :=
  {| istate := istate w; store := Some (istate w);
     trace := trace w ++ [EvSave (istate w)] |}.

(** [istate.X = v; oc.Save(isub)]: the assignment and the flush that
    follows it in every place of the source. *)
Definition assign_and_save
    (f : InstallSubcontextState -> InstallSubcontextState) : M unit :=
  fun w => (Ok tt, saved (update f w)).

(** [istate := &InstallSubcontextState{}; oc.Load(isub)].  Modelled from
    the spec: [OperationContext.Load] is outside the sources; it fills the
    record from the store when one was saved. *)
Definition oc_Load : M unit :=
  fun w => (Ok tt, {| istate := match store w with
                                | Some s => s
                                | None => zeroState
                                end;
                      store := store w; trace := trace w ++ [EvLoad] |}).

(** ** The environment: the collaborators' answers during one run *)

(** The API client built by [ClientFromCredentials]. *)
Record Client :=
  { NewDownloadSession : NewDownloadSessionParams -> outcome string;
    FindUpgrade : FindUpgradeParams -> outcome FindUpgradeResponse }.

(** What an installer manager is handed ([installer.InstallParams]). *)
Record ManagerInstallParams :=
  { MIP_File : File;
    MIP_InstallerInfo : option InstallerInfo;
    MIP_StageFolderPath : string;
    MIP_InstallFolderPath : string;
    MIP_ReceiptIn : option Receipt }.

Definition setMIPFile (p : ManagerInstallParams) (f : File) :=
  {| MIP_File := f;
     MIP_InstallerInfo := MIP_InstallerInfo p;
     MIP_StageFolderPath := MIP_StageFolderPath p;
     MIP_InstallFolderPath := MIP_InstallFolderPath p;
     MIP_ReceiptIn := MIP_ReceiptIn p |}.

(** An installer manager: its [Install] method. *)
Record Manager :=
  { Install : CallSite -> ManagerInstallParams -> outcome InstallResult }.

Record Env :=
  { (* the operation context *)
    StageFolder : string;
    ctxDone : CallSite -> bool;                       (* <-oc.ctx.Done() *)
    LoadContext : string -> outcome unit;
    Retire : outcome unit;
    (* API and receipt *)
    ClientFromCredentials : GameCredentials -> outcome Client;
    ReadReceipt : string -> outcome (option Receipt);
    sourceURL : InstallSubcontextState -> InstallParams -> string -> string;
    UploadIsProbablyExternal : option Upload -> bool;
    (* files *)
    eosOpen : CallSite -> string -> outcome File;
    osOpen : CallSite -> string -> outcome File;
    Stat : CallSite -> File -> outcome FileInfo;
    Seek : File -> outcome unit;
    DownloadInstallSource : File -> string -> outcome unit;
    osStat : string -> outcome unit;
    MkdirAll : string -> outcome unit;
    RemoveAll : string -> outcome unit;
    Rename : string -> string -> outcome unit;
    Join : list string -> string;                     (* filepath.Join *)
    Base : string -> string;                          (* filepath.Base *)
    Dir : string -> string;                           (* filepath.Dir *)
    (* notifications *)
    TaskStartedNotify : CallSite -> TaskType -> outcome unit;
    TaskSucceededNotify : CallSite -> TaskType -> outcome unit;
    (* package installer *)
    GetInstallerInfo : CallSite -> File -> outcome InstallerInfo;
    IsWindowsInstaller : InstallerType -> bool;
    GetManager : InstallerType -> option Manager;
    AssessDiskUsage :
      File -> option Receipt -> string -> InstallerInfo -> outcome unit;
    (* the rest of package operate *)
    heal : option Receipt -> outcome unit;
    commitInstall : CommitInstallParams -> outcome unit }.

(** Modelled from the spec: [OperationContext.Retire] is outside the
    sources; when it succeeds the staging state is gone. *)
Definition oc_Retire (env : Env) : M unit :=
  fun w =>
    match Retire env with
    | Ok tt => (Ok tt, {| istate := istate w; store := None;
                          trace := trace w ++ [EvRetire] |})
    | r => (r, record EvRetire w)
    end.


Section Operate.

Variable env : Env.
Variable params : InstallParams.      (* meta.Data, as loaded by oc.Load(meta) *)

(** ** doForceLocal (install_perform.go:67-128) *)

(** Lines 80-121: copy the source to disk unless that was done before. *)
Definition ensureLocal (site : CallSite) (file : File) (destPath : string)
    : M unit :=
  st <- get_istate ;;
  if IsAvailableLocally st then
    log Infof "Install source needs to be available locally, re-using previously-downloaded file"
  else
    log Infof "Install source needs to be available locally, copying to disk..." ;;
    dlErr <- attempt (
      with_stack (call (EvTaskStarted TaskTypeDownload)
                       (TaskStartedNotify env site TaskTypeDownload)) ;;
      emit EvStartProgress ;;
      err <- attempt (call (EvDownloadInstallSource file destPath)
                           (DownloadInstallSource env file destPath)) ;;
      emit EvEndProgress ;;
      emit EvProgress0 ;;
      match err with
      | inl e => fail (WithStack e)
      | inr _ =>
          with_stack (call (EvTaskSucceeded TaskTypeDownload)
                           (TaskSucceededNotify env site TaskTypeDownload))
      end) ;;
    match dlErr with
    | inl e => fail (Wrap e "downloading install source")
    | inr _ => assign_and_save (with_IsAvailableLocally true)
    end.

Definition doForceLocal (site : CallSite) (file : File) : M File :=
  stats <- with_stack (call (EvStat file) (Stat env site file)) ;;
  let destName := Base env (Name stats) in
  let destPath := Join env [StageFolder env; "install-source"; destName] in
  ensureLocal site file destPath ;;
  with_stack (call (EvOpen destPath) (eosOpen env site destPath)).

(** ** InstallPrepare (install_perform.go:132-324) *)

Definition InstallTask := InstallPrepareResult -> M unit.

(** [return task(res)]; the call itself is made observable. *)
Definition invoke (task : InstallTask) (res : InstallPrepareResult) : M unit :=
  emit (EvTask res) ;; task res.

(** Lines 162-176: the download session, created once. *)
Definition ensureDownloadSession (client : Client) : M unit :=
  st <- get_istate ;;
  if String.eqb (DownloadSessionId st) "" then
    let p := {| GameID := Game_ID (Game_ params);
                DownloadKeyID_session := DownloadKey (Credentials params) |} in
    uuid <- with_stack (call (EvNewDownloadSession p)
                             (NewDownloadSession client p)) ;;
    assign_and_save (with_DownloadSessionId uuid) ;;
    log Infof "→ Starting fresh download session (%s)"
  else
    log Infof "↻ Resuming download session (%s)".

(** Lines 137-186: the client, the receipt and the download session. *)
Definition preparePrelude : M (Client * option Receipt) :=
  client <- with_stack (call EvClientFromCredentials
                             (ClientFromCredentials env (Credentials params))) ;;
  log Infof "→ Preparing install for %s" ;;
  log Infof "  (%s) is our destination" ;;
  log Infof "  (%s) is our stage" ;;
  r <- attempt (call (EvReadReceipt (InstallFolder params))
                     (ReadReceipt env (InstallFolder params))) ;;
  receiptIn <-
    match r with
    | inl _ => log Errorf "Could not read existing receipt: %s" ;; ret None
    | inr receiptIn => ret receiptIn
    end ;;
  match receiptIn with
  | None => log Infof "No receipt found."
  | Some _ => ret tt
  end ;;
  ensureDownloadSession client ;;
  match receiptIn with
  | None => log Infof "← No previous install info (no recorded upload or build)"
  | Some receipt =>
      log Infof "← Previously installed:" ;;
      emit (EvLogUpload (Receipt_Upload receipt) (Receipt_Build receipt))
  end ;;
  log Infof "→ To be installed:" ;;
  emit (EvLogUpload (Upload_ params) (Build_ params)) ;;
  ret (client, receiptIn).

(** Lines 208-216: the loop over the upgrade path.  The entry of the
    installed build is skipped, the other patch sizes are added up in an
    [int64]. *)
Fixpoint upgradeLoop (oldID : Z) (items : list UpgradePathItem)
    (totalUpgradeSize : Z) : M Z :=
  match items with
  | [] => ret totalUpgradeSize
  | item :: rest =>
      if Item_ID item =? oldID then
        upgradeLoop oldID rest totalUpgradeSize
      else
        log Infof " - Build %d (%s)" ;;
        upgradeLoop oldID rest (add64 totalUpgradeSize (PatchSize item))
  end.

(** The value the loop leaves in [totalUpgradeSize]. *)
Definition totalUpgradeSizeOf (oldID : Z) (items : list UpgradePathItem) : Z :=
  fold_left (fun total item =>
               if Item_ID item =? oldID then total
               else add64 total (PatchSize item))
            items 0.

(** Lines 290-300: the type kept when installers are ignored. *)
Definition ignoredType (t : InstallerType) : InstallerType :=
  match t with
  | InstallerTypeArchive => InstallerTypeArchive
  | InstallerTypeNaked => InstallerTypeNaked
  | _ => InstallerTypeNaked
  end.

(** Lines 276-315: the installer info, probed unless a usable one is
    cached. *)
Definition ensureInstallerInfo (receiptIn : option Receipt) (file : File)
    : M unit :=
  st <- get_istate ;;
  if match InstallerInfo_ st with
     | None => true
     | Some i => InstallerType_eqb (Type_ i) InstallerTypeUnknown
     end
  then
    log Infof "Determining source information..." ;;
    installerInfo <- with_stack (call (EvGetInstallerInfo SiteSource file)
                                      (GetInstallerInfo env SiteSource file)) ;;
    (* sniffing may have read parts of the file, so seek back to beginning *)
    with_stack (call (EvSeek file) (Seek env file)) ;;
    installerInfo <-
      (if IgnoreInstallers params then
         match Type_ installerInfo with
         | InstallerTypeArchive => ret installerInfo   (* that's cool *)
         | InstallerTypeNaked => ret installerInfo     (* that's cool too *)
         | _ =>
             log Infof "Asked to ignore installers, forcing (naked) instead of (%s)" ;;
             ret {| Type_ := InstallerTypeNaked |}
         end
       else ret installerInfo) ;;
    with_message (call (EvAssessDiskUsage file)
                       (AssessDiskUsage env file receiptIn
                                        (InstallFolder params) installerInfo))
                 "assessing disk usage" ;;
    log Infof "Estimated disk usage (accuracy: %s)" ;;
    log Infof "  ✓ %s needed free space" ;;
    log Infof "  ✓ %s final disk usage" ;;
    assign_and_save (with_InstallerInfo installerInfo)
  else
    log Infof "Using cached source information".

Definition unsupportedMessage : string :=
  "Item is packaged in a way that isn't supported, refusing to install".

(** Lines 317-323: the unsupported check and the call of the task. *)
Definition checkSupported (res : InstallPrepareResult) (task : InstallTask)
    : M unit :=
  st <- get_istate ;;
  match InstallerInfo_ st with
  | None => panic
  | Some installerInfo =>
      if InstallerType_eqb (Type_ installerInfo) InstallerTypeUnsupported then
        log Errorf unsupportedMessage ;;
        fail (WithStack (CodeError CodeUnsupportedPackaging))
      else
        invoke task res
  end.

(** Lines 276-323. *)
Definition prepareInstallerInfo (receiptIn : option Receipt) (file : File)
    (res : InstallPrepareResult) (task : InstallTask) : M unit :=
  ensureInstallerInfo receiptIn file ;;
  checkSupported res task.

(** Lines 248-323: opening the install source, the external-upload
    detour, then [prepareInstallerInfo]. *)
Definition prepareSource (allowDownloads : bool) (receiptIn : option Receipt)
    (res : InstallPrepareResult) (task : InstallTask) : M unit :=
  st <- get_istate ;;
  let installSourceURL := sourceURL env st params "" in
  file <- with_stack (call (EvOpen installSourceURL)
                           (eosOpen env SiteSource installSourceURL)) ;;
  let res := setFile res file in
  defer_close file (
    if match Build_ params with None => true | Some _ => false end
       && UploadIsProbablyExternal env (Upload_ params)
    then
      log Warnf "Dealing with an external upload, all bets are off." ;;
      if negb allowDownloads then
        log Warnf "Can't determine source information at that time" ;;
        ret tt
      else
        log Warnf "Forcing download before we check anything else." ;;
        lf <- with_stack (doForceLocal SiteForcePrepare file) ;;
        emit (EvClose file) ;;
        prepareInstallerInfo receiptIn lf (setFile res lf) task
    else
      prepareInstallerInfo receiptIn file res task).

(** Lines 188-246: the strategy; every path that does not heal falls
    through to [prepareSource]. *)
Definition selectStrategy (client : Client) (receiptIn : option Receipt)
    (allowDownloads : bool) (task : InstallTask) : M unit :=
  let res := setReceiptIn emptyResult receiptIn in
  match receiptIn with
  | None => prepareSource allowDownloads receiptIn res task
  | Some receipt =>
      match Receipt_Upload receipt with
      | None => prepareSource allowDownloads receiptIn res task
      | Some rUpload =>
          match Upload_ params with
          | None => panic          (* params.Upload.ID on a nil pointer *)
          | Some pUpload =>
              if Upload_ID rUpload =? Upload_ID pUpload then
                log Infof "Installing over same upload" ;;
                match Receipt_Build receipt, Build_ params with
                | Some rBuild, Some pBuild =>
                    let oldID := Build_ID rBuild in
                    let newID := Build_ID pBuild in
                    let reinstall :=
                      log Infof "↺ Re-installing build %d" ;;
                      invoke task (setStrategy res InstallPerformStrategyHeal) in
                    if newID >? oldID then
                      log Infof "↑ Upgrading from build %d to %d" ;;
                      let p := {| CurrentBuildID := oldID;
                                  UploadID := Upload_ID pUpload;
                                  DownloadKeyID := DownloadKey (Credentials params) |} in
                      u <- attempt (call (EvFindUpgrade p) (FindUpgrade client p)) ;;
                      match u with
                      | inl _ =>
                          log Warnf "Could not find upgrade path: %s" ;;
                          log Infof "Falling back to heal..." ;;
                          invoke task (setStrategy res InstallPerformStrategyHeal)
                      | inr upgradePath =>
                          log Infof "Found upgrade path with %d items: " ;;
                          totalUpgradeSize <-
                            upgradeLoop oldID (UpgradePath upgradePath) 0 ;;
                          let fullUploadSize := Upload_Size pUpload in
                          log Infof "Total upgrade size %s is %s full upload %s" ;;
                          if totalUpgradeSize >? fullUploadSize then
                            log Infof "Healing instead of patching" ;;
                            invoke task (setStrategy res InstallPerformStrategyHeal)
                          else
                            log Warnf "TODO: update (falling back to install for now)" ;;
                            reinstall
                      end
                    else if newID <? oldID then
                      log Infof "↓ Downgrading from build %d to %d" ;;
                      invoke task (setStrategy res InstallPerformStrategyHeal)
                    else
                      reinstall
                | _, _ => prepareSource allowDownloads receiptIn res task
                end
              else
                prepareSource allowDownloads receiptIn res task
          end
      end
  end.

Definition InstallPrepare (allowDownloads : bool) (task : InstallTask) : M unit :=
  p <- preparePrelude ;;
  selectStrategy (fst p) (snd p) allowDownloads task.

(** ** doInstallPerform (install_perform.go:326-543) *)

(** Lines 382-413: the closure [tryInstall].  [manager] and
    [managerInstallParams] are the captured variables at the time of the
    call; [name] is the type the manager was looked up with. *)
Definition tryInstall (site : CallSite) (name : InstallerType)
    (manager : Manager) (managerInstallParams : ManagerInstallParams)
    : M InstallResult :=
  defer_close (MIP_File managerInstallParams) (
    if ctxDone env site then
      fail (WithStack (CodeError CodeOperationCancelled))
    else
      with_stack (call (EvTaskStarted TaskTypeInstall)
                       (TaskStartedNotify env site TaskTypeInstall)) ;;
      emit EvStartProgress ;;
      r <- attempt (call (EvInstall site name (MIP_File managerInstallParams))
                         (Install manager site managerInstallParams)) ;;
      emit EvEndProgress ;;
      match r with
      | inl err => fail (WithStack err)
      | inr res => ret res
      end).

(** Lines 415-442: the first install, resumed from the substate when it
    was already done, re-invoked with a local file on [ErrNeedLocal]. *)
Definition firstInstall (name : InstallerType) (manager : Manager)
    (managerInstallParams : ManagerInstallParams) (file : File)
    : M InstallResult :=
  st <- get_istate ;;
  match FirstInstallResult st with
  | Some firstInstallResult =>
      log Infof "First install already completed (%d files)" ;;
      ret firstInstallResult
  | None =>
      r <- attempt (tryInstall SiteFirst name manager managerInstallParams) ;;
      r <- match r with
           | inl err =>
               if isErrNeedLocal (Cause err) then
                 l <- attempt (doForceLocal SiteRetry file) ;;
                 match l with
                 | inl localErr => fail (WithStack err)
                 | inr lf =>
                     log Infof "Re-invoking manager with local file..." ;;
                     attempt (tryInstall SiteRetry name manager
                                         (setMIPFile managerInstallParams lf))
                 end
               else ret (inl err)
           | inr res => ret (inr res)
           end ;;
      match r with
      | inl err => fail (WithStack err)
      | inr firstInstallResult =>
          log Infof "Install successful" ;;
          assign_and_save (with_FirstInstallResult firstInstallResult) ;;
          ret firstInstallResult
      end
  end.

(** Lines 489-518: the single file is moved to the nested install source
    under the stage folder, unless it is there already, and opened. *)
Definition relocateNested (single singlePath : string) : M File :=
  let destName := Base env single in
  let destPath :=
    Join env [StageFolder env; "nested-install-source"; destName] in
  s <- attempt (call (EvOsStat destPath) (osStat env destPath)) ;;
  match s with
  | inr _ =>
      (* ah, it must already be there then *)
      log Infof "Using (%s) for nested install"
  | inl _ =>
      log Infof "Moving (%s) to (%s) for nested install" ;;
      with_stack (call (EvMkdirAll (Dir env destPath))
                       (MkdirAll env (Dir env destPath))) ;;
      with_stack (call (EvRemoveAll destPath) (RemoveAll env destPath)) ;;
      with_stack (call (EvRename singlePath destPath)
                       (Rename env singlePath destPath))
  end ;;
  with_stack (call (EvOpen destPath) (osOpen env SiteNested destPath)).

(** Lines 477-524: what the closure does once the second installer info
    is known.  The result is the pair of [finalInstallResult] and
    [finalInstallerInfo]. *)
Definition nestedWith (managerInstallParams : ManagerInstallParams)
    (firstInstallResult : InstallResult) (installerInfo : InstallerInfo)
    (single singlePath : string) (secondInstallerInfo : InstallerInfo)
    : M (InstallResult * InstallerInfo) :=
  if negb (IsWindowsInstaller env (Type_ secondInstallerInfo)) then
    log Infof "Installer type is (%s), ignoring" ;;
    ret (firstInstallResult, installerInfo)
  else
    log Infof "Will use nested installer (%s)" ;;
    match GetManager env (Type_ secondInstallerInfo) with
    | None => fail (ErrorNew "Don't know how to install (%s) packages")
    | Some manager =>
        lf <- relocateNested single singlePath ;;
        log Infof "Invoking nested install manager, let's go!" ;;
        finalInstallResult <-
          tryInstall SiteNested (Type_ secondInstallerInfo) manager
                     (setMIPFile managerInstallParams lf) ;;
        ret (finalInstallResult, secondInstallerInfo)
    end.

(** Lines 444-529: the single-file check and the nested install. *)
Definition nestedInstall (managerInstallParams : ManagerInstallParams)
    (firstInstallResult : InstallResult) (installerInfo : InstallerInfo)
    : M (InstallResult * InstallerInfo) :=
  match Files firstInstallResult with
  | [single] =>
      let singlePath := Join env [InstallFolder params; single] in
      log Infof "Installed a single file" ;;
      with_stack (
        st <- get_istate ;;
        match SecondInstallerInfo st with
        | Some secondInstallerInfo =>
            log Infof "Using cached second installer info" ;;
            nestedWith managerInstallParams firstInstallResult installerInfo
                       single singlePath secondInstallerInfo
        | None =>
            log Infof "Probing (%s)..." ;;
            sf <- with_stack (call (EvOpen singlePath)
                                   (osOpen env SiteSecondProbe singlePath)) ;;
            defer_close sf (
              i <- attempt (call (EvGetInstallerInfo SiteSecondProbe sf)
                                 (GetInstallerInfo env SiteSecondProbe sf)) ;;
              match i with
              | inl _ =>
                  log Infof "Could not determine installer info for single file, skipping: %s" ;;
                  ret (firstInstallResult, installerInfo)
              | inr secondInstallerInfo =>
                  emit (EvClose sf) ;;
                  assign_and_save (with_SecondInstallerInfo secondInstallerInfo) ;;
                  nestedWith managerInstallParams firstInstallResult
                             installerInfo single singlePath secondInstallerInfo
              end)
        end)
  | _ => ret (firstInstallResult, installerInfo)
  end.

Definition commitParams (finalInstallerInfo : InstallerInfo)
    (finalInstallResult : InstallResult) : CommitInstallParams :=
  {| Commit_InstallFolder := InstallFolder params;
     Commit_InstallerName := Type_ finalInstallerInfo;
     Commit_Game := Game_ params;
     Commit_Upload := Upload_ params;
     Commit_Build := Build_ params;
     Commit_InstallResult := finalInstallResult |}.

(** Lines 337-542: the task handed to [InstallPrepare]. *)
Definition installTask (prepareRes : InstallPrepareResult) : M unit :=
  if Strategy prepareRes =? InstallPerformStrategyHeal then
    call (EvHeal (ReceiptIn prepareRes)) (heal env (ReceiptIn prepareRes))
  else
    match File_ prepareRes with
    | None => panic                  (* prepareRes.File.Stat() on nil *)
    | Some file =>
        stats <- with_stack (call (EvStat file) (Stat env SiteFirst file)) ;;
        st <- get_istate ;;
        match InstallerInfo_ st with
        | None => panic              (* installerInfo.Type on nil *)
        | Some installerInfo =>
            (if negb (NoCave params) then
               emit (EvCaveByID (CaveID params))
             else ret tt) ;;
            log Infof "Will use installer %s" ;;
            match GetManager env (Type_ installerInfo) with
            | None => fail (ErrorNew "No manager for installer %s")
            | Some manager =>
                let managerInstallParams :=
                  {| MIP_File := file;
                     MIP_InstallerInfo := InstallerInfo_ st;
                     MIP_StageFolderPath := StageFolder env;
                     MIP_InstallFolderPath := InstallFolder params;
                     MIP_ReceiptIn := ReceiptIn prepareRes |} in
                firstInstallResult <-
                  firstInstall (Type_ installerInfo) manager
                               managerInstallParams file ;;
                final <- nestedInstall managerInstallParams
                                       firstInstallResult installerInfo ;;
                call (EvCommitInstall (commitParams (snd final) (fst final)))
                     (commitInstall env (commitParams (snd final) (fst final)))
            end
        end
    end.

Definition doInstallPerform : M unit :=
  oc_Load ;;
  InstallPrepare true installTask.

(** ** InstallPerform (install_perform.go:25-51) *)

Definition InstallPerform (performParams : InstallPerformParams) : M unit :=
  if String.eqb (StagingFolder performParams) "" then
    fail (ErrorNew "No staging folder specified")
  else
    with_stack (call (EvLoadContext (StagingFolder performParams))
                     (LoadContext env (StagingFolder performParams))) ;;
    emit EvLoadMeta ;;
    with_stack doInstallPerform ;;
    log Infof "Install successful, retiring context" ;;
    with_stack (oc_Retire env) ;;
    ret tt.

End Operate.

(** ** What a run leaves untouched

    An [Aspect] names one guarantee about a stretch of a run: a field of
    the substate that is set stays as it is, and the call that would
    compute it does not happen; or a certain call does not happen at all. *)

Inductive Aspect :=
| ASession          (* DownloadSessionId set: no NewDownloadSession *)
| ALocal            (* IsAvailableLocally set: no DownloadInstallSource *)
| AInfo             (* InstallerInfo set and known: no probe of the source *)
| ASecond           (* SecondInstallerInfo set: no probe of the single file *)
| AFirst            (* FirstInstallResult set: no first install *)
| ASupported        (* InstallerInfo archive or naked, if set: no refusal *)
| AStore            (* the store holds the substate *)
| ANoRetire         (* no Retire *)
| ANoUpgradeQuery   (* no FindUpgrade *)
| ANoTask           (* the task is not called *)
| ANoInstall        (* no manager is invoked *)
| ANoCommit         (* no commitInstall *)
| ATrace.           (* nothing but: the trace only grows *)

Definition bad (X : Aspect) (ev : Event) : bool :=
  match ev with
  | EvNewDownloadSession _ =>
      match X with ASession => true | _ => false end
  | EvDownloadInstallSource _ _ =>
      match X with ALocal => true | _ => false end
  | EvGetInstallerInfo SiteSource _ =>
      match X with AInfo => true | _ => false end
  | EvGetInstallerInfo SiteSecondProbe _ =>
      match X with ASecond => true | _ => false end
  | EvInstall SiteFirst _ _ | EvInstall SiteRetry _ _ =>
      match X with AFirst | ANoInstall => true | _ => false end
  | EvInstall _ _ _ =>
      match X with ANoInstall => true | _ => false end
  | EvLog Errorf s =>
      if String.eqb s unsupportedMessage
      then match X with ASupported => true | _ => false end
      else false
  | EvRetire =>
      match X with ANoRetire => true | _ => false end
  | EvFindUpgrade _ =>
      match X with ANoUpgradeQuery => true | _ => false end
  | EvTask _ =>
      match X with ANoTask => true | _ => false end
  | EvCommitInstall _ =>
      match X with ANoCommit => true | _ => false end
  | _ => false
  end.

Definition clean (X : Aspect) (d : list Event) : bool :=
  forallb (fun ev => negb (bad X ev)) d.

(** A usable cached installer info: set, and not of type unknown. *)
Definition usableInfo (s : InstallSubcontextState) : bool :=
  match InstallerInfo_ s with
  | None => false
  | Some i => negb (InstallerType_eqb (Type_ i) InstallerTypeUnknown)
  end.

(** The installer info, if any is stored, is an archive or a naked file. *)
Definition supportedInfo (s : InstallSubcontextState) : bool :=
  match InstallerInfo_ s with
  | None => true
  | Some i =>
      match Type_ i with
      | InstallerTypeArchive | InstallerTypeNaked => true
      | _ => false
      end
  end.

Definition isSome {A} (o : option A) : bool :=
  match o with Some _ => true | None => false end.

Definition held (X : Aspect) (w : World) : Prop :=
  match X with
  | ASession => String.eqb (DownloadSessionId (istate w)) "" = false
  | ALocal => IsAvailableLocally (istate w) = true
  | AInfo => usableInfo (istate w) = true
  | ASecond => isSome (SecondInstallerInfo (istate w)) = true
  | AFirst => isSome (FirstInstallResult (istate w)) = true
  | ASupported => supportedInfo (istate w) = true
  | AStore => store w = Some (istate w)
  | ATrace => False
  | _ => True
  end.

Definition keeps (X : Aspect) (w w' : World) : Prop :=
  match X with
  | ASession => DownloadSessionId (istate w') = DownloadSessionId (istate w)
  | ALocal => IsAvailableLocally (istate w') = true
  | AInfo => InstallerInfo_ (istate w') = InstallerInfo_ (istate w)
  | ASecond => SecondInstallerInfo (istate w') = SecondInstallerInfo (istate w)
  | AFirst => FirstInstallResult (istate w') = FirstInstallResult (istate w)
  | ASupported => supportedInfo (istate w') = true
  | AStore => store w' = Some (istate w')
  | _ => True
  end.

(** [w'] is reached from [w] in accordance with aspect [X]. *)
Definition R (X : Aspect) (w w' : World) : Prop :=
  exists d, trace w' = trace w ++ d /\
            (held X w -> keeps X w w' /\ clean X d = true).

Definition respects {A} (X : Aspect) (m : M A) : Prop :=
  forall w r w', m w = (r, w') -> R X w w'.

(** Events of a given kind in a stretch of trace. *)
Definition isInstall (site : CallSite) (ev : Event) : bool :=
  match ev, site with
  | EvInstall SiteFirst _ _, SiteFirst => true
  | EvInstall SiteRetry _ _, SiteRetry => true
  | EvInstall SiteNested _ _, SiteNested => true
  | _, _ => false
  end.

Definition installs (site : CallSite) (d : list Event) : nat :=
  List.length (filter (isInstall site) d).

(** The world in which [InstallPerform] calls [doInstallPerform]. *)
Definition atPerform (performParams : InstallPerformParams) (w : World) : World :=
  record EvLoadMeta (record (EvLoadContext (StagingFolder performParams)) w).

(** [w] with the events [d] appended to its trace. *)
Definition extend (w : World) (d : list Event) : World :=
  {| istate := istate w; store := store w; trace := trace w ++ d |}.

Definition isLog (ev : Event) : bool :=
  match ev with EvLog _ _ => true | _ => false end.

(** The query of lines 195-199. *)
Definition upgradeQuery (params : InstallParams) (oldID : Z) (pUpload : Upload)
    : FindUpgradeParams :=
  {| CurrentBuildID := oldID;
     UploadID := Upload_ID pUpload;
     DownloadKeyID := DownloadKey (Credentials params) |}.

(** The result handed to the task on the healing paths. *)
Definition healResult (receipt : Receipt) : InstallPrepareResult :=
  setStrategy (setReceiptIn emptyResult (Some receipt)) InstallPerformStrategyHeal.

(** What the single installed file probes as: the cached second
    installer info, or else the answer of the probe (lines 454-475). *)
Definition secondInfo (env : Env) (params : InstallParams) (w : World)
    (single : string) : option InstallerInfo :=
  match SecondInstallerInfo (istate w) with
  | Some s => Some s
  | None =>
      match osOpen env SiteSecondProbe (Join env [InstallFolder params; single]) with
      | Ok sf =>
          match GetInstallerInfo env SiteSecondProbe sf with
          | Ok i => Some i
          | _ => None
          end
      | _ => None
      end
  end.

(** The path of the nested install source (line 490). *)
Definition nestedPath (env : Env) (single : string) : string :=
  Join env [StageFolder env; "nested-install-source"; Base env single].

(** The outcome of the nested step once the second installer info [s] is
    known, in the shape used below. *)
Definition nestedOutcome (env : Env) (mip : ManagerInstallParams)
    (first : InstallResult) (info : InstallerInfo) (single : string)
    (s : InstallerInfo) (d : list Event)
    (r : outcome (InstallResult * InstallerInfo)) : Prop :=
  installs SiteFirst d = 0%nat /\
  installs SiteRetry d = 0%nat /\
  (installs SiteNested d <= 1)%nat /\
  (installs SiteNested d = 1%nat -> IsWindowsInstaller env (Type_ s) = true) /\
  (IsWindowsInstaller env (Type_ s) = false -> r = Ok (first, info)) /\
  (forall fin, r = Ok fin ->
     (fin = (first, info) /\ installs SiteNested d = 0%nat) \/
     (exists m lf res,
        IsWindowsInstaller env (Type_ s) = true /\
        GetManager env (Type_ s) = Some m /\
        osOpen env SiteNested (nestedPath env single) = Ok lf /\
        Install m SiteNested (setMIPFile mip lf) = Ok res /\
        fin = (res, s) /\
        In (EvInstall SiteNested (Type_ s) lf) d /\
        installs SiteNested d = 1%nat)).


(** [if err != nil { return errors.WithStack(err) }] on an outcome. *)
Definition stacked {A} (r : outcome A) : outcome A :=
  match r with
  | Err e => Err (WithStack e)
  | _ => r
  end.

(** A run of [InstallPrepare] that reaches the check of line 318 in world
    [w1], with [file0] the install source opened at line 250 and [res] the
    result that would be handed to the task. *)
Definition reachesCheck (env : Env) (params : InstallParams) (allow : bool)
    (w : World) (file0 : File) (res : InstallPrepareResult) (w1 : World)
    : Prop :=
  forall task,
    InstallPrepare env params allow task w =
    defer_close file0 (checkSupported res task) w1.

(** The three ways a run of [InstallPrepare] can go, as a function of the
    task it is given: it returns without calling the task; it calls the
    task on a healing result, before the install source is opened; or it
    calls the task on a result that holds the open source and no
    strategy, with a supported installer info in the substate, and closes
    the source when the task returns. *)
Inductive PrepareShape (run : InstallTask -> outcome unit * World) : Prop :=
| ReturnsWithoutTask (r : outcome unit) (w1 : World) :
    (forall task, run task = (r, w1)) ->
    PrepareShape run
| HealsWith (receipt : Receipt) (w1 : World) :
    (forall task, run task = invoke task (healResult receipt) w1) ->
    PrepareShape run
| InstallsWith (file0 file : File) (receiptIn : option Receipt)
    (w1 : World) (i : InstallerInfo) :
    InstallerInfo_ (istate w1) = Some i ->
    Type_ i <> InstallerTypeUnsupported ->
    (forall task,
       run task =
       defer_close file0
         (invoke task {| File_ := Some file;
                         ReceiptIn := receiptIn;
                         Strategy := InstallPerformStrategyNone |}) w1) ->
    PrepareShape run.

(** The sum, in the integers, of the patch sizes of the entries of an
    upgrade path other than the entry of the installed build. *)
Definition patchSum (oldID : Z) (items : list UpgradePathItem) : Z :=
  fold_right (fun item s =>
                if Item_ID item =? oldID then s else PatchSize item + s)
             0 items.

(** The receipt that [InstallPrepare] goes on with (lines 148-152). *)
Definition receiptRead (env : Env) (params : InstallParams) : option Receipt :=
  match ReadReceipt env (InstallFolder params) with
  | Ok r => r
  | _ => None
  end.

(** ** Panics *)

(** No collaborator panics. *)
Record calm (env : Env) : Prop :=
  { calm_LoadContext : forall s, LoadContext env s <> Panic;
    calm_Retire : Retire env <> Panic;
    calm_ClientFromCredentials :
      forall c, ClientFromCredentials env c <> Panic;
    calm_NewDownloadSession :
      forall c client p,
        ClientFromCredentials env c = Ok client ->
        NewDownloadSession client p <> Panic;
    calm_FindUpgrade :
      forall c client p,
        ClientFromCredentials env c = Ok client ->
        FindUpgrade client p <> Panic;
    calm_ReadReceipt : forall s, ReadReceipt env s <> Panic;
    calm_eosOpen : forall site s, eosOpen env site s <> Panic;
    calm_osOpen : forall site s, osOpen env site s <> Panic;
    calm_Stat : forall site f, Stat env site f <> Panic;
    calm_Seek : forall f, Seek env f <> Panic;
    calm_DownloadInstallSource :
      forall f s, DownloadInstallSource env f s <> Panic;
    calm_osStat : forall s, osStat env s <> Panic;
    calm_MkdirAll : forall s, MkdirAll env s <> Panic;
    calm_RemoveAll : forall s, RemoveAll env s <> Panic;
    calm_Rename : forall a b, Rename env a b <> Panic;
    calm_TaskStartedNotify :
      forall site t, TaskStartedNotify env site t <> Panic;
    calm_TaskSucceededNotify :
      forall site t, TaskSucceededNotify env site t <> Panic;
    calm_GetInstallerInfo :
      forall site f, GetInstallerInfo env site f <> Panic;
    calm_AssessDiskUsage :
      forall f r s i, AssessDiskUsage env f r s i <> Panic;
    calm_heal : forall r, heal env r <> Panic;
    calm_commitInstall : forall p, commitInstall env p <> Panic;
    calm_Install :
      forall t manager site p,
        GetManager env t = Some manager ->
        Install manager site p <> Panic }.

(** A computation that does not panic, in any world. *)
Definition nopanic {A} (m : M A) : Prop :=
  forall w r w', m w = (r, w') -> r <> Panic.

(** * The profile endpoints of [endpoints/profile/profile.go]

    [List], [LoginWithPassword], [LoginWithAPIKey], [UseSavedLogin] and
    [Forget] are request handlers: each talks to the itch.io API, to the
    user (captcha and TOTP requests sent back over the connection) and to
    the profile database, and returns a result or an error.  The calls a
    handler makes are recorded, in order, in a trace; the answers come
    from an environment. *)
Module profile.

(** go-itchio [User], unnamed/part_000:4-24. *)
Record User :=
  { User_ID : Z;
    User_Username : string;
    User_DisplayName : string;
    User_Developer : bool;
    User_PressUser : bool;
    User_URL : string;
    User_CoverURL : string;
    User_StillCoverURL : string }.

(** [time.Time] and the cookie ([map[string]string], buse/types.go:87)
    are only carried from one place to another. *)
Definition Time := Z.
Definition Cookie := list (string * string).

(** buse/types.go:58-67, where [Profile] still has its former name
    [Session]. *)
Record buse_Profile :=
  { bp_ID : Z;
    bp_LastConnected : Time;
    bp_User : option User }.

(** buse/types.go:48-54, 74-88, 97-104, 117-120, 127-133, 142-149: the
    parameters and results of the requests (there [Session...]). *)
Record ProfileListResult := { Profiles : list buse_Profile }.
Record ProfileLoginWithPasswordParams := { Username : string; Password : string }.
Record ProfileLoginWithPasswordResult :=
  { pw_Profile : buse_Profile; pw_Cookie : Cookie }.
Record ProfileRequestCaptchaParams := { RecaptchaURL : string }.
Record ProfileRequestCaptchaResult := { RecaptchaResponse : string }.
Record ProfileRequestTOTPResult := { totp_Code : string }.
Record ProfileLoginWithAPIKeyParams := { APIKey : string }.
Record ProfileLoginWithAPIKeyResult := { ak_Profile : buse_Profile }.
Record ProfileUseSavedLoginParams := { saved_ProfileID : Z }.
Record ProfileUseSavedLoginResult := { sl_Profile : buse_Profile }.
Record ProfileForgetParams := { forget_ProfileID : Z }.
Record ProfileForgetResult := { Success : bool }.

(** Modelled from the spec: package [models] is not among the sources.
    [models.Profile] has the fields profile.go reads and writes; what
    [UpdateFromUser] does to a profile is left to the environment. *)
Record models_Profile :=
  { mp_ID : Z;
    mp_APIKey : string;
    mp_LastConnected : Time;
    mp_User : option User }.

(** go-itchio: the requests and responses of the login calls, with the
    fields profile.go reads and writes.  [Key] and [User] are pointers. *)
Record itchio_APIKey := { Key : string }.
Record LoginWithPasswordParams :=
  { login_Username : string;
    login_Password : string;
    login_RecaptchaResponse : string }.
Record LoginWithPasswordResponse :=
  { RecaptchaNeeded : bool;
    login_RecaptchaURL : string;
    Token : string;
    login_Key : option itchio_APIKey;
    login_Cookie : Cookie }.
Record TOTPVerifyParams := { verify_Token : string; verify_Code : string }.
Record TOTPVerifyResponse :=
  { verify_Key : option itchio_APIKey; verify_Cookie : Cookie }.
Record GetMeResponse := { me_User : option User }.

(** Error values.  [Traced] is the [*errors.Error] of
    github.com/go-errors/errors, an error with a stack; [ErrAborted] is
    [&buse.ErrAborted{}]; [Message] is any other error. *)
Inductive error :=
| Message (msg : string)
| ErrAborted
| Traced (e : error).

(** [errors.New(msg)] *)
Definition New (msg : string) : error := Traced (Message msg).

(** [errors.Wrap(err, 0)]: an [*errors.Error] is returned as it is. *)
Definition Wrap (e : error) : error :=
  match e with
  | Traced _ => e
  | _ => Traced e
  end.

Inductive Event :=
| EvRootClient
| EvLoginWithPassword (p : LoginWithPasswordParams)
| EvRequestCaptcha (p : ProfileRequestCaptchaParams)
| EvRequestTOTP
| EvTOTPVerify (p : TOTPVerifyParams)
| EvKeyClient (key : string)
| EvProfileClient (id : Z)
| EvGetMe
| EvFind
| EvSave (p : models_Profile)
| EvProfileByID (id : Z)
| EvDelete (p : models_Profile)
| EvOpf (msg : string).

(** The API client made from a key, and the root client. *)
Record Client := { GetMe : error + GetMeResponse }.
Record RootClient :=
  { rc_LoginWithPassword : LoginWithPasswordParams -> error + LoginWithPasswordResponse;
    rc_TOTPVerify : TOTPVerifyParams -> error + TOTPVerifyResponse }.

(** The request context and what stands behind it: the answers given
    during one request.  [ProfileClient] and [UpdateFromUser] return no
    error; [None] is a call that panics.  [UpdateFromUser] changes the
    profile in place; its answer is the profile after the call.  The
    database calls return the [Error] field of the result. *)
Record Env :=
  { rc_RootClient : error + RootClient;
    rc_KeyClient : string -> error + Client;
    rc_ProfileClient : Z -> option (models_Profile * Client);
    RequestCaptcha : ProfileRequestCaptchaParams -> error + ProfileRequestCaptchaResult;
    RequestTOTP : error + ProfileRequestTOTPResult;
    UpdateFromUser : models_Profile -> option User -> option models_Profile;
    db_Find : error + list models_Profile;
    db_Save : models_Profile -> option error;
    models_ProfileByID : Z -> option models_Profile;
    db_Delete : models_Profile -> option error }.

(** A handler is a computation over the trace of calls made so far,
    oldest first; it returns, fails or panics. *)
Inductive result (A : Type) :=
| Returns (a : A)
| Fails (e : error)
| Panics.
Arguments Returns {A} a.
Arguments Fails {A} e.
Arguments Panics {A}.

Definition H (A : Type) := list Event -> result A * list Event.

Definition ret {A} (a : A) : H A := fun t => (Returns a, t).
Definition fail {A} (e : error) : H A := fun t => (Fails e, t).

Definition bind {A B} (m : H A) (f : A -> H B) : H B :=
  fun t =>
    match m t with
    | (Returns a, t') => f a t'
    | (Fails e, t') => (Fails e, t')
    | (Panics, t') => (Panics, t')
    end.

Declare Scope rpc_scope.
Delimit Scope rpc_scope with rpc.
Notation "x <- m ;; k" := (bind m (fun x => k))
  (at level 61, m at next level, right associativity) : rpc_scope.
Notation "m ;; k" := (bind m (fun _ => k))
  (at level 61, right associativity) : rpc_scope.
Local Open Scope rpc_scope.

Definition emit (ev : Event) : H unit := fun t => (Returns tt, t ++ [ev]).

(** [x, err := f(); if err != nil { return nil, errors.Wrap(err, 0) }] *)
Definition call {A} (ev : Event) (answer : error + A) : H A :=
  fun t =>
    match answer with
    | inr a => (Returns a, t ++ [ev])
    | inl e => (Fails (Wrap e), t ++ [ev])
    end.

(** [err := db.X(...).Error; if err != nil { return nil, errors.Wrap(err, 0) }] *)
Definition db (ev : Event) (answer : option error) : H unit :=
  fun t =>
    match answer with
    | None => (Returns tt, t ++ [ev])
    | Some e => (Fails (Wrap e), t ++ [ev])
    end.

(** [p.f] for a pointer [p]. *)
Definition deref {A} (p : option A) : H A :=
  fun t =>
    match p with
    | Some a => (Returns a, t)
    | None => (Panics, t)
    end.

(** A call that returns no error and may panic. *)
Definition call_total {A} (ev : list Event) (answer : option A) : H A :=
  fun t =>
    match answer with
    | Some a => (Returns a, t ++ ev)
    | None => (Panics, t ++ ev)
    end.

(** profile.go:38-44 *)
Definition formatProfile (p : models_Profile) : buse_Profile :=
  {| bp_ID := mp_ID p;
     bp_LastConnected := mp_LastConnected p;
     bp_User := mp_User p |}.

(** [&models.Profile{ID: id, APIKey: key}] *)
Definition newProfile (id : Z) (key : string) : models_Profile :=
  {| mp_ID := id; mp_APIKey := key; mp_LastConnected := 0; mp_User := None |}.

Section Handlers.

Variable env : Env.

(** profile.go:21-36 *)
Definition List : H ProfileListResult :=
  profiles <- call EvFind (db_Find env) ;;
  let formattedProfiles :=
    fold_left (fun acc p => acc ++ [formatProfile p]) profiles [] in
  ret {| Profiles := formattedProfiles |}.

(** profile.go:71-92, the captcha flow. *)
Definition captchaFlow (rootClient : RootClient)
    (params : ProfileLoginWithPasswordParams)
    (loginRes : LoginWithPasswordResponse) : H LoginWithPasswordResponse :=
  if RecaptchaNeeded loginRes then
    let captchaParams := {| RecaptchaURL := login_RecaptchaURL loginRes |} in
    recaptchaRes <- call (EvRequestCaptcha captchaParams)
                         (RequestCaptcha env captchaParams) ;;
    if String.eqb (RecaptchaResponse recaptchaRes) "" then fail ErrAborted
    else
      let again :=
        {| login_Username := Username params;
           login_Password := Password params;
           login_RecaptchaResponse := RecaptchaResponse recaptchaRes |} in
      call (EvLoginWithPassword again) (rc_LoginWithPassword rootClient again)
  else ret loginRes.

(** profile.go:94-119, the TOTP flow and the one-factor flow. *)
Definition keyFlow (rootClient : RootClient)
    (loginRes : LoginWithPasswordResponse)
    : H (option itchio_APIKey * Cookie) :=
  if negb (String.eqb (Token loginRes) "") then
    totpRes <- call EvRequestTOTP (RequestTOTP env) ;;
    if String.eqb (totp_Code totpRes) "" then fail ErrAborted
    else
      let verifyParams :=
        {| verify_Token := Token loginRes; verify_Code := totp_Code totpRes |} in
      verifyRes <- call (EvTOTPVerify verifyParams)
                        (rc_TOTPVerify rootClient verifyParams) ;;
      ret (verify_Key verifyRes, verify_Cookie verifyRes)
  else ret (login_Key loginRes, login_Cookie loginRes).

(** profile.go:46-148 *)
Definition LoginWithPassword (params : ProfileLoginWithPasswordParams)
    : H ProfileLoginWithPasswordResult :=
  if String.eqb (Username params) "" then fail (New "username cannot be empty")
  else if String.eqb (Password params) "" then fail (New "password cannot be empty")
  else
    rootClient <- call EvRootClient (rc_RootClient env) ;;
    let first :=
      {| login_Username := Username params;
         login_Password := Password params;
         login_RecaptchaResponse := "" |} in
    loginRes <- call (EvLoginWithPassword first)
                     (rc_LoginWithPassword rootClient first) ;;
    loginRes <- captchaFlow rootClient params loginRes ;;
    kc <- keyFlow rootClient loginRes ;;
    key <- deref (fst kc) ;;
    client <- call (EvKeyClient (Key key)) (rc_KeyClient env (Key key)) ;;
    meRes <- call EvGetMe (GetMe client) ;;
    user <- deref (me_User meRes) ;;
    profile <- call_total []
      (UpdateFromUser env (newProfile (User_ID user) (Key key)) (me_User meRes)) ;;
    db (EvSave profile) (db_Save env profile) ;;
    ret {| pw_Profile := formatProfile profile; pw_Cookie := snd kc |}.

(** profile.go:150-180 *)
Definition LoginWithAPIKey (params : ProfileLoginWithAPIKeyParams)
    : H ProfileLoginWithAPIKeyResult :=
  if String.eqb (APIKey params) "" then fail (New "apiKey cannot be empty")
  else
    client <- call (EvKeyClient (APIKey params)) (rc_KeyClient env (APIKey params)) ;;
    meRes <- call EvGetMe (GetMe client) ;;
    user <- deref (me_User meRes) ;;
    profile <- call_total []
      (UpdateFromUser env (newProfile (User_ID user) (APIKey params)) (me_User meRes)) ;;
    db (EvSave profile) (db_Save env profile) ;;
    ret {| ak_Profile := formatProfile profile |}.

(** profile.go:182-210.  The check of [err] at lines 195-197 follows a
    successful [GetMe] and never fires. *)
Definition UseSavedLogin (params : ProfileUseSavedLoginParams)
    : H ProfileUseSavedLoginResult :=
  pc <- call_total [EvProfileClient (saved_ProfileID params)]
          (rc_ProfileClient env (saved_ProfileID params)) ;;
  emit (EvOpf "Validating credentials...") ;;
  meRes <- call EvGetMe (GetMe (snd pc)) ;;
  profile <- call_total [] (UpdateFromUser env (fst pc) (me_User meRes)) ;;
  db (EvSave profile) (db_Save env profile) ;;
  emit (EvOpf "Logged in!") ;;
  ret {| sl_Profile := formatProfile profile |}.

(** profile.go:212-232 *)
Definition Forget (params : ProfileForgetParams) : H ProfileForgetResult :=
  if Z.eqb (forget_ProfileID params) 0 then fail (New "profileId must be set")
  else
    emit (EvProfileByID (forget_ProfileID params)) ;;
    match models_ProfileByID env (forget_ProfileID params) with
    | Some profile =>
        db (EvDelete profile) (db_Delete env profile) ;;
        ret {| Success := true |}
    | None => ret {| Success := false |}
    end.

End Handlers.

(** ** What a trace contains *)

Definition isLogin (ev : Event) : bool :=
  match ev with EvLoginWithPassword _ => true | _ => false end.
Definition isCaptcha (ev : Event) : bool :=
  match ev with EvRequestCaptcha _ => true | _ => false end.
Definition isTOTP (ev : Event) : bool :=
  match ev with EvRequestTOTP => true | _ => false end.
Definition isKeyClient (ev : Event) : bool :=
  match ev with EvKeyClient _ => true | _ => false end.
Definition isDatabase (ev : Event) : bool :=
  match ev with
  | EvFind | EvSave _ | EvProfileByID _ | EvDelete _ => true
  | _ => false
  end.
Definition count (f : Event -> bool) (d : list Event) : nat :=
  List.length (filter f d).

(** The profiles handed to [Save], in order. *)
Fixpoint saves (d : list Event) : list models_Profile :=
  match d with
  | [] => []
  | EvSave p :: d' => p :: saves d'
  | _ :: d' => saves d'
  end.

(** The profiles handed to [Delete], in order. *)
Fixpoint deletes (d : list Event) : list models_Profile :=
  match d with
  | [] => []
  | EvDelete p :: d' => p :: deletes d'
  | _ :: d' => deletes d'
  end.

(** The three requests that log in, and the profile each one answers
    with. *)
Inductive Login :=
| ByPassword (params : ProfileLoginWithPasswordParams)
| ByAPIKey (params : ProfileLoginWithAPIKeyParams)
| BySavedLogin (params : ProfileUseSavedLoginParams).

Definition answer {A B} (f : A -> B) (m : H A) : H B :=
  fun t =>
    match m t with
    | (Returns a, t') => (Returns (f a), t')
    | (Fails e, t') => (Fails e, t')
    | (Panics, t') => (Panics, t')
    end.

Definition login (env : Env) (l : Login) : H buse_Profile :=
  match l with
  | ByPassword params => answer pw_Profile (LoginWithPassword env params)
  | ByAPIKey params => answer ak_Profile (LoginWithAPIKey env params)
  | BySavedLogin params => answer sl_Profile (UseSavedLogin env params)
  end.

(** Parameters refused by the checks at the head of a handler. *)
Definition refused (l : Login) : bool :=
  match l with
  | ByPassword params =>
      String.eqb (Username params) "" || String.eqb (Password params) ""
  | ByAPIKey params => String.eqb (APIKey params) ""
  | BySavedLogin _ => false
  end.

(** The user's answer to a prompt was empty. *)
Definition emptyAnswer (env : Env) (ev : Event) : Prop :=
  match ev with
  | EvRequestCaptcha p =>
      exists a, RequestCaptcha env p = inr a /\ RecaptchaResponse a = ""
  | EvRequestTOTP =>
      exists a, RequestTOTP env = inr a /\ totp_Code a = ""
  | _ => False
  end.

End profile.

(** ** Concrete collaborators, for running the model *)

Definition okClient : Client :=
  {| NewDownloadSession := fun _ => Ok "session-1";
     FindUpgrade := fun _ => Err (Foreign "no upgrade path") |}.

Definition zipManager : Manager :=
  {| Install := fun _ _ => Ok {| Files := ["game.exe"; "data.pak"] |} |}.

(** An environment in which every call succeeds, given: whether the
    operation is cancelled, the receipt on disk, the API client, the
    probe and the manager registry. *)
Definition demoEnv (done : CallSite -> bool) (receipt : option Receipt)
    (client : Client) (probe : CallSite -> File -> outcome InstallerInfo)
    (managers : InstallerType -> option Manager) : Env :=
  {| StageFolder := "/stage";
     ctxDone := done;
     LoadContext := fun _ => Ok tt;
     Retire := Ok tt;
     ClientFromCredentials := fun _ => Ok client;
     ReadReceipt := fun _ => Ok receipt;
     sourceURL := fun _ _ _ => "itchfs:///upload/1/download";
     UploadIsProbablyExternal := fun _ => false;
     eosOpen := fun _ u => Ok {| file_location := u |};
     osOpen := fun _ u => Ok {| file_location := u |};
     Stat := fun _ f => Ok {| Name := file_location f; Size := 10 |};
     Seek := fun _ => Ok tt;
     DownloadInstallSource := fun _ _ => Ok tt;
     osStat := fun _ => Err (Foreign "no such file");
     MkdirAll := fun _ => Ok tt;
     RemoveAll := fun _ => Ok tt;
     Rename := fun _ _ => Ok tt;
     Join := fun l => String.concat "/" l;
     Base := fun s => s;
     Dir := fun s => s;
     TaskStartedNotify := fun _ _ => Ok tt;
     TaskSucceededNotify := fun _ _ => Ok tt;
     GetInstallerInfo := probe;
     IsWindowsInstaller := fun t =>
       match t with InstallerTypeOther _ => true | _ => false end;
     GetManager := managers;
     AssessDiskUsage := fun _ _ _ _ => Ok tt;
     heal := fun _ => Ok tt;
     commitInstall := fun _ => Ok tt |}.

Definition probeAs (t : InstallerType) : CallSite -> File -> outcome InstallerInfo :=
  fun _ _ => Ok {| Type_ := t |}.

(** A quiet environment: no receipt, the source probes as an archive. *)
Definition baseEnv : Env :=
  demoEnv (fun _ => false) None okClient (probeAs InstallerTypeArchive)
          (fun _ => Some zipManager).

(** The operation was cancelled. *)
Definition cancelledEnv : Env :=
  demoEnv (fun _ => true) None okClient (probeAs InstallerTypeArchive)
          (fun _ => Some zipManager).

Definition upload1 : Upload :=
  {| Upload_ID := 1; Upload_Filename := "game.zip"; Upload_Size := 2097152 |}.

Definition baseParams : InstallParams :=
  {| Game_ := {| Game_ID := 7 |};
     InstallFolder := "/games/g";
     Upload_ := Some upload1;
     Build_ := Some {| Build_ID := 9 |};
     Credentials := {| Server := "https://itch.io"; APIKey := "k"; DownloadKey := 0 |};
     IgnoreInstallers := false;
     NoCave := true;
     CaveID := "";
     InstallFolderName := "g";
     InstallLocationID := "" |}.

Definition freshWorld : World :=
  {| istate := zeroState; store := None; trace := [] |}.

(** A task that only returns. *)
Definition idleTask : InstallPrepareResult -> M unit := fun _ => ret tt.

Definition taskEvents (d : list Event) : list InstallPrepareResult :=
  flat_map (fun ev => match ev with EvTask r => [r] | _ => [] end) d.

Definition stagePP : InstallPerformParams := {| StagingFolder := "/stage" |}.

(** A record left by an interrupted run in which everything up to the
    first install was done. *)
Definition resumedState : InstallSubcontextState :=
  {| DownloadSessionId := "session-0";
     IsAvailableLocally := true;
     InstallerInfo_ := Some {| Type_ := InstallerTypeArchive |};
     SecondInstallerInfo := None;
     FirstInstallResult := Some {| Files := ["game.exe"; "data.pak"] |} |}.

Definition resumedWorld : World :=
  {| istate := zeroState; store := Some resumedState; trace := [] |}.

(** A record whose installer info is of type unknown. *)
Definition staleState : InstallSubcontextState :=
  {| DownloadSessionId := "session-0";
     IsAvailableLocally := false;
     InstallerInfo_ := Some {| Type_ := InstallerTypeUnknown |};
     SecondInstallerInfo := None;
     FirstInstallResult := None |}.

Definition staleWorld : World :=
  {| istate := zeroState; store := Some staleState; trace := [] |}.

(** Receipts of an earlier install of [upload1]. *)
Definition receiptAt (build : Z) : Receipt :=
  {| Receipt_Upload := Some upload1;
     Receipt_Build := Some {| Build_ID := build |};
     Receipt_Files := ["game.exe"; "data.pak"] |}.

(** A client whose upgrade path from build 5 adds up to the size of
    [upload1] exactly. *)
Definition tieClient : Client :=
  {| NewDownloadSession := fun _ => Ok "session-1";
     FindUpgrade := fun _ =>
       Ok {| UpgradePath :=
               [ {| Item_ID := 5; PatchSize := 4096 |};
                 {| Item_ID := 7; PatchSize := 1000000 |};
                 {| Item_ID := 9; PatchSize := 1097152 |} ] |} |}.

Definition receiptEnv (build : Z) (client : Client) : Env :=
  demoEnv (fun _ => false) (Some (receiptAt build)) client
          (probeAs InstallerTypeArchive) (fun _ => Some zipManager).

(** A manager that needs a local file: it fails with [ErrNeedLocal] on
    the first call and succeeds on the re-invocation. *)
Definition localOnlyManager : Manager :=
  {| Install := fun site _ =>
       match site with
       | SiteFirst => Err ErrNeedLocal
       | _ => Ok {| Files := ["game.exe"; "data.pak"] |}
       end |}.

Definition sourceFile : File := {| file_location := "itchfs:///upload/1/download" |}.

Definition sourceMIP : ManagerInstallParams :=
  {| MIP_File := sourceFile;
     MIP_InstallerInfo := Some {| Type_ := InstallerTypeArchive |};
     MIP_StageFolderPath := "/stage";
     MIP_InstallFolderPath := "/games/g";
     MIP_ReceiptIn := None |}.

(** A manager that leaves a single file, and the manager of the nested
    installer found in it. *)
Definition wrapperManager : Manager :=
  {| Install := fun _ _ => Ok {| Files := ["setup.exe"] |} |}.

Definition nsisManager : Manager :=
  {| Install := fun _ _ => Ok {| Files := ["game.exe"; "data.pak"] |} |}.

(** The source is an archive holding one file, which probes as an
    installer of type "nsis". *)
Definition nestedEnv : Env :=
  demoEnv (fun _ => false) None okClient
          (fun site _ => match site with
                         | SiteSecondProbe => Ok {| Type_ := InstallerTypeOther "nsis" |}
                         | _ => Ok {| Type_ := InstallerTypeArchive |}
                         end)
          (fun t => match t with
                    | InstallerTypeOther _ => Some nsisManager
                    | _ => Some wrapperManager
                    end).

(** The source probes as unsupported. *)
Definition unsupportedEnv : Env :=
  demoEnv (fun _ => false) None okClient (probeAs InstallerTypeUnsupported)
          (fun _ => Some zipManager).

Definition ignoreParams : InstallParams :=
  {| Game_ := Game_ baseParams;
     InstallFolder := InstallFolder baseParams;
     Upload_ := Upload_ baseParams;
     Build_ := Build_ baseParams;
     Credentials := Credentials baseParams;
     IgnoreInstallers := true;
     NoCave := NoCave baseParams;
     CaveID := CaveID baseParams;
     InstallFolderName := InstallFolderName baseParams;
     InstallLocationID := InstallLocationID baseParams |}.

(** The world in which a first run in [unsupportedEnv] reaches the check. *)
Definition checkWorld : World :=
  snd ((preparePrelude unsupportedEnv baseParams ;;
        call (EvOpen "itchfs:///upload/1/download") (Ok sourceFile) ;;
        ensureInstallerInfo unsupportedEnv baseParams None sourceFile)%go
         freshWorld).

(** An external upload: no build, and the upload looks external. *)
Definition externalParams : InstallParams :=
  {| Game_ := Game_ baseParams;
     InstallFolder := InstallFolder baseParams;
     Upload_ := Upload_ baseParams;
     Build_ := None;
     Credentials := Credentials baseParams;
     IgnoreInstallers := false;
     NoCave := NoCave baseParams;
     CaveID := CaveID baseParams;
     InstallFolderName := InstallFolderName baseParams;
     InstallLocationID := InstallLocationID baseParams |}.

Definition externalEnv : Env :=
  {| StageFolder := StageFolder baseEnv;
     ctxDone := ctxDone baseEnv;
     LoadContext := LoadContext baseEnv;
     Retire := Retire baseEnv;
     ClientFromCredentials := ClientFromCredentials baseEnv;
     ReadReceipt := ReadReceipt baseEnv;
     sourceURL := sourceURL baseEnv;
     UploadIsProbablyExternal := fun _ => true;
     eosOpen := eosOpen baseEnv;
     osOpen := osOpen baseEnv;
     Stat := Stat baseEnv;
     Seek := Seek baseEnv;
     DownloadInstallSource := DownloadInstallSource baseEnv;
     osStat := osStat baseEnv;
     MkdirAll := MkdirAll baseEnv;
     RemoveAll := RemoveAll baseEnv;
     Rename := Rename baseEnv;
     Join := Join baseEnv;
     Base := Base baseEnv;
     Dir := Dir baseEnv;
     TaskStartedNotify := TaskStartedNotify baseEnv;
     TaskSucceededNotify := TaskSucceededNotify baseEnv;
     GetInstallerInfo := GetInstallerInfo baseEnv;
     IsWindowsInstaller := IsWindowsInstaller baseEnv;
     GetManager := GetManager baseEnv;
     AssessDiskUsage := AssessDiskUsage baseEnv;
     heal := heal baseEnv;
     commitInstall := commitInstall baseEnv |}.

(** A result as the install path hands it to the task. *)
Definition installResultIn : InstallPrepareResult :=
  {| File_ := Some sourceFile; ReceiptIn := None;
     Strategy := InstallPerformStrategyNone |}.

(** The substate once the installer info is known. *)
Definition probedWorld : World :=
  {| istate := with_InstallerInfo {| Type_ := InstallerTypeArchive |}
                 (with_DownloadSessionId "session-1" zeroState);
     store := Some (with_InstallerInfo {| Type_ := InstallerTypeArchive |}
                      (with_DownloadSessionId "session-1" zeroState));
     trace := [] |}.

(** The copy to disk fails. *)
Definition brokenDiskEnv : Env :=
  {| StageFolder := StageFolder baseEnv;
     ctxDone := ctxDone baseEnv;
     LoadContext := LoadContext baseEnv;
     Retire := Retire baseEnv;
     ClientFromCredentials := ClientFromCredentials baseEnv;
     ReadReceipt := ReadReceipt baseEnv;
     sourceURL := sourceURL baseEnv;
     UploadIsProbablyExternal := UploadIsProbablyExternal baseEnv;
     eosOpen := eosOpen baseEnv;
     osOpen := osOpen baseEnv;
     Stat := Stat baseEnv;
     Seek := Seek baseEnv;
     DownloadInstallSource := fun _ _ => Err (Foreign "disk full");
     osStat := osStat baseEnv;
     MkdirAll := MkdirAll baseEnv;
     RemoveAll := RemoveAll baseEnv;
     Rename := Rename baseEnv;
     Join := Join baseEnv;
     Base := Base baseEnv;
     Dir := Dir baseEnv;
     TaskStartedNotify := TaskStartedNotify baseEnv;
     TaskSucceededNotify := TaskSucceededNotify baseEnv;
     GetInstallerInfo := fun site f =>
       match site with
       | SiteSecondProbe => Err (Foreign "unreadable")
       | _ => GetInstallerInfo baseEnv site f
       end;
     IsWindowsInstaller := IsWindowsInstaller baseEnv;
     GetManager := GetManager baseEnv;
     AssessDiskUsage := AssessDiskUsage baseEnv;
     heal := heal baseEnv;
     commitInstall := commitInstall baseEnv |}.

(** The receipt cannot be read. *)
Definition unreadableEnv : Env :=
  {| StageFolder := StageFolder baseEnv;
     ctxDone := ctxDone baseEnv;
     LoadContext := LoadContext baseEnv;
     Retire := Retire baseEnv;
     ClientFromCredentials := ClientFromCredentials baseEnv;
     ReadReceipt := fun _ => Err (Foreign "corrupt receipt");
     sourceURL := sourceURL baseEnv;
     UploadIsProbablyExternal := UploadIsProbablyExternal baseEnv;
     eosOpen := eosOpen baseEnv;
     osOpen := osOpen baseEnv;
     Stat := Stat baseEnv;
     Seek := Seek baseEnv;
     DownloadInstallSource := DownloadInstallSource baseEnv;
     osStat := osStat baseEnv;
     MkdirAll := MkdirAll baseEnv;
     RemoveAll := RemoveAll baseEnv;
     Rename := Rename baseEnv;
     Join := Join baseEnv;
     Base := Base baseEnv;
     Dir := Dir baseEnv;
     TaskStartedNotify := TaskStartedNotify baseEnv;
     TaskSucceededNotify := TaskSucceededNotify baseEnv;
     GetInstallerInfo := GetInstallerInfo baseEnv;
     IsWindowsInstaller := IsWindowsInstaller baseEnv;
     GetManager := GetManager baseEnv;
     AssessDiskUsage := AssessDiskUsage baseEnv;
     heal := heal baseEnv;
     commitInstall := commitInstall baseEnv |}.

(** No upload is given. *)
Definition noUploadParams : InstallParams :=
  {| Game_ := Game_ baseParams;
     InstallFolder := InstallFolder baseParams;
     Upload_ := None;
     Build_ := Build_ baseParams;
     Credentials := Credentials baseParams;
     IgnoreInstallers := false;
     NoCave := NoCave baseParams;
     CaveID := CaveID baseParams;
     InstallFolderName := InstallFolderName baseParams;
     InstallLocationID := InstallLocationID baseParams |}.

(** ** Profile endpoints: an account with and without two-factor login *)

Definition alice : profile.User :=
  {| profile.User_ID := 41;
     profile.User_Username := "alice";
     profile.User_DisplayName := "Alice";
     profile.User_Developer := false;
     profile.User_PressUser := false;
     profile.User_URL := "https://alice.itch.io";
     profile.User_CoverURL := "";
     profile.User_StillCoverURL := "" |}.

Definition aliceClient : profile.Client :=
  {| profile.GetMe := inr {| profile.me_User := Some alice |} |}.

Definition aliceLogin : profile.ProfileLoginWithPasswordParams :=
  {| profile.Username := "alice"; profile.Password := "hunter2" |}.

(** One-factor login: the answer carries the key. *)
Definition plainRoot : profile.RootClient :=
  {| profile.rc_LoginWithPassword := fun _ =>
       inr {| profile.RecaptchaNeeded := false;
              profile.login_RecaptchaURL := "";
              profile.Token := "";
              profile.login_Key := Some {| profile.Key := "key-1" |};
              profile.login_Cookie := [("itchio", "c1")] |};
     profile.rc_TOTPVerify := fun _ => inl (profile.Message "not enrolled") |}.

(** A captcha on the first attempt, then a token to be verified. *)
Definition guardedRoot : profile.RootClient :=
  {| profile.rc_LoginWithPassword := fun p =>
       if String.eqb (profile.login_RecaptchaResponse p) "" then
         inr {| profile.RecaptchaNeeded := true;
                profile.login_RecaptchaURL := "https://itch.io/captcha";
                profile.Token := "";
                profile.login_Key := None;
                profile.login_Cookie := [] |}
       else
         inr {| profile.RecaptchaNeeded := false;
                profile.login_RecaptchaURL := "";
                profile.Token := "tok";
                profile.login_Key := None;
                profile.login_Cookie := [] |};
     profile.rc_TOTPVerify := fun p =>
       if String.eqb (profile.verify_Code p) "123456" then
         inr {| profile.verify_Key := Some {| profile.Key := "key-2" |};
                profile.verify_Cookie := [("itchio", "c2")] |}
       else inl (profile.Message "invalid code") |}.

Definition storedAlice : profile.models_Profile :=
  {| profile.mp_ID := 41;
     profile.mp_APIKey := "key-0";
     profile.mp_LastConnected := 3;
     profile.mp_User := Some alice |}.

(** The environment of a request: the root client, and what the user
    answers to a captcha and to a TOTP prompt. *)
Definition profileEnv (root : profile.RootClient) (captcha code : string)
    : profile.Env :=
  {| profile.rc_RootClient := inr root;
     profile.rc_KeyClient := fun _ => inr aliceClient;
     profile.rc_ProfileClient := fun id =>
       if Z.eqb id 41 then Some (storedAlice, aliceClient) else None;
     profile.RequestCaptcha := fun _ =>
       inr {| profile.RecaptchaResponse := captcha |};
     profile.RequestTOTP := inr {| profile.totp_Code := code |};
     profile.UpdateFromUser := fun p u =>
       match u with
       | Some _ =>
           Some {| profile.mp_ID := profile.mp_ID p;
                   profile.mp_APIKey := profile.mp_APIKey p;
                   profile.mp_LastConnected := 9;
                   profile.mp_User := u |}
       | None => None
       end;
     profile.db_Find := inr [storedAlice];
     profile.db_Save := fun _ => None;
     profile.models_ProfileByID := fun id =>
       if Z.eqb id 41 then Some storedAlice else None;
     profile.db_Delete := fun _ => None |}.

(** An answer with neither a token nor a key. *)
Definition keylessRoot : profile.RootClient :=
  {| profile.rc_LoginWithPassword := fun _ =>
       inr {| profile.RecaptchaNeeded := false;
              profile.login_RecaptchaURL := "";
              profile.Token := "";
              profile.login_Key := None;
              profile.login_Cookie := [] |};
     profile.rc_TOTPVerify := fun _ => inl (profile.Message "not enrolled") |}.

(** The user solves the captcha and enters the right code. *)
Definition guardedEnv : profile.Env := profileEnv guardedRoot "solved" "123456".

(** The user solves the captcha and leaves the code empty. *)
Definition hesitantEnv : profile.Env := profileEnv guardedRoot "solved" "".

Definition firstAttempt : profile.LoginWithPasswordParams :=
  {| profile.login_Username := "alice";
     profile.login_Password := "hunter2";
     profile.login_RecaptchaResponse := "" |}.

Definition secondAttempt : profile.LoginWithPasswordParams :=
  {| profile.login_Username := "alice";
     profile.login_Password := "hunter2";
     profile.login_RecaptchaResponse := "solved" |}.

Definition savedAlice (key : string) : profile.models_Profile :=
  {| profile.mp_ID := 41;
     profile.mp_APIKey := key;
     profile.mp_LastConnected := 9;
     profile.mp_User := Some alice |}.

(** The calls of a password login up to the TOTP prompt, and those of
    the whole login. *)
Definition promptedCalls : list profile.Event :=
  [ profile.EvRootClient;
    profile.EvLoginWithPassword firstAttempt;
    profile.EvRequestCaptcha {| profile.RecaptchaURL := "https://itch.io/captcha" |};
    profile.EvLoginWithPassword secondAttempt;
    profile.EvRequestTOTP ].

Definition guardedCalls : list profile.Event :=
  promptedCalls ++
  [ profile.EvTOTPVerify
      {| profile.verify_Token := "tok"; profile.verify_Code := "123456" |};
    profile.EvKeyClient "key-2";
    profile.EvGetMe;
    profile.EvSave (savedAlice "key-2") ].

Definition guardedResult : profile.ProfileLoginWithPasswordResult :=
  {| profile.pw_Profile := profile.formatProfile (savedAlice "key-2");
     profile.pw_Cookie := [("itchio", "c2")] |}.

Definition forgetAlice : profile.ProfileForgetParams :=
  {| profile.forget_ProfileID := 41 |}.

Definition useAlice : profile.ProfileUseSavedLoginParams :=
  {| profile.saved_ProfileID := 41 |}.

Definition savedLoginCalls : list profile.Event :=
  [ profile.EvProfileClient 41;
    profile.EvOpf "Validating credentials...";
    profile.EvGetMe;
    profile.EvSave (savedAlice "key-0");
    profile.EvOpf "Logged in!" ].

(** * Properties *)

(** ** The relation [R] is a preorder, and the primitives respect it *)

Lemma clean_app X d1 d2 :
  clean X (d1 ++ d2) = clean X d1 && clean X d2.
Proof. unfold clean. apply forallb_app. Qed.

Lemma R_refl X w : R X w w.
Proof.
  exists []. split.
  - now rewrite app_nil_r.
  - intros H. split; [destruct X; simpl in *; tauto | reflexivity].
Qed.

Lemma held_keeps X w w' : held X w -> keeps X w w' -> held X w'.
Proof.
  destruct X; simpl; intros H K; auto.
  - now rewrite K.
  - unfold usableInfo in *. now rewrite K.
  - now rewrite K.
  - now rewrite K.
Qed.

Lemma keeps_trans X w1 w2 w3 :
  keeps X w1 w2 -> keeps X w2 w3 -> keeps X w1 w3.
Proof. destruct X; simpl; intros; auto; congruence. Qed.

Lemma R_trans X w1 w2 w3 : R X w1 w2 -> R X w2 w3 -> R X w1 w3.
Proof.
  intros [d1 [T1 H1]] [d2 [T2 H2]].
  exists (d1 ++ d2). split.
  - now rewrite T2, T1, app_assoc.
  - intros H. destruct (H1 H) as [K1 C1].
    destruct (H2 (held_keeps _ _ _ H K1)) as [K2 C2].
    split; [eapply keeps_trans; eauto|].
    now rewrite clean_app, C1, C2.
Qed.

(** Without the premise of an aspect only the growth of the trace is
    left to show. *)
Lemma R_vacuous X w w' : ~ held X w -> R ATrace w w' -> R X w w'.
Proof.
  intros N [d [T _]]. exists d. split; [exact T | tauto].
Qed.

Lemma R_record X ev w : bad X ev = false -> R X w (record ev w).
Proof.
  intros B. exists [ev]. split; [reflexivity|].
  intros H. split.
  - destruct X; simpl in *; auto.
  - simpl. now rewrite B.
Qed.

Lemma bad_close X f : bad X (EvClose f) = false.
Proof. reflexivity. Qed.

Section Respect.

Variable X : Aspect.

Lemma respects_ret {A} (a : A) : respects X (ret a).
Proof. intros w r w' E. inversion E; subst. apply R_refl. Qed.

Lemma respects_fail {A} e : respects X (@fail A e).
Proof. intros w r w' E. inversion E; subst. apply R_refl. Qed.

Lemma respects_panic {A} : respects X (@panic A).
Proof. intros w r w' E. inversion E; subst. apply R_refl. Qed.

Lemma respects_get : respects X get_istate.
Proof. intros w r w' E. inversion E; subst. apply R_refl. Qed.

Lemma respects_bind {A B} (m : M A) (f : A -> M B) :
  respects X m -> (forall a, respects X (f a)) -> respects X (bind m f).
Proof.
  intros Hm Hf w r w' E. unfold bind in E.
  destruct (m w) as [[a|e|] w1] eqn:Em.
  - eapply R_trans; [eapply Hm; eauto | eapply Hf; eauto].
  - inversion E; subst. eapply Hm; eauto.
  - inversion E; subst. eapply Hm; eauto.
Qed.

Lemma respects_with_stack {A} (m : M A) :
  respects X m -> respects X (with_stack m).
Proof.
  intros Hm w r w' E. unfold with_stack in E.
  destruct (m w) as [[a|e|] w1] eqn:Em; inversion E; subst; eapply Hm; eauto.
Qed.

Lemma respects_with_message {A} (m : M A) msg :
  respects X m -> respects X (with_message m msg).
Proof.
  intros Hm w r w' E. unfold with_message in E.
  destruct (m w) as [[a|e|] w1] eqn:Em; inversion E; subst; eapply Hm; eauto.
Qed.

Lemma respects_attempt {A} (m : M A) :
  respects X m -> respects X (attempt m).
Proof.
  intros Hm w r w' E. unfold attempt in E.
  destruct (m w) as [[a|e|] w1] eqn:Em; inversion E; subst; eapply Hm; eauto.
Qed.

Lemma respects_emit ev : bad X ev = false -> respects X (emit ev).
Proof. intros B w r w' E. inversion E; subst. now apply R_record. Qed.

Lemma respects_call {A} ev (a : outcome A) :
  bad X ev = false -> respects X (call ev a).
Proof. intros B w r w' E. inversion E; subst. now apply R_record. Qed.

Lemma respects_log l s : bad X (EvLog l s) = false -> respects X (log l s).
Proof. apply respects_emit. Qed.

Lemma respects_defer_close {A} f (m : M A) :
  respects X m -> respects X (defer_close f m).
Proof.
  intros Hm w r w' E. unfold defer_close in E.
  destruct (m w) as [r1 w1] eqn:Em. inversion E; subst.
  eapply R_trans; [eapply Hm; eauto | apply R_record, bad_close].
Qed.

Lemma respects_assign f :
  (forall w, held X w -> keeps X w (saved (update f w))) ->
  respects X (assign_and_save f).
Proof.
  intros K w r w' E. inversion E; subst.
  exists [EvSave (f (istate w))]. split; [reflexivity|].
  intros H. split; [now apply K | reflexivity].
Qed.

End Respect.

(** A step that checks a field first: when the aspect's premise holds the
    step is the skipping branch, otherwise there is nothing to keep. *)
Lemma respects_guarded {A} X (m : M A) :
  (forall w, held X w \/ ~ held X w) ->
  respects ATrace m ->
  (forall w r w', held X w -> m w = (r, w') -> R X w w') ->
  respects X m.
Proof.
  intros D T G w r w' E. destruct (D w) as [H|N].
  - eapply G; eauto.
  - apply R_vacuous; [exact N | eapply T; eauto].
Qed.

(** [bind] where the continuation may rely on a property of the value. *)
Lemma respects_bind_val {A B} X (P : A -> Prop) (m : M A) (f : A -> M B) :
  respects X m ->
  (forall w a w', m w = (Ok a, w') -> P a) ->
  (forall a, P a -> respects X (f a)) ->
  respects X (bind m f).
Proof.
  intros Hm HP Hf w r w' E. unfold bind in E.
  destruct (m w) as [[a|e|] w1] eqn:Em.
  - eapply R_trans; [eapply Hm; eauto | eapply Hf; eauto].
  - inversion E; subst. eapply Hm; eauto.
  - inversion E; subst. eapply Hm; eauto.
Qed.

Lemma held_dec X w : X <> AStore -> held X w \/ ~ held X w.
Proof.
  intros NS. destruct X; simpl; try tauto;
    match goal with
    | |- ?b = _ \/ _ => destruct b; auto; right; discriminate
    end.
Qed.

Create HintDb resp.

Ltac resp_step :=
  match goal with
  | |- respects _ (bind _ _) => apply respects_bind; [ | intros ? ]
  | |- respects _ (ret _) => apply respects_ret
  | |- respects _ (fail _) => apply respects_fail
  | |- respects _ panic => apply respects_panic
  | |- respects _ get_istate => apply respects_get
  | |- respects _ (with_stack _) => apply respects_with_stack
  | |- respects _ (with_message _ _) => apply respects_with_message
  | |- respects _ (attempt _) => apply respects_attempt
  | |- respects _ (defer_close _ _) => apply respects_defer_close
  | |- respects _ (log _ _) => apply respects_log; reflexivity
  | |- respects _ (emit _) => apply respects_emit; solve [reflexivity | auto]
  | |- respects _ (call _ _) => apply respects_call; solve [reflexivity | auto]
  | |- respects _ (assign_and_save _) =>
      apply respects_assign; intros ? ?; simpl in *; solve [auto | congruence]
  | |- respects _ (if ?b then _ else _) => destruct b eqn:?
  | |- respects _ (match ?x with _ => _ end) => destruct x eqn:?
  | |- respects _ _ => solve [auto with resp]
  | |- respects _ _ => progress cbv zeta
  end.

Ltac resp := repeat resp_step.

Section RespectOperate.

Variable env : Env.
Variable params : InstallParams.

Lemma respects_ensureLocal X site file destPath :
  respects X (ensureLocal env site file destPath).
Proof.
  assert (T : respects ATrace (ensureLocal env site file destPath))
    by (unfold ensureLocal; resp).
  destruct X; try solve [unfold ensureLocal; resp].
  apply respects_guarded; [intros; now apply held_dec | exact T |].
  intros w r w' H E. simpl in H.
  unfold ensureLocal, bind, get_istate in E. rewrite H in E.
  refine (respects_log _ _ _ _ _ _ _ E); reflexivity.
Qed.
Hint Resolve respects_ensureLocal : resp.

Lemma respects_doForceLocal X site file :
  respects X (doForceLocal env site file).
Proof. unfold doForceLocal. resp. Qed.
Hint Resolve respects_doForceLocal : resp.

Lemma respects_ensureDownloadSession X client :
  respects X (ensureDownloadSession params client).
Proof.
  assert (T : respects ATrace (ensureDownloadSession params client))
    by (unfold ensureDownloadSession; resp).
  destruct X; try solve [unfold ensureDownloadSession; resp].
  apply respects_guarded; [intros; now apply held_dec | exact T |].
  intros w r w' H E. simpl in H.
  unfold ensureDownloadSession, bind, get_istate in E. rewrite H in E.
  refine (respects_log _ _ _ _ _ _ _ E); reflexivity.
Qed.
Hint Resolve respects_ensureDownloadSession : resp.

Lemma respects_preparePrelude X : respects X (preparePrelude env params).
Proof. unfold preparePrelude. resp. Qed.
Hint Resolve respects_preparePrelude : resp.

Lemma respects_upgradeLoop X oldID items total :
  respects X (upgradeLoop oldID items total).
Proof.
  revert total. induction items as [|item rest IH]; intros total; simpl.
  - apply respects_ret.
  - resp.
Qed.
Hint Resolve respects_upgradeLoop : resp.

Lemma respects_ensureInstallerInfo X receiptIn file :
  (X = ASupported -> IgnoreInstallers params = true) ->
  respects X (ensureInstallerInfo env params receiptIn file).
Proof.
  intros HI.
  assert (T : respects ATrace (ensureInstallerInfo env params receiptIn file))
    by (unfold ensureInstallerInfo; resp).
  destruct X; try solve [unfold ensureInstallerInfo; resp].
  - (* AInfo *)
    apply respects_guarded; [intros; now apply held_dec | exact T |].
    intros w r w' H E. simpl in H. unfold usableInfo in H.
    unfold ensureInstallerInfo, bind, get_istate in E.
    destruct (InstallerInfo_ (istate w)) as [i|]; [|discriminate].
    destruct (InstallerType_eqb (Type_ i) InstallerTypeUnknown); [discriminate|].
    refine (respects_log _ _ _ _ _ _ _ E); reflexivity.
  - (* ASupported *)
    unfold ensureInstallerInfo. rewrite (HI eq_refl).
    apply respects_bind; [resp | intros st].
    match goal with |- respects _ (if ?b then _ else _) => destruct b end;
      [|resp].
    apply respects_bind; [resp | intros _].
    apply respects_bind; [resp | intros i].
    apply respects_bind; [resp | intros _].
    apply respects_bind_val
      with (P := fun a => Type_ a = InstallerTypeArchive
                          \/ Type_ a = InstallerTypeNaked).
    + resp.
    + intros w a w' E. unfold bind, log, emit, ret in E.
      destruct (Type_ i) eqn:Ti; inversion E; subst; simpl; auto.
    + intros a Pa. resp.
      apply respects_assign. intros w _. simpl. unfold supportedInfo. simpl.
      destruct Pa as [-> | ->]; reflexivity.
Qed.

Lemma respects_invoke X task res :
  X <> ANoTask -> (forall res, respects X (task res)) ->
  respects X (invoke task res).
Proof.
  intros NT task_ok.
  unfold invoke. apply respects_bind; [|intros; apply task_ok].
  apply respects_emit. destruct X; try reflexivity. congruence.
Qed.

Lemma respects_checkSupported X task res :
  X <> ANoTask -> (forall res, respects X (task res)) ->
  respects X (checkSupported res task).
Proof.
  intros NT task_ok.
  assert (I : forall Y, Y <> ANoTask -> (forall res, respects Y (task res)) ->
              respects Y (invoke task res))
    by (intros; now apply respects_invoke).
  destruct X;
    try solve [unfold checkSupported; resp; apply I; auto; discriminate].
  - (* ASupported *)
    apply respects_guarded; [intros; now apply held_dec | |].
    + unfold checkSupported. resp. apply I; [discriminate|].
      intros res' w r w' E. destruct (task_ok res' w r w' E) as [d [Td _]].
      exists d. split; [exact Td | intros []].
    + intros w r w' H E. simpl in H. unfold supportedInfo in H.
      unfold checkSupported in E. unfold bind at 1 in E. unfold get_istate in E.
      destruct (InstallerInfo_ (istate w)) as [i|].
      * destruct (Type_ i); try discriminate; simpl in E;
          revert E; apply I; auto.
      * inversion E; subst. apply R_refl.
Qed.

Section WithTask.

Variable X : Aspect.
Variable task : InstallTask.
Hypothesis X_task : X <> ANoTask.
Hypothesis X_ignore : X = ASupported -> IgnoreInstallers params = true.
Hypothesis task_ok : forall res, respects X (task res).

Lemma respects_prepareInstallerInfo receiptIn file res :
  respects X (prepareInstallerInfo env params receiptIn file res task).
Proof.
  unfold prepareInstallerInfo. apply respects_bind.
  - now apply respects_ensureInstallerInfo.
  - intros _. now apply respects_checkSupported.
Qed.
Hint Resolve respects_prepareInstallerInfo : resp.

Lemma respects_prepareSource allow receiptIn res :
  respects X (prepareSource env params allow receiptIn res task).
Proof. unfold prepareSource. resp. Qed.
Hint Resolve respects_prepareSource : resp.

Lemma respects_selectStrategy client receiptIn allow :
  X <> ANoUpgradeQuery ->
  respects X (selectStrategy env params client receiptIn allow task).
Proof.
  intros NQ.
  assert (Q : forall p, bad X (EvFindUpgrade p) = false)
    by (intros p; simpl; destruct X; try reflexivity; congruence).
  assert (I : forall res, respects X (invoke task res))
    by (intros; now apply respects_invoke).
  unfold selectStrategy. resp.
Qed.

Lemma respects_InstallPrepare allow :
  X <> ANoUpgradeQuery ->
  respects X (InstallPrepare env params allow task).
Proof.
  intros NQ. unfold InstallPrepare.
  apply respects_bind; [apply respects_preparePrelude|].
  intros p. now apply respects_selectStrategy.
Qed.

End WithTask.

Lemma respects_tryInstall X site name manager mip :
  (forall n f, bad X (EvInstall site n f) = false) ->
  respects X (tryInstall env site name manager mip).
Proof. intros B. unfold tryInstall. resp. Qed.

Lemma respects_firstInstall X name manager mip file :
  X <> ANoInstall ->
  respects X (firstInstall env name manager mip file).
Proof.
  intros NI.
  assert (T : respects ATrace (firstInstall env name manager mip file)).
  { unfold firstInstall. resp; apply respects_tryInstall; reflexivity. }
  destruct X;
    try solve [unfold firstInstall; resp;
               apply respects_tryInstall; reflexivity].
  - apply respects_guarded; [intros; now apply held_dec | exact T |].
    intros w r w' H E. simpl in H.
    unfold firstInstall in E. unfold bind at 1 in E. unfold get_istate in E.
    destruct (FirstInstallResult (istate w)) as [fr|]; [|discriminate].
    revert E. apply (respects_bind AFirst); [now apply respects_log|].
    intros; apply respects_ret.
  - congruence.
Qed.
Hint Resolve respects_firstInstall : resp.
Hint Extern 1 (_ <> _) => discriminate : resp.

Lemma respects_relocateNested X single singlePath :
  respects X (relocateNested env single singlePath).
Proof. unfold relocateNested. resp. Qed.
Hint Resolve respects_relocateNested : resp.

Lemma respects_nestedWith X mip first info single singlePath second :
  X <> ANoInstall ->
  respects X (nestedWith env mip first info single singlePath second).
Proof.
  intros NI. unfold nestedWith. resp. apply respects_tryInstall.
  intros; destruct X; try reflexivity; congruence.
Qed.
Hint Resolve respects_nestedWith : resp.

Lemma respects_nestedInstall X mip first info :
  X <> ANoInstall ->
  respects X (nestedInstall env params mip first info).
Proof.
  intros NI.
  assert (T : respects ATrace (nestedInstall env params mip first info))
    by (unfold nestedInstall; resp).
  destruct X; try solve [unfold nestedInstall; resp].
  apply respects_guarded; [intros; now apply held_dec | exact T |].
  intros w r w' H E. simpl in H.
  unfold nestedInstall in E.
  destruct (Files first) as [|single [|? ?]];
    try (eapply respects_ret; eauto; fail).
  revert E. apply (respects_bind ASecond); [now apply respects_log|]. intros _.
  apply respects_with_stack.
  intros w1 r1 w1' E1.
  assert (H1 : held ASecond w1 \/ ~ held ASecond w1) by (now apply held_dec).
  destruct H1 as [H1|N1].
  - simpl in H1. unfold bind at 1 in E1. unfold get_istate in E1.
    destruct (SecondInstallerInfo (istate w1)) as [s|]; [|discriminate].
    revert E1. apply (respects_bind ASecond); [now apply respects_log|].
    intros _. now apply respects_nestedWith.
  - apply R_vacuous; [exact N1|]. revert E1.
    match goal with
    | |- ?m _ = _ -> _ =>
        assert (T1 : respects ATrace m) by resp; apply T1
    end.
Qed.
Hint Resolve respects_nestedInstall : resp.

Lemma respects_installTask X res :
  X <> ANoInstall -> X <> ANoCommit ->
  respects X (installTask env params res).
Proof.
  intros NI NC.
  assert (C : forall p, bad X (EvCommitInstall p) = false)
    by (intros p; simpl; destruct X; try reflexivity; congruence).
  unfold installTask. resp.
Qed.

End RespectOperate.

#[export] Hint Resolve respects_ensureLocal respects_doForceLocal
  respects_ensureDownloadSession respects_preparePrelude
  respects_upgradeLoop respects_relocateNested : resp.

Lemma clean_In X d ev : clean X d = true -> In ev d -> bad X ev = false.
Proof.
  unfold clean. rewrite forallb_forall. intros C I.
  apply C in I. now destruct (bad X ev).
Qed.

Lemma respects_InstallPrepare_installTask env params X allow :
  X <> ANoTask -> X <> ANoUpgradeQuery -> X <> ANoInstall -> X <> ANoCommit ->
  (X = ASupported -> IgnoreInstallers params = true) ->
  respects X (InstallPrepare env params allow (installTask env params)).
Proof.
  intros. apply respects_InstallPrepare; auto.
  intros; now apply respects_installTask.
Qed.

Lemma doInstallPerform_no_Retire env params w r w' :
  doInstallPerform env params w = (r, w') ->
  exists d, trace w' = trace w ++ d /\ ~ In EvRetire d.
Proof.
  intros E. unfold doInstallPerform in E. unfold bind at 1 in E. simpl in E.
  apply (respects_InstallPrepare_installTask env params ANoRetire) in E;
    try discriminate.
  destruct E as [d [T H]]. destruct (H I) as [_ C]. simpl in T.
  exists (EvLoad :: d). split.
  - rewrite T, <- app_assoc. reflexivity.
  - intros [F | F]; [discriminate|].
    now apply (clean_In _ _ _ C) in F.
Qed.

(** ** C9 *)

(** C9.  [InstallPerform] calls [Retire] exactly in the runs in which
    [doInstallPerform] was reached and returned nil, and then after it;
    when [doInstallPerform] returns an error (a cancellation included)
    that error is returned, wrapped, and the world is the one
    [doInstallPerform] left: nothing is retired, the store is untouched. *)
Theorem InstallPerform_retires_only_after_success env params pp w r w' :
  InstallPerform env params pp w = (r, w') ->
  exists d, trace w' = trace w ++ d /\
    (In EvRetire d ->
       exists w1 d1,
         doInstallPerform env params (atPerform pp w) = (Ok tt, w1) /\
         trace w' = trace w1 ++ d1 /\ In EvRetire d1) /\
    (forall e w1,
       String.eqb (StagingFolder pp) "" = false ->
       LoadContext env (StagingFolder pp) = Ok tt ->
       doInstallPerform env params (atPerform pp w) = (Err e, w1) ->
       r = Err (WithStack e) /\ w' = w1 /\ store w' = store w1 /\
       ~ In EvRetire d).
Proof.
  intros E. unfold InstallPerform in E.
  destruct (String.eqb (StagingFolder pp) "") eqn:Es.
  { inversion E; subst. exists []. rewrite app_nil_r.
    repeat split; try easy. }
  unfold bind at 1 in E. unfold with_stack at 1 in E. unfold call in E.
  destruct (LoadContext env (StagingFolder pp)) as [[]|e0|] eqn:El.
  2,3: inversion E; subst; exists [EvLoadContext (StagingFolder pp)];
       split; [reflexivity|]; split;
       [intros [F|[]]; discriminate | intros; discriminate].
  unfold bind at 1 in E. unfold emit at 1 in E.
  change (record EvLoadMeta (record (EvLoadContext (StagingFolder pp)) w))
    with (atPerform pp w) in E.
  unfold bind at 1 in E. unfold with_stack at 1 in E.
  destruct (doInstallPerform env params (atPerform pp w)) as [r1 w1] eqn:Ed.
  destruct (doInstallPerform_no_Retire _ _ _ _ _ Ed) as [d1 [T1 N1]].
  assert (T1' : trace w1 = trace w ++
                 [EvLoadContext (StagingFolder pp); EvLoadMeta] ++ d1).
  { rewrite T1. unfold atPerform, record. simpl.
    now rewrite <- !app_assoc. }
  assert (N1' : ~ In EvRetire
                  ([EvLoadContext (StagingFolder pp); EvLoadMeta] ++ d1)).
  { intros [F|[F|F]]; try discriminate. now apply N1. }
  destruct r1 as [[]|e1|].
  - unfold bind, log, emit, with_stack, oc_Retire, ret in E. simpl in E.
    destruct (Retire env) as [[]|e2|] eqn:Er; inversion E; subst; clear E;
      simpl; rewrite T1';
      (exists (([EvLoadContext (StagingFolder pp); EvLoadMeta] ++ d1) ++
               [EvLog Infof "Install successful, retiring context"; EvRetire]);
       split; [now rewrite <- !app_assoc|]; split;
       [ intros _; exists w1,
           [EvLog Infof "Install successful, retiring context"; EvRetire];
         repeat split; simpl; auto;
         rewrite T1'; now rewrite <- !app_assoc
       | intros; discriminate ]).
  - inversion E; subst.
    exists ([EvLoadContext (StagingFolder pp); EvLoadMeta] ++ d1).
    split; [exact T1'|]. split; [intros F; now apply N1' in F|].
    intros e w2 _ _ E2. inversion E2; subst. auto.
  - inversion E; subst.
    exists ([EvLoadContext (StagingFolder pp); EvLoadMeta] ++ d1).
    split; [exact T1'|]. split; [intros F; now apply N1' in F|].
    intros; discriminate.
Qed.

Lemma InstallPerform_retires_only_after_success_witness :
  exists d,
    trace (snd (InstallPerform cancelledEnv baseParams stagePP freshWorld))
    = trace freshWorld ++ d /\ ~ In EvRetire d.
Proof.
  destruct (InstallPerform_retires_only_after_success
              cancelledEnv baseParams stagePP freshWorld _ _
              (surjective_pairing _))
    as [d [T [_ H]]].
  exists d. split; [exact T|].
  eapply H; [reflexivity | reflexivity | vm_compute; reflexivity].
Defined.

(** ** C8 *)

Lemma InstallerType_eqb_eq a b : InstallerType_eqb a b = true <-> a = b.
Proof.
  destruct a, b; simpl; split; intros H; try discriminate; try reflexivity.
  - apply String.eqb_eq in H. now subst.
  - inversion H. apply String.eqb_refl.
Qed.

Lemma InstallerType_eqb_neq a b : InstallerType_eqb a b = false <-> a <> b.
Proof.
  split.
  - intros H E. apply InstallerType_eqb_eq in E. congruence.
  - intros N. destruct (InstallerType_eqb a b) eqn:E; [|reflexivity].
    apply InstallerType_eqb_eq in E. contradiction.
Qed.

(** The world after [oc.Load(isub)] found the record [s]. *)
Lemma doInstallPerform_from_store env params X w s r w' :
  store w = Some s -> doInstallPerform env params w = (r, w') ->
  X <> ANoTask -> X <> ANoUpgradeQuery -> X <> ANoInstall -> X <> ANoCommit ->
  (X = ASupported -> IgnoreInstallers params = true) ->
  R X {| istate := s; store := Some s; trace := trace w ++ [EvLoad] |} w'.
Proof.
  intros S E. unfold doInstallPerform in E. unfold bind at 1 in E.
  unfold oc_Load in E. rewrite S in E. intros.
  eapply respects_InstallPrepare_installTask; eauto.
Qed.




(** ** C2, C3, C4: the strategy over the same upload *)

Lemma extend_extend w d1 d2 : extend (extend w d1) d2 = extend w (d1 ++ d2).
Proof. unfold extend. simpl. now rewrite app_assoc. Qed.

Lemma record_extend w ev : record ev w = extend w [ev].
Proof. reflexivity. Qed.

Lemma extend_nil w : extend w [] = w.
Proof. destruct w. unfold extend. simpl. now rewrite app_nil_r. Qed.

(** The loop only logs, and leaves the sum of the patch sizes of the
    entries other than the installed build. *)
Lemma upgradeLoop_run oldID items total w :
  exists d,
    forallb isLog d = true /\
    upgradeLoop oldID items total w =
    (Ok (fold_left (fun total item =>
                      if Item_ID item =? oldID then total
                      else add64 total (PatchSize item)) items total),
     extend w d).
Proof.
  revert total w. induction items as [|item rest IH]; intros total w; simpl.
  - exists []. split; [reflexivity|]. now rewrite extend_nil.
  - destruct (Item_ID item =? oldID).
    + apply IH.
    + unfold bind, log, emit.
      destruct (IH (add64 total (PatchSize item))
                   (record (EvLog Infof " - Build %d (%s)") w)) as [d [L E]].
      exists (EvLog Infof " - Build %d (%s)" :: d). split; [exact L|].
      rewrite E, record_extend, extend_extend. reflexivity.
Qed.

Section SameUpload.

Variable env : Env.
Variable params : InstallParams.
Variables (w w0 : World) (client : Client) (rc : Receipt).
Variables (rU pU : Upload) (rB pB : Build).

Hypothesis prelude : preparePrelude env params w = (Ok (client, Some rc), w0).
Hypothesis receipt_upload : Receipt_Upload rc = Some rU.
Hypothesis params_upload : Upload_ params = Some pU.
Hypothesis same_upload : Upload_ID rU = Upload_ID pU.
Hypothesis receipt_build : Receipt_Build rc = Some rB.
Hypothesis params_build : Build_ params = Some pB.

Lemma InstallPrepare_same_upload allow task :
  InstallPrepare env params allow task w =
  (let oldID := Build_ID rB in
   let newID := Build_ID pB in
   let reinstall :=
     log Infof "↺ Re-installing build %d" ;;
     invoke task (healResult rc) in
   if newID >? oldID then
     log Infof "↑ Upgrading from build %d to %d" ;;
     u <- attempt (call (EvFindUpgrade (upgradeQuery params oldID pU))
                        (FindUpgrade client (upgradeQuery params oldID pU))) ;;
     match u with
     | inl _ =>
         log Warnf "Could not find upgrade path: %s" ;;
         log Infof "Falling back to heal..." ;;
         invoke task (healResult rc)
     | inr upgradePath =>
         log Infof "Found upgrade path with %d items: " ;;
         totalUpgradeSize <- upgradeLoop oldID (UpgradePath upgradePath) 0 ;;
         log Infof "Total upgrade size %s is %s full upload %s" ;;
         if totalUpgradeSize >? Upload_Size pU then
           log Infof "Healing instead of patching" ;;
           invoke task (healResult rc)
         else
           log Warnf "TODO: update (falling back to install for now)" ;;
           reinstall
     end
   else if newID <? oldID then
     log Infof "↓ Downgrading from build %d to %d" ;;
     invoke task (healResult rc)
   else reinstall)
    (extend w0 [EvLog Infof "Installing over same upload"]).
Proof.
  unfold InstallPrepare. unfold bind at 1. rewrite prelude. simpl fst. simpl snd.
  unfold selectStrategy.
  rewrite receipt_upload, params_upload, same_upload, Z.eqb_refl.
  rewrite receipt_build, params_build.
  unfold bind at 1. unfold log at 1. unfold emit at 1.
  rewrite record_extend. reflexivity.
Qed.

End SameUpload.

Lemma prelude_no_upgrade_query env params w r w0 :
  preparePrelude env params w = (r, w0) ->
  exists d, trace w0 = trace w ++ d /\ forall p, ~ In (EvFindUpgrade p) d.
Proof.
  intros E. apply (respects_preparePrelude env params ANoUpgradeQuery) in E.
  destruct E as [d [T H]]. destruct (H I) as [_ C].
  exists d. split; [exact T|].
  intros p F. now apply (clean_In _ _ _ C) in F.
Qed.

Ltac run_steps :=
  repeat (progress (unfold bind, log, emit, attempt, call, invoke;
                    rewrite ?record_extend, ?extend_extend)).

(** C2.  In an upgrade over the same upload whose upgrade-path query
    succeeds, a total upgrade size greater than or equal to the full
    upload size makes [InstallPrepare] call the task with strategy Heal:
    the run is the run of the task on that result, after the query and
    log lines only. *)
Theorem upgrade_not_smaller_than_upload_heals
    env params allow w w0 client rc rU pU rB pB up :
  preparePrelude env params w = (Ok (client, Some rc), w0) ->
  Receipt_Upload rc = Some rU ->
  Upload_ params = Some pU ->
  Upload_ID rU = Upload_ID pU ->
  Receipt_Build rc = Some rB ->
  Build_ params = Some pB ->
  Build_ID pB > Build_ID rB ->
  FindUpgrade client (upgradeQuery params (Build_ID rB) pU) = Ok up ->
  totalUpgradeSizeOf (Build_ID rB) (UpgradePath up) >= Upload_Size pU ->
  Strategy (healResult rc) = InstallPerformStrategyHeal /\
  exists d,
    forallb isLog d = true /\
    forall task,
      InstallPrepare env params allow task w =
      task (healResult rc)
           (extend w0
              ([EvLog Infof "Installing over same upload";
                EvLog Infof "↑ Upgrading from build %d to %d";
                EvFindUpgrade (upgradeQuery params (Build_ID rB) pU)]
               ++ d ++ [EvTask (healResult rc)])).
Proof.
  intros P RU PU SU RB PB GT FU GE. split; [reflexivity|].
  destruct (upgradeLoop_run (Build_ID rB) (UpgradePath up) 0
              (extend w0
                 [EvLog Infof "Installing over same upload";
                  EvLog Infof "↑ Upgrading from build %d to %d";
                  EvFindUpgrade (upgradeQuery params (Build_ID rB) pU);
                  EvLog Infof "Found upgrade path with %d items: "]))
    as [dl [L E]].
  fold (totalUpgradeSizeOf (Build_ID rB) (UpgradePath up)) in E.
  assert (G : (Build_ID pB >? Build_ID rB) = true) by (apply Z.gtb_lt; lia).
  destruct (totalUpgradeSizeOf (Build_ID rB) (UpgradePath up)
            >? Upload_Size pU) eqn:C.
  - exists ([EvLog Infof "Found upgrade path with %d items: "] ++ dl ++
            [EvLog Infof "Total upgrade size %s is %s full upload %s";
             EvLog Infof "Healing instead of patching"]).
    split.
    { rewrite !forallb_app, L. reflexivity. }
    intros task.
    rewrite (InstallPrepare_same_upload env params w w0 client rc rU pU rB pB)
      by assumption.
    cbv zeta. rewrite G.
    unfold bind, log, emit, attempt, call, invoke. rewrite FU.
    rewrite !record_extend, !extend_extend. simpl app.
    rewrite E, C. unfold bind, log, emit, invoke.
    rewrite !record_extend, !extend_extend.
    f_equal. f_equal. simpl. rewrite <- !app_assoc. reflexivity.
  - exists ([EvLog Infof "Found upgrade path with %d items: "] ++ dl ++
            [EvLog Infof "Total upgrade size %s is %s full upload %s";
             EvLog Warnf "TODO: update (falling back to install for now)";
             EvLog Infof "↺ Re-installing build %d"]).
    split.
    { rewrite !forallb_app, L. reflexivity. }
    intros task.
    rewrite (InstallPrepare_same_upload env params w w0 client rc rU pU rB pB)
      by assumption.
    cbv zeta. rewrite G.
    unfold bind, log, emit, attempt, call, invoke. rewrite FU.
    rewrite !record_extend, !extend_extend. simpl app.
    rewrite E, C. unfold bind, log, emit, invoke.
    rewrite !record_extend, !extend_extend.
    f_equal. f_equal. simpl. rewrite <- !app_assoc. reflexivity.
Qed.

(** C3.  In an upgrade over the same upload whose upgrade-path query
    fails, [InstallPrepare] logs a warning and calls the task with
    strategy Heal; what it returns is what the task returns, so the
    failure of the query is not returned. *)
Theorem failed_upgrade_query_heals
    env params allow w w0 client rc rU pU rB pB e :
  preparePrelude env params w = (Ok (client, Some rc), w0) ->
  Receipt_Upload rc = Some rU ->
  Upload_ params = Some pU ->
  Upload_ID rU = Upload_ID pU ->
  Receipt_Build rc = Some rB ->
  Build_ params = Some pB ->
  Build_ID pB > Build_ID rB ->
  FindUpgrade client (upgradeQuery params (Build_ID rB) pU) = Err e ->
  Strategy (healResult rc) = InstallPerformStrategyHeal /\
  forall task,
    InstallPrepare env params allow task w =
    task (healResult rc)
         (extend w0
            [EvLog Infof "Installing over same upload";
             EvLog Infof "↑ Upgrading from build %d to %d";
             EvFindUpgrade (upgradeQuery params (Build_ID rB) pU);
             EvLog Warnf "Could not find upgrade path: %s";
             EvLog Infof "Falling back to heal...";
             EvTask (healResult rc)]).
Proof.
  intros P RU PU SU RB PB GT FU. split; [reflexivity|]. intros task.
  assert (G : (Build_ID pB >? Build_ID rB) = true) by (apply Z.gtb_lt; lia).
  rewrite (InstallPrepare_same_upload env params w w0 client rc rU pU rB pB)
    by assumption.
  cbv zeta. rewrite G.
  run_steps. rewrite FU. run_steps. reflexivity.
Qed.

(** C4.  Over the same upload, a requested build that is not newer than
    the installed one makes [InstallPrepare] call the task with strategy
    Heal, and no upgrade-path query is made before the task is called. *)
Theorem same_or_older_build_heals
    env params allow w w0 client rc rU pU rB pB :
  preparePrelude env params w = (Ok (client, Some rc), w0) ->
  Receipt_Upload rc = Some rU ->
  Upload_ params = Some pU ->
  Upload_ID rU = Upload_ID pU ->
  Receipt_Build rc = Some rB ->
  Build_ params = Some pB ->
  Build_ID pB <= Build_ID rB ->
  Strategy (healResult rc) = InstallPerformStrategyHeal /\
  exists d,
    (forall p, ~ In (EvFindUpgrade p) d) /\
    forall task,
      InstallPrepare env params allow task w =
      task (healResult rc)
           {| istate := istate w0; store := store w0;
              trace := trace w ++ d ++ [EvTask (healResult rc)] |}.
Proof.
  intros P RU PU SU RB PB LE. split; [reflexivity|].
  destruct (prelude_no_upgrade_query _ _ _ _ _ P) as [d0 [T0 N0]].
  assert (G : (Build_ID pB >? Build_ID rB) = false).
  { destruct (Build_ID pB >? Build_ID rB) eqn:C; [|reflexivity].
    apply Z.gtb_lt in C. lia. }
  destruct (Build_ID pB <? Build_ID rB) eqn:C.
  - exists (d0 ++ [EvLog Infof "Installing over same upload";
                   EvLog Infof "↓ Downgrading from build %d to %d"]).
    split.
    { intros p F. apply in_app_or in F. destruct F as [F|F].
      - now apply N0 in F.
      - simpl in F. intuition discriminate. }
    intros task.
    rewrite (InstallPrepare_same_upload env params w w0 client rc rU pU rB pB)
      by assumption.
    cbv zeta. rewrite G, C.
    run_steps. unfold extend. simpl.
    rewrite T0, <- !app_assoc. reflexivity.
  - exists (d0 ++ [EvLog Infof "Installing over same upload";
                   EvLog Infof "↺ Re-installing build %d"]).
    split.
    { intros p F. apply in_app_or in F. destruct F as [F|F].
      - now apply N0 in F.
      - simpl in F. intuition discriminate. }
    intros task.
    rewrite (InstallPrepare_same_upload env params w w0 client rc rU pU rB pB)
      by assumption.
    cbv zeta. rewrite G, C.
    run_steps. unfold extend. simpl.
    rewrite T0, <- !app_assoc. reflexivity.
Qed.

Lemma upgrade_not_smaller_than_upload_heals_witness :
  Strategy (healResult (receiptAt 5)) = InstallPerformStrategyHeal /\
  exists d,
    forallb isLog d = true /\
    forall task,
      InstallPrepare (receiptEnv 5 tieClient) baseParams true task freshWorld =
      task (healResult (receiptAt 5))
           (extend (snd (preparePrelude (receiptEnv 5 tieClient) baseParams
                                        freshWorld))
              ([EvLog Infof "Installing over same upload";
                EvLog Infof "↑ Upgrading from build %d to %d";
                EvFindUpgrade (upgradeQuery baseParams 5 upload1)]
               ++ d ++ [EvTask (healResult (receiptAt 5))])).
Proof.
  apply (upgrade_not_smaller_than_upload_heals
           (receiptEnv 5 tieClient) baseParams true freshWorld _
           tieClient (receiptAt 5) upload1 upload1
           {| Build_ID := 5 |} {| Build_ID := 9 |}
           {| UpgradePath :=
                [ {| Item_ID := 5; PatchSize := 4096 |};
                  {| Item_ID := 7; PatchSize := 1000000 |};
                  {| Item_ID := 9; PatchSize := 1097152 |} ] |});
    try reflexivity.
  vm_compute. discriminate.
Defined.

Lemma failed_upgrade_query_heals_witness :
  Strategy (healResult (receiptAt 5)) = InstallPerformStrategyHeal /\
  forall task,
    InstallPrepare (receiptEnv 5 okClient) baseParams true task freshWorld =
    task (healResult (receiptAt 5))
         (extend (snd (preparePrelude (receiptEnv 5 okClient) baseParams
                                      freshWorld))
            [EvLog Infof "Installing over same upload";
             EvLog Infof "↑ Upgrading from build %d to %d";
             EvFindUpgrade (upgradeQuery baseParams 5 upload1);
             EvLog Warnf "Could not find upgrade path: %s";
             EvLog Infof "Falling back to heal...";
             EvTask (healResult (receiptAt 5))]).
Proof.
  apply (failed_upgrade_query_heals
           (receiptEnv 5 okClient) baseParams true freshWorld _
           okClient (receiptAt 5) upload1 upload1
           {| Build_ID := 5 |} {| Build_ID := 9 |}
           (Foreign "no upgrade path"));
    reflexivity.
Defined.

Lemma same_or_older_build_heals_witness :
  Strategy (healResult (receiptAt 9)) = InstallPerformStrategyHeal /\
  exists d,
    (forall p, ~ In (EvFindUpgrade p) d) /\
    forall task,
      InstallPrepare (receiptEnv 9 okClient) baseParams true task freshWorld =
      task (healResult (receiptAt 9))
           {| istate := istate (snd (preparePrelude (receiptEnv 9 okClient)
                                                    baseParams freshWorld));
              store := store (snd (preparePrelude (receiptEnv 9 okClient)
                                                  baseParams freshWorld));
              trace := trace freshWorld ++ d
                       ++ [EvTask (healResult (receiptAt 9))] |}.
Proof.
  apply (same_or_older_build_heals
           (receiptEnv 9 okClient) baseParams true freshWorld _
           okClient (receiptAt 9) upload1 upload1
           {| Build_ID := 9 |} {| Build_ID := 9 |});
    reflexivity.
Defined.

(** ** Counting manager invocations *)

Lemma installs_app site d1 d2 :
  installs site (d1 ++ d2) = (installs site d1 + installs site d2)%nat.
Proof. unfold installs. now rewrite filter_app, length_app. Qed.

Lemma clean_installs site d : clean ANoInstall d = true -> installs site d = 0%nat.
Proof.
  unfold clean, installs. induction d as [|ev d IH]; simpl; [reflexivity|].
  intros C. apply andb_prop in C. destruct C as [B C].
  rewrite <- (IH C).
  destruct ev; try reflexivity.
  destruct site0, site; try reflexivity; simpl in B; discriminate.
Qed.

(** What one call of [tryInstall] does: the substate is left alone, the
    manager is invoked at most once, at the site of the call. *)
Lemma tryInstall_trace env site name manager mip w r w' :
  tryInstall env site name manager mip w = (r, w') ->
  exists d, w' = extend w d /\
    clean ANoCommit d = true /\
    (installs site d <= 1)%nat /\
    (forall site', site' <> site -> installs site' d = 0%nat) /\
    (forall res, r = Ok res ->
       Install manager site mip = Ok res /\
       In (EvInstall site name (MIP_File mip)) d).
Proof.
  unfold tryInstall, defer_close. intros E.
  destruct (ctxDone env site).
  { inversion E; subst. exists [EvClose (MIP_File mip)].
    repeat split; auto; discriminate. }
  unfold bind, with_stack, call, emit, attempt in E.
  destruct (TaskStartedNotify env site TaskTypeInstall) as [[]|e0|];
    try (inversion E; subst;
         exists [EvTaskStarted TaskTypeInstall; EvClose (MIP_File mip)];
         rewrite !record_extend, !extend_extend;
         repeat split; auto; discriminate).
  destruct (Install manager site mip) as [res|e1|] eqn:EI;
    inversion E; subst.
  - exists [EvTaskStarted TaskTypeInstall; EvStartProgress;
            EvInstall site name (MIP_File mip); EvEndProgress;
            EvClose (MIP_File mip)].
    rewrite !record_extend, !extend_extend.
    split; [reflexivity|]. split; [destruct site; reflexivity|].
    split; [destruct site; simpl; auto|].
    split; [intros site' N; destruct site, site';
            try reflexivity; congruence|].
    intros res' H. inversion H; subst. split; [reflexivity | simpl; auto].
  - exists [EvTaskStarted TaskTypeInstall; EvStartProgress;
            EvInstall site name (MIP_File mip); EvEndProgress;
            EvClose (MIP_File mip)].
    rewrite !record_extend, !extend_extend.
    split; [reflexivity|]. split; [destruct site; reflexivity|].
    split; [destruct site; simpl; auto|].
    split; [intros site' N; destruct site, site';
            try reflexivity; congruence|].
    intros; discriminate.
  - exists [EvTaskStarted TaskTypeInstall; EvStartProgress;
            EvInstall site name (MIP_File mip); EvClose (MIP_File mip)].
    rewrite !record_extend, !extend_extend.
    split; [reflexivity|]. split; [destruct site; reflexivity|].
    split; [destruct site; simpl; auto|].
    split; [intros site' N; destruct site, site';
            try reflexivity; congruence|].
    intros; discriminate.
Qed.

Lemma doForceLocal_no_install env site file w r w' :
  doForceLocal env site file w = (r, w') ->
  exists d, trace w' = trace w ++ d /\
            forall site', installs site' d = 0%nat.
Proof.
  intros E. apply (respects_doForceLocal env ANoInstall) in E.
  destruct E as [d [T H]]. destruct (H I) as [_ C].
  exists d. split; [exact T|]. intros; now apply clean_installs.
Qed.

Ltac count_installs :=
  rewrite ?installs_app;
  repeat match goal with
         | H : forall site, installs site ?d = 0%nat |- _ =>
             rewrite !H
         | |- context [installs ?s (?a :: ?l)] =>
             change (installs s (a :: l)) with 0%nat
         end;
  lia.

Lemma firstInstall_installs env name manager mip file w r w' :
  firstInstall env name manager mip file w = (r, w') ->
  exists d, trace w' = trace w ++ d /\
    (installs SiteFirst d <= 1)%nat /\
    (installs SiteRetry d <= 1)%nat /\
    installs SiteNested d = 0%nat.
Proof.
  unfold firstInstall. unfold bind at 1. unfold get_istate.
  destruct (FirstInstallResult (istate w)).
  { intros E. unfold bind, log, emit, ret in E. inversion E; subst.
    exists [EvLog Infof "First install already completed (%d files)"].
    simpl. auto. }
  unfold bind at 1. unfold attempt at 1.
  destruct (tryInstall env SiteFirst name manager mip w) as [r1 w1] eqn:E1.
  destruct (tryInstall_trace _ _ _ _ _ _ _ _ E1)
    as [d1 [W1 [_ [S1 [O1 _]]]]]. subst w1.
  assert (F1 := O1 SiteRetry ltac:(discriminate)).
  assert (N1 := O1 SiteNested ltac:(discriminate)).
  destruct r1 as [res|e|].
  - intros E. unfold bind, ret, log, emit, assign_and_save in E.
    inversion E; subst.
    exists (d1 ++ [EvLog Infof "Install successful";
                   EvSave (with_FirstInstallResult res (istate w))]).
    simpl. rewrite <- !app_assoc. split; [reflexivity|].
    count_installs.
  - destruct (isErrNeedLocal (Cause e)).
    + unfold bind at 1. unfold bind at 1. unfold attempt at 1.
      destruct (doForceLocal env SiteRetry file (extend w d1))
        as [l w2] eqn:E2.
      destruct (doForceLocal_no_install _ _ _ _ _ _ E2) as [d2 [T2 Z2]].
      destruct l as [lf|e2|].
      * unfold bind at 1. unfold log, emit. unfold attempt at 1.
        destruct (tryInstall env SiteRetry name manager (setMIPFile mip lf)
                    (record (EvLog Infof "Re-invoking manager with local file...") w2))
          as [r3 w3] eqn:E3.
        destruct (tryInstall_trace _ _ _ _ _ _ _ _ E3)
          as [d3 [W3 [_ [S3 [O3 _]]]]]. subst w3.
        assert (F3 := O3 SiteFirst ltac:(discriminate)).
        assert (N3 := O3 SiteNested ltac:(discriminate)).
        destruct r3 as [res|e3|]; intros E;
          unfold bind, ret, fail, log, emit, assign_and_save in E;
          inversion E; subst; simpl; rewrite T2; simpl.
        -- exists (d1 ++ d2 ++
                   [EvLog Infof "Re-invoking manager with local file..."]
                   ++ d3 ++
                   [EvLog Infof "Install successful";
                    EvSave (with_FirstInstallResult res (istate w2))]).
           split; [now rewrite <- !app_assoc|].
           count_installs.
        -- exists (d1 ++ d2 ++
                   [EvLog Infof "Re-invoking manager with local file..."]
                   ++ d3).
           split; [now rewrite <- !app_assoc|].
           count_installs.
        -- exists (d1 ++ d2 ++
                   [EvLog Infof "Re-invoking manager with local file..."]
                   ++ d3).
           split; [now rewrite <- !app_assoc|].
           count_installs.
      * intros E. unfold bind, fail in E. inversion E; subst.
        exists (d1 ++ d2). rewrite T2. simpl.
        split; [now rewrite <- !app_assoc|].
        count_installs.
      * intros E. inversion E; subst.
        exists (d1 ++ d2). rewrite T2. simpl.
        split; [now rewrite <- !app_assoc|].
        count_installs.
    + intros E. unfold bind, ret, fail in E. inversion E; subst.
      exists d1. simpl. repeat split; auto; lia.
  - intros E. inversion E; subst. exists d1. simpl. repeat split; auto; lia.
Qed.

(** ** C6 *)



(** ** C7: the nested install *)

Ltac cases_of E :=
  repeat match type of E with
         | context [match ?x with _ => _ end] => destruct x eqn:?
         end.

Lemma relocateNested_opens env single singlePath w lf w' :
  relocateNested env single singlePath w = (Ok lf, w') ->
  osOpen env SiteNested (nestedPath env single) = Ok lf.
Proof.
  unfold relocateNested, nestedPath. intros E.
  unfold bind, with_stack, attempt, call, log, emit in E.
  cases_of E; inversion E; subst; reflexivity.
Qed.

Lemma relocateNested_no_install env single singlePath w r w' :
  relocateNested env single singlePath w = (r, w') ->
  exists d, trace w' = trace w ++ d /\
            forall site, installs site d = 0%nat.
Proof.
  intros E. apply (respects_relocateNested env ANoInstall) in E.
  destruct E as [d [T H]]. destruct (H I) as [_ C].
  exists d. split; [exact T|]. intros; now apply clean_installs.
Qed.

(** The relocation succeeds when the file is already in place or can be
    moved, and can be opened. *)
Lemma relocateNested_succeeds env single singlePath w lf :
  osStat env (nestedPath env single) = Ok tt \/
  ((exists e, osStat env (nestedPath env single) = Err e) /\
   MkdirAll env (Dir env (nestedPath env single)) = Ok tt /\
   RemoveAll env (nestedPath env single) = Ok tt /\
   Rename env singlePath (nestedPath env single) = Ok tt) ->
  osOpen env SiteNested (nestedPath env single) = Ok lf ->
  exists w', relocateNested env single singlePath w = (Ok lf, w').
Proof.
  unfold relocateNested, nestedPath.
  intros [S | [[e S] [Mk [Rm Rn]]]] O;
    unfold bind, with_stack, attempt, call, log, emit;
    rewrite S; try rewrite Mk, Rm, Rn; rewrite O; eexists; reflexivity.
Qed.

Lemma In_installs n f d :
  In (EvInstall SiteNested n f) d -> (1 <= installs SiteNested d)%nat.
Proof.
  unfold installs. induction d as [|ev d IH]; simpl; [tauto|].
  intros [E | I].
  - subst ev. simpl. lia.
  - specialize (IH I). destruct (isInstall SiteNested ev); simpl; lia.
Qed.

Lemma nestedWith_spec env mip first info single singlePath s w r w' :
  nestedWith env mip first info single singlePath s w = (r, w') ->
  exists d, trace w' = trace w ++ d /\
    installs SiteFirst d = 0%nat /\
    installs SiteRetry d = 0%nat /\
    (installs SiteNested d <= 1)%nat /\
    (IsWindowsInstaller env (Type_ s) = false ->
       r = Ok (first, info) /\ installs SiteNested d = 0%nat) /\
    (forall fin, r = Ok fin -> IsWindowsInstaller env (Type_ s) = true ->
       exists m lf res,
         GetManager env (Type_ s) = Some m /\
         osOpen env SiteNested (nestedPath env single) = Ok lf /\
         Install m SiteNested (setMIPFile mip lf) = Ok res /\
         fin = (res, s) /\
         In (EvInstall SiteNested (Type_ s) lf) d).
Proof.
  unfold nestedWith. destruct (IsWindowsInstaller env (Type_ s)) eqn:W; simpl.
  2:{ intros E. unfold bind, log, emit, ret in E. inversion E; subst.
      exists [EvLog Infof "Installer type is (%s), ignoring"].
      simpl. repeat split; auto; discriminate. }
  unfold bind at 1. unfold log at 1. unfold emit at 1.
  destruct (GetManager env (Type_ s)) as [m|] eqn:G.
  2:{ intros E. inversion E; subst.
      exists [EvLog Infof "Will use nested installer (%s)"].
      simpl. repeat split; auto; discriminate. }
  unfold bind at 1.
  destruct (relocateNested env single singlePath
              (record (EvLog Infof "Will use nested installer (%s)") w))
    as [rl w2] eqn:ER.
  destruct (relocateNested_no_install _ _ _ _ _ _ ER) as [d2 [T2 Z2]].
  simpl in T2.
  destruct rl as [lf|e|].
  2,3: intros E; inversion E; subst;
       exists ([EvLog Infof "Will use nested installer (%s)"] ++ d2);
       rewrite T2, <- app_assoc;
       (split; [reflexivity|]);
       repeat split; try discriminate; count_installs.
  apply relocateNested_opens in ER.
  unfold bind at 1. unfold log at 1. unfold emit at 1. unfold bind at 1.
  destruct (tryInstall env SiteNested (Type_ s) m (setMIPFile mip lf)
              (record (EvLog Infof "Invoking nested install manager, let's go!") w2))
    as [r3 w3] eqn:ET.
  destruct (tryInstall_trace _ _ _ _ _ _ _ _ ET)
    as [d3 [W3 [_ [S3 [O3 I3]]]]]. subst w3.
  assert (F3 := O3 SiteFirst ltac:(discriminate)).
  assert (R3 := O3 SiteRetry ltac:(discriminate)).
  intros E.
  exists ([EvLog Infof "Will use nested installer (%s)"] ++ d2 ++
          [EvLog Infof "Invoking nested install manager, let's go!"] ++ d3).
  assert (T : trace w' = trace w ++
                [EvLog Infof "Will use nested installer (%s)"] ++ d2 ++
                [EvLog Infof "Invoking nested install manager, let's go!"] ++ d3).
  { destruct r3; inversion E; subst; simpl; rewrite T2;
      now rewrite <- !app_assoc. }
  split; [exact T|].
  split; [count_installs|]. split; [count_installs|]. split; [count_installs|].
  split; [discriminate|].
  intros fin Hf _. subst r.
  destruct r3 as [res|e3|]; inversion E; subst; try discriminate.
  destruct (I3 res eq_refl) as [In3 Ev3].
  exists m, lf, res. repeat split; auto.
  apply in_or_app. right. apply in_or_app. right.
  apply in_or_app. right. exact Ev3.
Qed.

(** When the manager is registered and the relocation succeeds, the
    nested manager is invoked: the step is one call of [tryInstall] on
    the relocated file. *)
Lemma nestedWith_invokes env mip first info single singlePath s w m lf :
  IsWindowsInstaller env (Type_ s) = true ->
  GetManager env (Type_ s) = Some m ->
  osStat env (nestedPath env single) = Ok tt \/
  ((exists e, osStat env (nestedPath env single) = Err e) /\
   MkdirAll env (Dir env (nestedPath env single)) = Ok tt /\
   RemoveAll env (nestedPath env single) = Ok tt /\
   Rename env singlePath (nestedPath env single) = Ok tt) ->
  osOpen env SiteNested (nestedPath env single) = Ok lf ->
  exists w0 d0,
    trace w0 = trace w ++ d0 /\
    (forall site, installs site d0 = 0%nat) /\
    nestedWith env mip first info single singlePath s w =
    match tryInstall env SiteNested (Type_ s) m (setMIPFile mip lf) w0 with
    | (Ok res, w4) => (Ok (res, s), w4)
    | (Err e, w4) => (Err e, w4)
    | (Panic, w4) => (Panic, w4)
    end.
Proof.
  intros W G S O.
  destruct (relocateNested_succeeds env single singlePath
              (record (EvLog Infof "Will use nested installer (%s)") w)
              lf S O) as [w2 ER].
  destruct (relocateNested_no_install _ _ _ _ _ _ ER) as [d2 [T2 Z2]].
  exists (record (EvLog Infof "Invoking nested install manager, let's go!") w2),
         ([EvLog Infof "Will use nested installer (%s)"] ++ d2 ++
          [EvLog Infof "Invoking nested install manager, let's go!"]).
  split; [simpl; rewrite T2; simpl; now rewrite <- !app_assoc|].
  split; [intros; count_installs|].
  unfold nestedWith. rewrite W. simpl.
  unfold bind at 1. unfold log at 1. unfold emit at 1. rewrite G.
  unfold bind at 1. rewrite ER.
  unfold bind at 1. unfold log at 1. unfold emit at 1. unfold bind at 1.
  destruct (tryInstall env SiteNested (Type_ s) m (setMIPFile mip lf)
              (record (EvLog Infof "Invoking nested install manager, let's go!") w2))
    as [[res|e|] w4]; reflexivity.
Qed.

Lemma nestedWith_outcome env mip first info single singlePath s w r w' :
  nestedWith env mip first info single singlePath s w = (r, w') ->
  exists d, trace w' = trace w ++ d /\
            nestedOutcome env mip first info single s d r.
Proof.
  intros E. destruct (nestedWith_spec _ _ _ _ _ _ _ _ _ _ E)
    as [d [T [F [Rt [N [NW OK]]]]]].
  exists d. split; [exact T|]. unfold nestedOutcome.
  split; [exact F|]. split; [exact Rt|]. split; [exact N|].
  destruct (IsWindowsInstaller env (Type_ s)) eqn:W.
  - split; [reflexivity|]. split; [discriminate|]. intros fin Hf. right.
    destruct (OK fin Hf eq_refl) as [m [lf [res [G [O [I [Ef Ev]]]]]]].
    exists m, lf, res. repeat split; auto.
    apply In_installs in Ev. lia.
  - destruct (NW eq_refl) as [Hr Z]. split; [lia|]. split; [auto|].
    intros fin Hf. left. subst r. inversion Hf. auto.
Qed.

Lemma nestedOutcome_frame env mip first info single s p d q r :
  (forall site, installs site p = 0%nat) ->
  (forall site, installs site q = 0%nat) ->
  nestedOutcome env mip first info single s d r ->
  nestedOutcome env mip first info single s (p ++ d ++ q) (stacked r).
Proof.
  intros P Q [F [Rt [N [W [NW OK]]]]]. unfold nestedOutcome.
  rewrite !installs_app, !P, !Q. simpl. rewrite !Nat.add_0_r.
  split; [exact F|]. split; [exact Rt|]. split; [exact N|].
  split; [exact W|].
  split; [intros H; rewrite (NW H); reflexivity|].
  intros fin Hf.
  assert (Hr : r = Ok fin) by (destruct r; simpl in Hf; congruence).
  destruct (OK fin Hr) as [L | [m [lf [res H]]]];
    [left; exact L | right].
  exists m, lf, res. intuition.
  apply in_or_app. right. apply in_or_app. now left.
Qed.

Lemma nestedInstall_outcome env params mip first info w r w' :
  nestedInstall env params mip first info w = (r, w') ->
  exists d, trace w' = trace w ++ d /\
    ((installs SiteFirst d = 0%nat /\ installs SiteRetry d = 0%nat /\
      installs SiteNested d = 0%nat /\
      (forall fin, r = Ok fin -> fin = (first, info)) /\
      ((forall single, Files first <> [single]) \/
       exists single, Files first = [single] /\
                      secondInfo env params w single = None))
     \/
     exists single s,
       Files first = [single] /\
       secondInfo env params w single = Some s /\
       nestedOutcome env mip first info single s d r).
Proof.
  unfold nestedInstall.
  destruct (Files first) as [|single [|x l]] eqn:Fl.
  1,3: intros E; inversion E; subst; exists []; rewrite app_nil_r;
       (split; [reflexivity|]); left; repeat split; auto;
       try (intros fin Hf; now inversion Hf);
       left; intros s0; discriminate.
  unfold bind at 1. unfold log at 1. unfold emit at 1.
  unfold with_stack at 1. unfold bind at 1. unfold get_istate.
  unfold secondInfo.
  change (istate (record (EvLog Infof "Installed a single file") w))
    with (istate w).
  destruct (SecondInstallerInfo (istate w)) as [s|] eqn:S.
  - unfold bind at 1. unfold log at 1. unfold emit at 1.
    match goal with
    | |- context [nestedWith ?a ?b ?c ?d ?e ?f ?g ?h] =>
        destruct (nestedWith a b c d e f g h) as [rn wn] eqn:EN
    end.
    destruct (nestedWith_outcome _ _ _ _ _ _ _ _ _ _ EN) as [dn [Tn On]].
    simpl in Tn. intros E.
    exists ([EvLog Infof "Installed a single file";
             EvLog Infof "Using cached second installer info"] ++ dn ++ []).
    assert (T : trace w' = trace w ++
                  [EvLog Infof "Installed a single file";
                   EvLog Infof "Using cached second installer info"] ++ dn ++ []).
    { destruct rn; inversion E; subst; rewrite Tn, app_nil_r;
        now rewrite <- !app_assoc. }
    split; [exact T|]. right. exists single, s.
    split; [reflexivity|]. split; [reflexivity|].
    replace r with (stacked rn) by (destruct rn; inversion E; reflexivity).
    apply nestedOutcome_frame; try (intros; reflexivity). exact On.
  - unfold bind at 1. unfold log at 1. unfold emit at 1.
    unfold bind at 1. unfold with_stack at 1. unfold call at 1.
    destruct (osOpen env SiteSecondProbe (Join env [InstallFolder params; single]))
      as [sf|eo|] eqn:O.
    2,3: intros E; inversion E; subst;
         exists [EvLog Infof "Installed a single file";
                 EvLog Infof "Probing (%s)...";
                 EvOpen (Join env [InstallFolder params; single])];
         simpl; rewrite <- !app_assoc;
         (split; [reflexivity|]); left; repeat split; auto;
         try discriminate; right; exists single;
         (split; [reflexivity|]); rewrite O; reflexivity.
    unfold defer_close. unfold bind at 1. unfold attempt at 1.
    unfold call at 1.
    destruct (GetInstallerInfo env SiteSecondProbe sf) as [i|ei|] eqn:G.
    + unfold bind at 1. unfold emit at 1. unfold bind at 1.
      unfold assign_and_save at 1.
      match goal with
      | |- context [nestedWith ?a ?b ?c ?d ?e ?f ?g ?h] =>
          destruct (nestedWith a b c d e f g h) as [rn wn] eqn:EN
      end.
      destruct (nestedWith_outcome _ _ _ _ _ _ _ _ _ _ EN) as [dn [Tn On]].
      simpl in Tn. intros E.
      exists ([EvLog Infof "Installed a single file";
               EvLog Infof "Probing (%s)...";
               EvOpen (Join env [InstallFolder params; single]);
               EvGetInstallerInfo SiteSecondProbe sf;
               EvClose sf;
               EvSave (with_SecondInstallerInfo i (istate w))]
              ++ dn ++ [EvClose sf]).
      assert (T : trace w' = trace w ++
                    [EvLog Infof "Installed a single file";
                     EvLog Infof "Probing (%s)...";
                     EvOpen (Join env [InstallFolder params; single]);
                     EvGetInstallerInfo SiteSecondProbe sf;
                     EvClose sf;
                     EvSave (with_SecondInstallerInfo i (istate w))]
                    ++ dn ++ [EvClose sf]).
      { destruct rn; inversion E; subst; simpl; rewrite Tn;
          now rewrite <- !app_assoc. }
      split; [exact T|]. right. exists single, i.
      split; [reflexivity|]. split; [simpl; rewrite ?O; simpl; rewrite ?G; reflexivity|].
      replace r with (stacked rn) by (destruct rn; inversion E; reflexivity).
      apply nestedOutcome_frame; try (intros; reflexivity). exact On.
    + intros E. unfold bind, log, emit, ret in E. inversion E; subst.
      exists [EvLog Infof "Installed a single file";
              EvLog Infof "Probing (%s)...";
              EvOpen (Join env [InstallFolder params; single]);
              EvGetInstallerInfo SiteSecondProbe sf;
              EvLog Infof "Could not determine installer info for single file, skipping: %s";
              EvClose sf].
      simpl. rewrite <- !app_assoc. split; [reflexivity|].
      left. repeat split; auto.
      * intros fin Hf. now inversion Hf.
      * right. exists single. split; [reflexivity|].
        simpl; rewrite ?O; simpl; rewrite ?G; reflexivity.
    + intros E. inversion E; subst.
      exists [EvLog Infof "Installed a single file";
              EvLog Infof "Probing (%s)...";
              EvOpen (Join env [InstallFolder params; single]);
              EvGetInstallerInfo SiteSecondProbe sf;
              EvClose sf].
      simpl. rewrite <- !app_assoc. split; [reflexivity|].
      left. repeat split; auto; try discriminate.
      right. exists single. split; [reflexivity|].
      simpl; rewrite ?O; simpl; rewrite ?G; reflexivity.
Qed.

Lemma nestedInstall_invokes env params mip first info w single s m lf :
  Files first = [single] ->
  secondInfo env params w single = Some s ->
  IsWindowsInstaller env (Type_ s) = true ->
  GetManager env (Type_ s) = Some m ->
  osStat env (nestedPath env single) = Ok tt \/
  ((exists e, osStat env (nestedPath env single) = Err e) /\
   MkdirAll env (Dir env (nestedPath env single)) = Ok tt /\
   RemoveAll env (nestedPath env single) = Ok tt /\
   Rename env (Join env [InstallFolder params; single])
          (nestedPath env single) = Ok tt) ->
  osOpen env SiteNested (nestedPath env single) = Ok lf ->
  exists w0 d0 q,
    trace w0 = trace w ++ d0 /\
    (forall site, installs site d0 = 0%nat) /\
    (forall site, installs site q = 0%nat) /\
    nestedInstall env params mip first info w =
    match tryInstall env SiteNested (Type_ s) m (setMIPFile mip lf) w0 with
    | (Ok res, w4) => (Ok (res, s), extend w4 q)
    | (Err e, w4) => (Err (WithStack e), extend w4 q)
    | (Panic, w4) => (Panic, extend w4 q)
    end.
Proof.
  intros Fl SI W G S O. unfold nestedInstall. rewrite Fl.
  unfold secondInfo in SI.
  unfold bind at 1. unfold log at 1. unfold emit at 1.
  unfold with_stack at 1. unfold bind at 1. unfold get_istate.
  change (istate (record (EvLog Infof "Installed a single file") w))
    with (istate w).
  destruct (SecondInstallerInfo (istate w)) as [s'|].
  - inversion SI; subst s'.
    unfold bind at 1. unfold log at 1. unfold emit at 1.
    destruct (nestedWith_invokes env mip first info single
                (Join env [InstallFolder params; single]) s
                (record (EvLog Infof "Using cached second installer info")
                   (record (EvLog Infof "Installed a single file") w))
                m lf W G S O) as [w0 [d0 [T0 [Z0 E0]]]].
    exists w0, ([EvLog Infof "Installed a single file";
                 EvLog Infof "Using cached second installer info"] ++ d0), [].
    split; [rewrite T0; simpl; now rewrite <- !app_assoc|].
    split; [intros; count_installs|]. split; [reflexivity|].
    rewrite E0.
    destruct (tryInstall env SiteNested (Type_ s) m (setMIPFile mip lf) w0)
      as [[res|e|] w4]; now rewrite extend_nil.
  - destruct (osOpen env SiteSecondProbe (Join env [InstallFolder params; single]))
      as [sf|eo|]; try discriminate.
    destruct (GetInstallerInfo env SiteSecondProbe sf) as [i|ei|] eqn:GI;
      try discriminate.
    inversion SI; subst i.
    unfold bind at 1. unfold log at 1. unfold emit at 1.
    unfold bind at 1. unfold with_stack at 1. unfold call at 1.
    unfold defer_close. unfold bind at 1. unfold attempt at 1.
    unfold call at 1. rewrite GI.
    unfold bind at 1. unfold emit at 1. unfold bind at 1.
    unfold assign_and_save at 1.
    match goal with
    | |- context [nestedWith ?a ?b ?c ?d ?e ?f ?g ?h] =>
        destruct (nestedWith_invokes a b c d e f g h m lf W G S O)
          as [w0 [d0 [T0 [Z0 E0]]]]
    end.
    exists w0, ([EvLog Infof "Installed a single file";
                 EvLog Infof "Probing (%s)...";
                 EvOpen (Join env [InstallFolder params; single]);
                 EvGetInstallerInfo SiteSecondProbe sf;
                 EvClose sf;
                 EvSave (with_SecondInstallerInfo s (istate w))] ++ d0),
           [EvClose sf].
    split; [rewrite T0; simpl; now rewrite <- !app_assoc|].
    split; [intros; count_installs|]. split; [reflexivity|].
    rewrite E0.
    destruct (tryInstall env SiteNested (Type_ s) m (setMIPFile mip lf) w0)
      as [[res|e|] w4]; reflexivity.
Qed.

(** Whatever [installTask] commits is what the nested step returned. *)
Lemma installTask_commits env params prepareRes w r w' d p :
  installTask env params prepareRes w = (r, w') ->
  trace w' = trace w ++ d ->
  In (EvCommitInstall p) d ->
  exists mip first info w2 fin w3,
    nestedInstall env params mip first info w2 = (Ok fin, w3) /\
    p = commitParams params (snd fin) (fst fin).
Proof.
  unfold installTask. intros E T Hin.
  destruct (Strategy prepareRes =? InstallPerformStrategyHeal).
  { unfold call in E. inversion E; subst. simpl in T.
    apply app_inv_head in T. subst d. simpl in Hin.
    destruct Hin as [F|[]]; discriminate. }
  destruct (File_ prepareRes) as [file|].
  2:{ inversion E; subst. rewrite <- (app_nil_r (trace w')) in T at 1.
      apply app_inv_head in T. subst d. destruct Hin. }
  unfold bind at 1 in E. unfold with_stack at 1 in E. unfold call at 1 in E.
  assert (NC : forall (m : M unit) w0 r0 w0' d0,
             respects ANoCommit m -> m w0 = (r0, w0') ->
             trace w0' = trace w0 ++ d0 -> ~ In (EvCommitInstall p) d0).
  { intros m w0 r0 w0' d0 Rm Em Tm F.
    destruct (Rm _ _ _ Em) as [d' [T' H']]. destruct (H' I) as [_ C].
    rewrite T' in Tm. apply app_inv_head in Tm. subst d'.
    now apply (clean_In _ _ _ C) in F. }
  destruct (Stat env SiteFirst file) as [stats|e|].
  2,3: inversion E; subst; simpl in T; apply app_inv_head in T; subst d;
       destruct Hin as [F|[]]; discriminate.
  unfold bind at 1 in E. unfold get_istate in E.
  change (istate (record (EvStat file) w)) with (istate w) in E.
  destruct (InstallerInfo_ (istate w)) as [installerInfo|].
  2:{ inversion E; subst. simpl in T. apply app_inv_head in T. subst d.
      destruct Hin as [F|[]]; discriminate. }
  unfold bind at 1 in E.
  set (w1 := snd ((if negb (NoCave params)
                   then emit (EvCaveByID (CaveID params)) else ret tt)
                    (record (EvStat file) w))) in *.
  assert (E1 : (if negb (NoCave params)
                then emit (EvCaveByID (CaveID params)) else ret tt)
                 (record (EvStat file) w) = (Ok tt, w1))
    by (subst w1; destruct (negb (NoCave params)); reflexivity).
  rewrite E1 in E.
  assert (T1 : exists d1, trace w1 = trace w ++ d1 /\
                          ~ In (EvCommitInstall p) d1).
  { subst w1. destruct (negb (NoCave params)); simpl.
    - exists [EvStat file; EvCaveByID (CaveID params)].
      rewrite <- app_assoc. split; [reflexivity|].
      simpl. intuition discriminate.
    - exists [EvStat file]. split; [reflexivity|].
      simpl. intuition discriminate. }
  clearbody w1. destruct T1 as [d1 [T1 N1]].
  unfold bind at 1 in E. unfold log at 1 in E. unfold emit at 1 in E.
  destruct (GetManager env (Type_ installerInfo)) as [manager|].
  2:{ inversion E; subst. simpl in T. rewrite T1, <- app_assoc in T.
      apply app_inv_head in T. subst d.
      apply in_app_or in Hin. destruct Hin as [F|[F|[]]];
        [now apply N1 in F | discriminate]. }
  unfold bind at 1 in E.
  match type of E with
  | context [firstInstall ?a ?b ?c ?d ?e ?f] =>
      destruct (firstInstall a b c d e f) as [rf w2] eqn:EF
  end.
  assert (TF := respects_firstInstall env ANoCommit _ _ _ _
                  ltac:(discriminate) _ _ _ EF).
  destruct TF as [df [TF HF]]. destruct (HF I) as [_ CF]. simpl in TF.
  destruct rf as [first|e|].
  2,3: inversion E; subst; rewrite TF, T1, <- !app_assoc in T;
       apply app_inv_head in T; subst d;
       apply in_app_or in Hin; destruct Hin as [F|F];
       [now apply N1 in F|];
       simpl in F; destruct F as [F|F]; [discriminate|];
       now apply (clean_In _ _ _ CF) in F.
  unfold bind at 1 in E.
  match type of E with
  | context [nestedInstall ?a ?b ?c ?d ?e ?f] =>
      destruct (nestedInstall a b c d e f) as [rn w3] eqn:EN
  end.
  assert (TN := respects_nestedInstall env params ANoCommit _ _ _
                  ltac:(discriminate) _ _ _ EN).
  destruct TN as [dn [TN HN]]. destruct (HN I) as [_ CN].
  destruct rn as [fin|e|].
  2,3: inversion E; subst; rewrite TN, TF, T1, <- !app_assoc in T;
       apply app_inv_head in T; subst d;
       apply in_app_or in Hin; destruct Hin as [F|F];
       [now apply N1 in F|];
       simpl in F; destruct F as [F|F]; [discriminate|];
       apply in_app_or in F; destruct F as [F|F];
       [now apply (clean_In _ _ _ CF) in F
       |now apply (clean_In _ _ _ CN) in F].
  unfold call in E. inversion E; subst. simpl in T.
  rewrite TN, TF, T1, <- !app_assoc in T.
  apply app_inv_head in T. subst d.
  apply in_app_or in Hin. destruct Hin as [F|F]; [now apply N1 in F|].
  simpl in F. destruct F as [F|F]; [discriminate|].
  apply in_app_or in F. destruct F as [F|F];
    [now apply (clean_In _ _ _ CF) in F|].
  apply in_app_or in F. destruct F as [F|F];
    [now apply (clean_In _ _ _ CN) in F|].
  destruct F as [F|[]]. inversion F; subst.
  eexists _, _, _, _, _, _. split; [exact EN | reflexivity].
Qed.



(** ** C5 *)



(** ** C1 *)

(** C1 fails on the code.  In a first install (no receipt, the source an
    archive) the task is called once, and the result it is handed has
    strategy [InstallPerformStrategyNone]: line 146 makes the zero value
    and no later line of the install path assigns the strategy. *)
Lemma install_path_hands_over_strategy_None :
  taskEvents
    (trace (snd (InstallPrepare baseEnv baseParams true idleTask freshWorld)))
  = [ {| File_ := Some sourceFile;
         ReceiptIn := None;
         Strategy := InstallPerformStrategyNone |} ] /\
  InstallPerformStrategyNone <> InstallPerformStrategyInstall.
Proof. split; [vm_compute; reflexivity | discriminate]. Qed.

(** ** C10 *)

Lemma ignored_probe_proceeds env params receiptIn file res task i w0 :
  IgnoreInstallers params = true ->
  InstallerInfo_ (istate w0) = None ->
  GetInstallerInfo env SiteSource file = Ok i ->
  Seek env file = Ok tt ->
  AssessDiskUsage env file receiptIn (InstallFolder params)
                  {| Type_ := ignoredType (Type_ i) |} = Ok tt ->
  exists w1,
    InstallerInfo_ (istate w1) = Some {| Type_ := ignoredType (Type_ i) |} /\
    prepareInstallerInfo env params receiptIn file res task w0 =
    invoke task res w1.
Proof.
  intros Ig N G S A.
  unfold prepareInstallerInfo, ensureInstallerInfo.
  unfold bind at 1. unfold bind at 1. unfold get_istate at 1.
  rewrite N, Ig.
  unfold bind at 1. unfold log at 1. unfold emit at 1.
  unfold bind at 1. unfold with_stack at 1. unfold call at 1. rewrite G.
  unfold bind at 1. unfold with_stack at 1. unfold call at 1. rewrite S.
  destruct i as [t]. simpl Type_ in *.
  destruct t; simpl in A |- *;
    unfold bind, ret, log, emit, with_message, call, assign_and_save,
           checkSupported, get_istate;
    simpl; rewrite A; simpl; eexists; (split; [|reflexivity]); reflexivity.
Qed.

(** C10.  With [IgnoreInstallers] set and no installer info in the
    substate, a run of [InstallPrepare] never logs the refusal of line 319
    and leaves no installer info other than archive or naked, whatever
    the probe answers (the task is one that does neither by itself); and
    when the probe, the seek and the disk usage assessment succeed the
    task is called, with the probed type kept if it is archive or naked
    and replaced by naked otherwise. *)
Theorem ignoring_installers_never_refuses env params allow task w r w' :
  IgnoreInstallers params = true ->
  InstallerInfo_ (istate w) = None ->
  (forall res, respects ASupported (task res)) ->
  InstallPrepare env params allow task w = (r, w') ->
  (exists d, trace w' = trace w ++ d /\
     ~ In (EvLog Errorf unsupportedMessage) d /\
     (forall i, InstallerInfo_ (istate w') = Some i ->
        Type_ i = InstallerTypeArchive \/ Type_ i = InstallerTypeNaked)) /\
  (forall receiptIn file res i w0,
     InstallerInfo_ (istate w0) = None ->
     GetInstallerInfo env SiteSource file = Ok i ->
     Seek env file = Ok tt ->
     AssessDiskUsage env file receiptIn (InstallFolder params)
                     {| Type_ := ignoredType (Type_ i) |} = Ok tt ->
     exists w1,
       InstallerInfo_ (istate w1) = Some {| Type_ := ignoredType (Type_ i) |} /\
       prepareInstallerInfo env params receiptIn file res task w0 =
       invoke task res w1).
Proof.
  intros Ig N TK E. split.
  - apply (respects_InstallPrepare env params ASupported task) in E;
      try discriminate; auto.
    destruct E as [d [T H]].
    assert (Hd : held ASupported w)
      by (simpl; unfold supportedInfo; now rewrite N).
    destruct (H Hd) as [K C]. exists d. split; [exact T|]. split.
    + intros F. apply (clean_In _ _ _ C) in F. discriminate.
    + intros i Si. simpl in K. unfold supportedInfo in K. rewrite Si in K.
      destruct (Type_ i); try discriminate; auto.
  - intros receiptIn file res i w0. now apply ignored_probe_proceeds.
Qed.

Lemma ignoring_installers_never_refuses_witness :
  exists d,
    trace (snd (InstallPrepare unsupportedEnv ignoreParams true
                  (installTask unsupportedEnv ignoreParams) freshWorld))
    = trace freshWorld ++ d /\
    ~ In (EvLog Errorf unsupportedMessage) d /\
    (forall i,
       InstallerInfo_
         (istate (snd (InstallPrepare unsupportedEnv ignoreParams true
                         (installTask unsupportedEnv ignoreParams) freshWorld)))
       = Some i ->
       Type_ i = InstallerTypeArchive \/ Type_ i = InstallerTypeNaked).
Proof.
  refine (proj1 (ignoring_installers_never_refuses
                   unsupportedEnv ignoreParams true
                   (installTask unsupportedEnv ignoreParams) freshWorld
                   _ _ eq_refl eq_refl _ (surjective_pairing _))).
  intros res. apply respects_installTask; discriminate.
Defined.

(** * Further properties of install_perform.go *)

(** ** The shape of a run of InstallPrepare *)

Lemma prepareInstallerInfo_shape env params receiptIn file res w :
  (exists r w1,
     forall task,
       prepareInstallerInfo env params receiptIn file res task w = (r, w1))
  \/ exists w1 i,
       InstallerInfo_ (istate w1) = Some i /\
       Type_ i <> InstallerTypeUnsupported /\
       forall task,
         prepareInstallerInfo env params receiptIn file res task w =
         invoke task res w1.
Proof.
  unfold prepareInstallerInfo.
  destruct (ensureInstallerInfo env params receiptIn file w)
    as [[[]|e|] w0] eqn:E0.
  2,3: left; eexists _, w0; intros task;
       unfold bind; rewrite E0; reflexivity.
  destruct (InstallerInfo_ (istate w0)) as [i|] eqn:Si.
  - destruct (InstallerType_eqb (Type_ i) InstallerTypeUnsupported) eqn:U.
    + left.
      exists (Err (WithStack (CodeError CodeUnsupportedPackaging))),
             (record (EvLog Errorf unsupportedMessage) w0).
      intros task. unfold bind at 1. rewrite E0.
      unfold checkSupported, bind, get_istate. rewrite Si, U. reflexivity.
    + right. exists w0, i. split; [exact Si|].
      split; [now apply InstallerType_eqb_neq|].
      intros task. unfold bind at 1. rewrite E0.
      unfold checkSupported. unfold bind at 1. unfold get_istate.
      rewrite Si, U. reflexivity.
  - left. exists Panic, w0.
    intros task. unfold bind at 1. rewrite E0.
    unfold checkSupported, bind, get_istate. rewrite Si. reflexivity.
Qed.

Lemma prepareSource_shape env params allow receiptIn w :
  PrepareShape (fun task =>
    prepareSource env params allow receiptIn
                  (setReceiptIn emptyResult receiptIn) task w).
Proof.
  unfold prepareSource. unfold bind at 1. unfold get_istate.
  unfold bind at 1. unfold with_stack at 1. unfold call at 1.
  destruct (eosOpen env SiteSource (sourceURL env (istate w) params ""))
    as [file|e|] eqn:O.
  2,3: eapply ReturnsWithoutTask; intros task; reflexivity.
  cbv zeta. unfold defer_close at 1.
  unfold setFile, setReceiptIn, emptyResult. simpl.
  destruct (match Build_ params with None => true | Some _ => false end
            && UploadIsProbablyExternal env (Upload_ params)).
  - unfold bind at 1. unfold log at 1. unfold emit at 1.
    destruct (negb allow).
    + eapply ReturnsWithoutTask; intros task; reflexivity.
    + unfold bind at 1. unfold log at 1. unfold emit at 1.
      unfold bind at 1. unfold with_stack at 1.
      match goal with
      | |- context [doForceLocal ?a ?b ?c ?d] =>
          destruct (doForceLocal a b c d) as [[lf|e|] w2] eqn:EF
      end.
      2,3: eapply ReturnsWithoutTask; intros task; reflexivity.
      unfold bind at 1. unfold emit at 1.
      match goal with
      | |- context [prepareInstallerInfo ?a ?b ?c ?d ?e _ ?g] =>
          destruct (prepareInstallerInfo_shape a b c d e g)
            as [[r [w1 Eq]] | [w1 [i [Si [U Eq]]]]]
      end.
      * eapply ReturnsWithoutTask. intros task. rewrite Eq. reflexivity.
      * eapply (InstallsWith _ file lf receiptIn w1 i Si U).
        intros task. rewrite Eq. reflexivity.
  - match goal with
    | |- context [prepareInstallerInfo ?a ?b ?c ?d ?e _ ?g] =>
        destruct (prepareInstallerInfo_shape a b c d e g)
          as [[r [w1 Eq]] | [w1 [i [Si [U Eq]]]]]
    end.
    + eapply ReturnsWithoutTask. intros task. rewrite Eq. reflexivity.
    + eapply (InstallsWith _ file file receiptIn w1 i Si U).
      intros task. rewrite Eq. reflexivity.
Qed.

Lemma selectStrategy_shape env params client receiptIn allow w :
  PrepareShape (fun task =>
    selectStrategy env params client receiptIn allow task w).
Proof.
  unfold selectStrategy. cbv zeta.
  destruct receiptIn as [rc|]; [|apply prepareSource_shape].
  destruct (Receipt_Upload rc) as [rU|]; [|apply prepareSource_shape].
  destruct (Upload_ params) as [pU|];
    [|eapply ReturnsWithoutTask; intros task; reflexivity].
  destruct (Upload_ID rU =? Upload_ID pU); [|apply prepareSource_shape].
  destruct (Receipt_Build rc) as [rB|];
    [|unfold bind at 1, log at 1, emit at 1;
      destruct (Build_ params); apply prepareSource_shape].
  destruct (Build_ params) as [pB|];
    [|unfold bind at 1, log at 1, emit at 1; apply prepareSource_shape].
  fold (healResult rc).
  unfold bind at 1. unfold log at 1. unfold emit at 1.
  destruct (Build_ID pB >? Build_ID rB).
  - unfold bind at 1. unfold log at 1. unfold emit at 1.
    unfold bind at 1. unfold attempt at 1. unfold call at 1.
    match goal with
    | |- context [FindUpgrade client ?q] =>
        destruct (FindUpgrade client q) as [up|e|]
    end.
    + unfold bind at 1. unfold log at 1. unfold emit at 1.
      unfold bind at 1.
      match goal with
      | |- context [upgradeLoop ?a ?b ?c ?d] =>
          destruct (upgradeLoop_run a b c d) as [dl [_ EL]]; rewrite EL
      end.
      unfold bind at 1. unfold log at 1. unfold emit at 1.
      match goal with
      | |- context [if ?b then _ else _] => destruct b
      end.
      * unfold bind at 1. unfold log at 1. unfold emit at 1.
        eapply HealsWith. intros task. reflexivity.
      * unfold bind at 1. unfold log at 1. unfold emit at 1.
        unfold bind at 1. unfold log at 1. unfold emit at 1.
        eapply HealsWith. intros task. reflexivity.
    + unfold bind at 1. unfold log at 1. unfold emit at 1.
      unfold bind at 1. unfold log at 1. unfold emit at 1.
      eapply HealsWith. intros task. reflexivity.
    + eapply ReturnsWithoutTask. intros task. reflexivity.
  - destruct (Build_ID pB <? Build_ID rB);
      unfold bind at 1; unfold log at 1; unfold emit at 1;
      eapply HealsWith; intros task; reflexivity.
Qed.


(** ** External uploads, cancellation, failed copies and probes *)



(** X3.  When the operation is cancelled by the time of the first
    install, the task returns [CodeOperationCancelled] under two
    [WithStack] wrappers, through which [errors.Cause] finds it; the
    source is closed, no manager is invoked and nothing is committed or
    saved. *)
Theorem cancelled_before_first_install
    env params res file stats i m w :
  (Strategy res =? InstallPerformStrategyHeal) = false ->
  File_ res = Some file ->
  Stat env SiteFirst file = Ok stats ->
  InstallerInfo_ (istate w) = Some i ->
  GetManager env (Type_ i) = Some m ->
  FirstInstallResult (istate w) = None ->
  ctxDone env SiteFirst = true ->
  exists d,
    installTask env params res w =
    (Err (WithStack (WithStack (CodeError CodeOperationCancelled))),
     extend w d) /\
    Cause (WithStack (WithStack (CodeError CodeOperationCancelled)))
    = CodeError CodeOperationCancelled /\
    In (EvClose file) d /\
    (forall site n f, ~ In (EvInstall site n f) d) /\
    (forall p, ~ In (EvCommitInstall p) d) /\
    (forall s, ~ In (EvSave s) d).
Proof.
  intros S F St Si G N C.
  unfold installTask. rewrite S, F.
  unfold bind at 1. unfold with_stack at 1. unfold call at 1. rewrite St.
  unfold bind at 1. unfold get_istate.
  change (istate (record (EvStat file) w)) with (istate w). rewrite Si.
  unfold bind at 1.
  destruct (negb (NoCave params)).
  - exists [EvStat file; EvCaveByID (CaveID params);
            EvLog Infof "Will use installer %s"; EvClose file].
    split.
    { unfold emit at 1. unfold bind at 1. unfold log at 1. unfold emit at 1.
      rewrite G. unfold bind at 1. unfold firstInstall.
      unfold bind at 1. unfold get_istate. cbn [istate record]. rewrite N.
      unfold bind at 1. unfold attempt at 1. unfold tryInstall, defer_close.
      rewrite C. unfold fail at 1. unfold bind, ret, fail.
      rewrite !record_extend, !extend_extend. reflexivity. }
    split; [reflexivity|]. split; [simpl; auto|].
    repeat split; intros; simpl; intuition discriminate.
  - exists [EvStat file; EvLog Infof "Will use installer %s"; EvClose file].
    split.
    { unfold ret at 1. unfold bind at 1. unfold log at 1. unfold emit at 1.
      rewrite G. unfold bind at 1. unfold firstInstall.
      unfold bind at 1. unfold get_istate. cbn [istate record]. rewrite N.
      unfold bind at 1. unfold attempt at 1. unfold tryInstall, defer_close.
      rewrite C. unfold fail at 1. unfold bind, ret, fail.
      rewrite !record_extend, !extend_extend. reflexivity. }
    split; [reflexivity|]. split; [simpl; auto|].
    repeat split; intros; simpl; intuition discriminate.
Qed.

Lemma cancelled_before_first_install_witness :
  exists d,
    installTask cancelledEnv baseParams installResultIn probedWorld =
    (Err (WithStack (WithStack (CodeError CodeOperationCancelled))),
     extend probedWorld d).
Proof.
  destruct (cancelled_before_first_install
              cancelledEnv baseParams installResultIn sourceFile
              {| Name := "itchfs:///upload/1/download"; Size := 10 |}
              {| Type_ := InstallerTypeArchive |} zipManager probedWorld
              eq_refl eq_refl eq_refl eq_refl eq_refl eq_refl eq_refl)
    as [d [E _]].
  exists d. exact E.
Defined.

(** X4.  When the forced local copy fails after the manager asked for a
    local file, the step returns the manager's error, not the error of
    the copy, and the manager is not invoked again. *)
Theorem failed_local_copy_returns_the_first_error
    env name manager mip file w e w1 le w2 :
  FirstInstallResult (istate w) = None ->
  tryInstall env SiteFirst name manager mip w = (Err e, w1) ->
  isErrNeedLocal (Cause e) = true ->
  doForceLocal env SiteRetry file w1 = (Err le, w2) ->
  firstInstall env name manager mip file w = (Err (WithStack e), w2) /\
  exists d, trace w2 = trace w1 ++ d /\
            forall site, installs site d = 0%nat.
Proof.
  intros N E1 C E2. split.
  - unfold firstInstall. unfold bind at 1. unfold get_istate. rewrite N.
    unfold bind at 1. unfold attempt at 1. rewrite E1, C.
    unfold bind at 1. unfold bind at 1. unfold attempt at 1. rewrite E2.
    reflexivity.
  - eapply doForceLocal_no_install; eauto.
Qed.

Lemma failed_local_copy_returns_the_first_error_witness :
  fst (firstInstall brokenDiskEnv InstallerTypeArchive localOnlyManager
                    sourceMIP sourceFile freshWorld)
  = Err (WithStack (WithStack ErrNeedLocal)).
Proof.
  destruct (failed_local_copy_returns_the_first_error
              brokenDiskEnv InstallerTypeArchive localOnlyManager sourceMIP
              sourceFile freshWorld _ _ _ _
              eq_refl (surjective_pairing _) eq_refl (surjective_pairing _))
    as [E _].
  rewrite E. reflexivity.
Defined.

(** ** doForceLocal *)

Lemma doForceLocal_sets_local env site file w lf w1 :
  doForceLocal env site file w = (Ok lf, w1) ->
  IsAvailableLocally (istate w1) = true.
Proof.
  unfold doForceLocal, ensureLocal. intros E.
  unfold bind at 1 in E. unfold with_stack at 1 in E. unfold call at 1 in E.
  destruct (Stat env site file) as [stats|e|]; try discriminate.
  cbv zeta in E. unfold bind at 1 in E. unfold bind at 1 in E.
  unfold get_istate in E.
  change (istate (record (EvStat file) w)) with (istate w) in E.
  destruct (IsAvailableLocally (istate w)) eqn:L.
  - unfold log, emit, with_stack, call in E.
    cases_of E; inversion E; subst; exact L.
  - unfold bind, log, emit, attempt, with_stack, call, fail, assign_and_save
      in E.
    destruct (TaskStartedNotify env site TaskTypeDownload) as [[]|?|];
      try discriminate.
    destruct (DownloadInstallSource env file
                (Join env [StageFolder env; "install-source";
                           Base env (Name stats)])) as [[]|?|];
      try discriminate.
    destruct (TaskSucceededNotify env site TaskTypeDownload) as [[]|?|];
      try discriminate.
    destruct (eosOpen env site
                (Join env [StageFolder env; "install-source";
                           Base env (Name stats)])) as [f|?|];
      try discriminate.
    inversion E; subst; reflexivity.
Qed.



(** X6.  When the download of the install source fails, [doForceLocal]
    returns the error wrapped with the message "downloading install
    source"; the progress has been ended, the substate and the store are
    untouched, so the source is still not marked as available locally,
    and the local file is not opened. *)
Theorem failed_download_is_wrapped env site file w stats e :
  IsAvailableLocally (istate w) = false ->
  Stat env site file = Ok stats ->
  TaskStartedNotify env site TaskTypeDownload = Ok tt ->
  DownloadInstallSource env file
    (Join env [StageFolder env; "install-source"; Base env (Name stats)])
  = Err e ->
  doForceLocal env site file w =
  (Err (Wrap (WithStack e) "downloading install source"),
   extend w
     [EvStat file;
      EvLog Infof "Install source needs to be available locally, copying to disk...";
      EvTaskStarted TaskTypeDownload;
      EvStartProgress;
      EvDownloadInstallSource file
        (Join env [StageFolder env; "install-source"; Base env (Name stats)]);
      EvEndProgress;
      EvProgress0]).
Proof.
  intros L St Nt D. unfold doForceLocal, ensureLocal.
  unfold bind at 1. unfold with_stack at 1. unfold call at 1. rewrite St.
  cbv zeta. unfold bind at 1. unfold bind at 1. unfold get_istate.
  change (istate (record (EvStat file) w)) with (istate w). rewrite L.
  unfold bind at 1. unfold log at 1. unfold emit at 1.
  unfold bind at 1. unfold attempt at 1.
  unfold bind at 1. unfold with_stack at 1. unfold call at 1. rewrite Nt.
  unfold bind at 1. unfold emit at 1.
  unfold bind at 1. unfold attempt at 1. unfold call at 1. rewrite D.
  unfold bind, emit, fail.
  rewrite !record_extend, !extend_extend. reflexivity.
Qed.

Lemma failed_download_is_wrapped_witness :
  fst (doForceLocal brokenDiskEnv SiteRetry sourceFile freshWorld)
  = Err (Wrap (WithStack (Foreign "disk full")) "downloading install source").
Proof.
  rewrite (failed_download_is_wrapped
             brokenDiskEnv SiteRetry sourceFile freshWorld
             {| Name := "itchfs:///upload/1/download"; Size := 10 |}
             (Foreign "disk full") eq_refl eq_refl eq_refl eq_refl).
  reflexivity.
Defined.

(** X7.  A single installed file whose probe fails is not an error: the
    nested step returns the first result and the first installer info,
    the file is closed, no manager is invoked and no second installer
    info is recorded, so a later run probes again. *)
Theorem failed_second_probe_is_skipped
    env params mip first info w single sf e :
  Files first = [single] ->
  SecondInstallerInfo (istate w) = None ->
  osOpen env SiteSecondProbe (Join env [InstallFolder params; single]) = Ok sf ->
  GetInstallerInfo env SiteSecondProbe sf = Err e ->
  nestedInstall env params mip first info w =
  (Ok (first, info),
   extend w
     [EvLog Infof "Installed a single file";
      EvLog Infof "Probing (%s)...";
      EvOpen (Join env [InstallFolder params; single]);
      EvGetInstallerInfo SiteSecondProbe sf;
      EvLog Infof "Could not determine installer info for single file, skipping: %s";
      EvClose sf]).
Proof.
  intros Fl S O G. unfold nestedInstall. rewrite Fl.
  unfold bind at 1. unfold log at 1. unfold emit at 1.
  unfold with_stack at 1. unfold bind at 1. unfold get_istate.
  change (istate (record (EvLog Infof "Installed a single file") w))
    with (istate w).
  rewrite S.
  unfold bind at 1. unfold log at 1. unfold emit at 1.
  unfold bind at 1. unfold with_stack at 1. unfold call at 1. rewrite O.
  unfold defer_close. unfold bind at 1. unfold attempt at 1.
  unfold call at 1. rewrite G.
  unfold bind, log, emit, ret.
  rewrite !record_extend, !extend_extend. reflexivity.
Qed.

Lemma failed_second_probe_is_skipped_witness :
  fst (nestedInstall brokenDiskEnv baseParams sourceMIP
                     {| Files := ["setup.exe"] |}
                     {| Type_ := InstallerTypeArchive |} freshWorld)
  = Ok ({| Files := ["setup.exe"] |}, {| Type_ := InstallerTypeArchive |}).
Proof.
  rewrite (failed_second_probe_is_skipped
             brokenDiskEnv baseParams sourceMIP
             {| Files := ["setup.exe"] |}
             {| Type_ := InstallerTypeArchive |} freshWorld "setup.exe"
             {| file_location := "/games/g/setup.exe" |}
             (Foreign "unreadable") eq_refl eq_refl eq_refl eq_refl).
  reflexivity.
Defined.

(** ** The size of an upgrade path *)

Lemma wrap64_range z : - 2 ^ 63 <= wrap64 z < 2 ^ 63.
Proof.
  unfold wrap64.
  assert (H := Z.mod_pos_bound (z + 2 ^ 63) (2 ^ 64) ltac:(lia)). lia.
Qed.

Lemma wrap64_small z : - 2 ^ 63 <= z < 2 ^ 63 -> wrap64 z = z.
Proof. intros H. unfold wrap64. rewrite Z.mod_small; lia. Qed.

Lemma wrap64_add z x : wrap64 (wrap64 z + x) = wrap64 (z + x).
Proof.
  unfold wrap64.
  replace ((z + 2 ^ 63) mod 2 ^ 64 - 2 ^ 63 + x + 2 ^ 63)
    with ((z + 2 ^ 63) mod 2 ^ 64 + x) by lia.
  rewrite Zplus_mod_idemp_l. f_equal. f_equal. lia.
Qed.

Lemma fold_total oldID items total s :
  total = wrap64 s ->
  fold_left (fun total item =>
               if Item_ID item =? oldID then total
               else add64 total (PatchSize item)) items total
  = wrap64 (s + patchSum oldID items).
Proof.
  revert total s. induction items as [|item rest IH]; intros total s E; simpl.
  - now rewrite Z.add_0_r.
  - destruct (Item_ID item =? oldID).
    + now apply IH.
    + rewrite (IH _ (s + PatchSize item)).
      * f_equal. lia.
      * subst total. unfold add64. apply wrap64_add.
Qed.

Lemma patchSum_nonneg oldID items :
  Forall (fun item => 0 <= PatchSize item) items ->
  0 <= patchSum oldID items.
Proof.
  induction 1 as [|item rest H _ IH]; simpl; [lia|].
  destruct (Item_ID item =? oldID); lia.
Qed.

(** X8.  The loop over the upgrade path only logs, and the total it
    leaves is the sum of the patch sizes of the entries other than the
    entry of the installed build, wrapped to an int64: it is always in
    the int64 range, and it is the sum itself when the patch sizes are not
    negative and add up to less than 2^63. *)
Theorem total_upgrade_size_is_the_wrapped_sum oldID items w :
  (exists d,
     forallb isLog d = true /\
     upgradeLoop oldID items 0 w =
     (Ok (wrap64 (patchSum oldID items)), extend w d)) /\
  totalUpgradeSizeOf oldID items = wrap64 (patchSum oldID items) /\
  - 2 ^ 63 <= totalUpgradeSizeOf oldID items < 2 ^ 63 /\
  (Forall (fun item => 0 <= PatchSize item) items ->
   patchSum oldID items < 2 ^ 63 ->
   totalUpgradeSizeOf oldID items = patchSum oldID items).
Proof.
  assert (T : totalUpgradeSizeOf oldID items = wrap64 (patchSum oldID items)).
  { unfold totalUpgradeSizeOf. rewrite (fold_total oldID items 0 0).
    - reflexivity.
    - reflexivity. }
  split; [|split; [exact T | split]].
  - destruct (upgradeLoop_run oldID items 0 w) as [d [L E]].
    exists d. split; [exact L|]. rewrite E. f_equal. f_equal. exact T.
  - rewrite T. apply wrap64_range.
  - intros NN B. rewrite T. apply wrap64_small.
    assert (H := patchSum_nonneg oldID items NN). lia.
Qed.

Lemma total_upgrade_size_is_the_wrapped_sum_witness :
  totalUpgradeSizeOf 5
    [ {| Item_ID := 5; PatchSize := 4096 |};
      {| Item_ID := 7; PatchSize := 1000000 |};
      {| Item_ID := 9; PatchSize := 1097152 |} ] = 2097152.
Proof.
  destruct (total_upgrade_size_is_the_wrapped_sum 5
              [ {| Item_ID := 5; PatchSize := 4096 |};
                {| Item_ID := 7; PatchSize := 1000000 |};
                {| Item_ID := 9; PatchSize := 1097152 |} ] freshWorld)
    as [_ [_ [_ H]]].
  rewrite H; [reflexivity | | reflexivity].
  repeat constructor; discriminate.
Defined.

(** ** The receipt and the upload *)

Lemma bind_ok_inv {A B} (m : M A) (f : A -> M B) w b w' :
  bind m f w = (Ok b, w') ->
  exists a w1, m w = (Ok a, w1) /\ f a w1 = (Ok b, w').
Proof.
  unfold bind. destruct (m w) as [[a|e|] w1]; intros E; try discriminate.
  exists a, w1. auto.
Qed.

Lemma prelude_receipt env params w client rc w0 :
  preparePrelude env params w = (Ok (client, rc), w0) ->
  rc = receiptRead env params /\
  ClientFromCredentials env (Credentials params) = Ok client.
Proof.
  unfold preparePrelude, receiptRead. intros E.
  apply bind_ok_inv in E. destruct E as [c [w1 [Ec E]]].
  unfold with_stack, call in Ec.
  destruct (ClientFromCredentials env (Credentials params)) as [c'|e|];
    try discriminate.
  inversion Ec; subst c' w1. clear Ec.
  apply bind_ok_inv in E. destruct E as [? [w2 [_ E]]].
  apply bind_ok_inv in E. destruct E as [? [w3 [_ E]]].
  apply bind_ok_inv in E. destruct E as [? [w4 [_ E]]].
  apply bind_ok_inv in E. destruct E as [rr [w5 [Er E]]].
  apply bind_ok_inv in E. destruct E as [rIn [w6 [ERin E]]].
  apply bind_ok_inv in E. destruct E as [? [w7 [_ E]]].
  apply bind_ok_inv in E. destruct E as [? [w8 [_ E]]].
  apply bind_ok_inv in E. destruct E as [? [w9 [_ E]]].
  apply bind_ok_inv in E. destruct E as [? [w10 [_ E]]].
  apply bind_ok_inv in E. destruct E as [? [w11 [_ E]]].
  inversion E; subst. split; [|reflexivity].
  unfold attempt, call in Er.
  destruct (ReadReceipt env (InstallFolder params)) as [rd|e|];
    inversion Er; subst; clear Er.
  - inversion ERin; reflexivity.
  - unfold bind, log, emit, ret in ERin. inversion ERin; reflexivity.
Qed.

(** X9.  A receipt that cannot be read is treated as no receipt: the
    failure is logged as an error and [InstallPrepare] goes straight to
    the install path with a nil receipt, so it neither heals nor queries
    an upgrade path. *)
Theorem unreadable_receipt_is_no_receipt env params allow task w e :
  ReadReceipt env (InstallFolder params) = Err e ->
  InstallPrepare env params allow task w =
  bind (preparePrelude env params)
       (fun _ => prepareSource env params allow None
                   (setReceiptIn emptyResult None) task) w /\
  (forall r w0,
     preparePrelude env params w = (r, w0) ->
     exists d, trace w0 = trace w ++ d /\
       (forall p, ~ In (EvFindUpgrade p) d) /\
       (forall c, ClientFromCredentials env (Credentials params) = Ok c ->
          In (EvLog Errorf "Could not read existing receipt: %s") d)).
Proof.
  intros RR. split.
  - unfold InstallPrepare, bind.
    destruct (preparePrelude env params w) as [[[c rc]|?|] w0] eqn:P;
      try reflexivity.
    destruct (prelude_receipt _ _ _ _ _ _ P) as [Hr _].
    unfold receiptRead in Hr. rewrite RR in Hr. subst rc. reflexivity.
  - intros r w0 P.
    destruct (prelude_no_upgrade_query _ _ _ _ _ P) as [d [T N]].
    exists d. split; [exact T|]. split; [exact N|].
    intros c CC. revert P T. unfold preparePrelude.
    unfold bind at 1. unfold with_stack at 1. unfold call at 1. rewrite CC.
    unfold bind at 1. unfold log at 1. unfold emit at 1.
    unfold bind at 1. unfold log at 1. unfold emit at 1.
    unfold bind at 1. unfold log at 1. unfold emit at 1.
    unfold bind at 1. unfold attempt at 1. unfold call at 1. rewrite RR.
    unfold bind at 1. unfold bind at 1. unfold log at 1. unfold emit at 1.
    unfold ret at 1.
    intros P T.
    match type of P with
    | ?m ?w1 = _ =>
        assert (X : exists d1, trace w0 = trace w1 ++ d1)
    end.
    { match type of P with
      | ?m ?w1 = _ =>
          assert (RM : respects ATrace m) by resp;
          destruct (RM _ _ _ P) as [d1 [T1 _]]; exists d1; exact T1
      end. }
    destruct X as [d1 T1]. simpl in T1. rewrite T1 in T.
    rewrite <- !app_assoc in T. apply app_inv_head in T. subst d.
    simpl. auto 10.
Qed.

Lemma unreadable_receipt_is_no_receipt_witness :
  taskEvents
    (trace (snd (InstallPrepare unreadableEnv baseParams true idleTask
                                freshWorld)))
  = [installResultIn].
Proof.
  rewrite (proj1 (unreadable_receipt_is_no_receipt
                    unreadableEnv baseParams true idleTask freshWorld
                    (Foreign "corrupt receipt") eq_refl)).
  vm_compute. reflexivity.
Defined.

(** X10.  When the receipt records an upload and no upload is given in
    the parameters, [InstallPrepare] dereferences the nil upload at line
    188: it panics, whatever the task, before anything is opened. *)
Theorem nil_upload_over_a_receipt_panics
    env params allow w w0 client rc rU :
  preparePrelude env params w = (Ok (client, Some rc), w0) ->
  Receipt_Upload rc = Some rU ->
  Upload_ params = None ->
  forall task, InstallPrepare env params allow task w = (Panic, w0).
Proof.
  intros P RU PU task. unfold InstallPrepare, bind. rewrite P.
  simpl. unfold selectStrategy. rewrite RU, PU. reflexivity.
Qed.

Lemma nil_upload_over_a_receipt_panics_witness :
  fst (InstallPrepare (receiptEnv 5 okClient) noUploadParams true
                      (installTask (receiptEnv 5 okClient) noUploadParams)
                      freshWorld)
  = Panic.
Proof.
  rewrite (nil_upload_over_a_receipt_panics
             (receiptEnv 5 okClient) noUploadParams true freshWorld
             (snd (preparePrelude (receiptEnv 5 okClient) noUploadParams
                                  freshWorld))
             okClient (receiptAt 5) upload1 eq_refl eq_refl eq_refl).
  reflexivity.
Defined.

(** ** No nil dereference *)

Section NoPanic.

Lemma np_ret {A} (a : A) : nopanic (ret a).
Proof. intros w r w' E. inversion E. discriminate. Qed.

Lemma np_fail {A} e : nopanic (@fail A e).
Proof. intros w r w' E. inversion E. discriminate. Qed.

Lemma np_get : nopanic get_istate.
Proof. intros w r w' E. inversion E. discriminate. Qed.

Lemma np_emit ev : nopanic (emit ev).
Proof. intros w r w' E. inversion E. discriminate. Qed.

Lemma np_log l s : nopanic (log l s).
Proof. apply np_emit. Qed.

Lemma np_assign f : nopanic (assign_and_save f).
Proof. intros w r w' E. inversion E. discriminate. Qed.

Lemma np_call {A} ev (a : outcome A) : a <> Panic -> nopanic (call ev a).
Proof. intros N w r w' E. inversion E. now subst. Qed.

Lemma np_bind {A B} (m : M A) (f : A -> M B) :
  nopanic m -> (forall a, nopanic (f a)) -> nopanic (bind m f).
Proof.
  intros Hm Hf w r w' E. unfold bind in E.
  destruct (m w) as [[a|e|] w1] eqn:Em.
  - exact (Hf _ _ _ _ E).
  - inversion E. discriminate.
  - exfalso. exact (Hm _ _ _ Em eq_refl).
Qed.

Lemma np_with_stack {A} (m : M A) : nopanic m -> nopanic (with_stack m).
Proof.
  intros Hm w r w' E. unfold with_stack in E.
  destruct (m w) as [[a|e|] w1] eqn:Em; inversion E; subst;
    try discriminate. exfalso. exact (Hm _ _ _ Em eq_refl).
Qed.

Lemma np_with_message {A} (m : M A) msg :
  nopanic m -> nopanic (with_message m msg).
Proof.
  intros Hm w r w' E. unfold with_message in E.
  destruct (m w) as [[a|e|] w1] eqn:Em; inversion E; subst;
    try discriminate. exfalso. exact (Hm _ _ _ Em eq_refl).
Qed.

Lemma np_attempt {A} (m : M A) : nopanic m -> nopanic (attempt m).
Proof.
  intros Hm w r w' E. unfold attempt in E.
  destruct (m w) as [[a|e|] w1] eqn:Em; inversion E; subst;
    try discriminate. exfalso. exact (Hm _ _ _ Em eq_refl).
Qed.

Lemma np_defer_close {A} f (m : M A) :
  nopanic m -> nopanic (defer_close f m).
Proof.
  intros Hm w r w' E. unfold defer_close in E.
  destruct (m w) as [r1 w1] eqn:Em. inversion E; subst.
  exact (Hm _ _ _ Em).
Qed.

End NoPanic.

Create HintDb np.

Ltac calm_solve :=
  match goal with
  | H : calm ?env |- _ =>
      first [ apply (calm_LoadContext env H)
            | apply (calm_Retire env H)
            | apply (calm_ClientFromCredentials env H)
            | apply (calm_ReadReceipt env H)
            | apply (calm_eosOpen env H)
            | apply (calm_osOpen env H)
            | apply (calm_Stat env H)
            | apply (calm_Seek env H)
            | apply (calm_DownloadInstallSource env H)
            | apply (calm_osStat env H)
            | apply (calm_MkdirAll env H)
            | apply (calm_RemoveAll env H)
            | apply (calm_Rename env H)
            | apply (calm_TaskStartedNotify env H)
            | apply (calm_TaskSucceededNotify env H)
            | apply (calm_GetInstallerInfo env H)
            | apply (calm_AssessDiskUsage env H)
            | apply (calm_heal env H)
            | apply (calm_commitInstall env H) ]
  end.

Ltac np_step :=
  match goal with
  | |- nopanic (bind _ _) => apply np_bind; [ | intros ? ]
  | |- nopanic (ret _) => apply np_ret
  | |- nopanic (fail _) => apply np_fail
  | |- nopanic get_istate => apply np_get
  | |- nopanic (with_stack _) => apply np_with_stack
  | |- nopanic (with_message _ _) => apply np_with_message
  | |- nopanic (attempt _) => apply np_attempt
  | |- nopanic (defer_close _ _) => apply np_defer_close
  | |- nopanic (log _ _) => apply np_log
  | |- nopanic (emit _) => apply np_emit
  | |- nopanic (assign_and_save _) => apply np_assign
  | |- nopanic (call _ _) => apply np_call; solve [calm_solve | eauto with np]
  | |- nopanic (if ?b then _ else _) => destruct b eqn:?
  | |- nopanic (match ?x with _ => _ end) => destruct x eqn:?
  | |- nopanic _ => solve [eauto with np]
  | |- nopanic _ => progress cbv zeta
  end.

Ltac np := repeat np_step.

Section NoPanicOperate.

Variable env : Env.
Variable params : InstallParams.
Hypothesis quiet : calm env.

Lemma np_doForceLocal site file : nopanic (doForceLocal env site file).
Proof. unfold doForceLocal, ensureLocal. np. Qed.
Hint Resolve np_doForceLocal : np.

Lemma np_upgradeLoop oldID items total :
  nopanic (upgradeLoop oldID items total).
Proof.
  revert total. induction items as [|item rest IH]; intros total; simpl.
  - apply np_ret.
  - np.
Qed.
Hint Resolve np_upgradeLoop : np.

Lemma np_ensureDownloadSession client :
  (forall p, NewDownloadSession client p <> Panic) ->
  nopanic (ensureDownloadSession params client).
Proof. intros N. unfold ensureDownloadSession. np. Qed.

Lemma np_preparePrelude : nopanic (preparePrelude env params).
Proof.
  unfold preparePrelude.
  intros w r w' E. unfold bind at 1 in E. unfold with_stack at 1 in E.
  unfold call at 1 in E.
  destruct (ClientFromCredentials env (Credentials params)) as [c|e|] eqn:C.
  - revert E.
    match goal with
    | |- ?m ?w1 = _ -> _ => assert (N : nopanic m); [|apply N]
    end.
    assert (NS : forall p, NewDownloadSession c p <> Panic)
      by (intros p; eapply calm_NewDownloadSession; eauto).
    assert (ND := np_ensureDownloadSession c NS).
    np.
  - inversion E. discriminate.
  - exfalso. eapply calm_ClientFromCredentials; eauto.
Qed.

Lemma np_ensureInstallerInfo receiptIn file :
  nopanic (ensureInstallerInfo env params receiptIn file).
Proof. unfold ensureInstallerInfo. np. Qed.

Lemma ensureInstallerInfo_sets receiptIn file w w' :
  ensureInstallerInfo env params receiptIn file w = (Ok tt, w') ->
  InstallerInfo_ (istate w') <> None.
Proof.
  unfold ensureInstallerInfo. unfold bind at 1. unfold get_istate.
  destruct (InstallerInfo_ (istate w)) as [i|] eqn:Si.
  - destruct (InstallerType_eqb (Type_ i) InstallerTypeUnknown).
    + intros E.
      repeat (apply bind_ok_inv in E; destruct E as [? [? [_ E]]]).
      inversion E; subst. simpl. discriminate.
    + intros E. inversion E; subst. simpl. rewrite Si. discriminate.
  - intros E.
    repeat (apply bind_ok_inv in E; destruct E as [? [? [_ E]]]).
    inversion E; subst. simpl. discriminate.
Qed.

Lemma np_tryInstall site name manager mip :
  (forall s p, Install manager s p <> Panic) ->
  nopanic (tryInstall env site name manager mip).
Proof. intros N. unfold tryInstall. np. Qed.

Lemma np_firstInstall name manager mip file :
  (forall s p, Install manager s p <> Panic) ->
  nopanic (firstInstall env name manager mip file).
Proof.
  intros N. assert (T := fun site mip' => np_tryInstall site name manager mip' N).
  unfold firstInstall. np.
Qed.

Lemma np_relocateNested single singlePath :
  nopanic (relocateNested env single singlePath).
Proof. unfold relocateNested. np. Qed.
Hint Resolve np_relocateNested : np.

Lemma np_nestedWith mip first info single singlePath second :
  nopanic (nestedWith env mip first info single singlePath second).
Proof.
  unfold nestedWith. np. apply np_tryInstall.
  intros s p. eapply calm_Install; eauto.
Qed.
Hint Resolve np_nestedWith : np.

Lemma np_nestedInstall mip first info :
  nopanic (nestedInstall env params mip first info).
Proof. unfold nestedInstall. np. Qed.

(** The task does not panic when it heals, nor when it is given a file
    and finds an installer info in the substate. *)
Lemma installTask_no_panic res w r w' :
  Strategy res = InstallPerformStrategyHeal \/
  (File_ res <> None /\ InstallerInfo_ (istate w) <> None) ->
  installTask env params res w = (r, w') ->
  r <> Panic.
Proof.
  unfold installTask. intros H.
  destruct (Strategy res =? InstallPerformStrategyHeal) eqn:S.
  { apply np_call. apply (calm_heal env quiet). }
  destruct H as [H | [F Si]].
  { rewrite H in S. discriminate. }
  destruct (File_ res) as [file|]; [|congruence].
  unfold bind at 1. unfold with_stack at 1. unfold call at 1.
  destruct (Stat env SiteFirst file) as [stats|e|] eqn:St.
  2: intros E; inversion E; discriminate.
  2: exfalso; eapply calm_Stat; eauto.
  unfold bind at 1. unfold get_istate.
  change (istate (record (EvStat file) w)) with (istate w).
  destruct (InstallerInfo_ (istate w)) as [i|]; [|congruence].
  match goal with
  | |- ?m ?w1 = _ -> _ => assert (N : nopanic m); [|apply N]
  end.
  assert (NF := np_firstInstall).
  assert (NN := np_nestedInstall).
  np. apply NF. intros s p. eapply calm_Install; eauto.
Qed.

Lemma checkSupported_no_panic res w r w' :
  File_ res <> None ->
  InstallerInfo_ (istate w) <> None ->
  checkSupported res (installTask env params) w = (r, w') ->
  r <> Panic.
Proof.
  intros F Si. unfold checkSupported. unfold bind at 1. unfold get_istate.
  destruct (InstallerInfo_ (istate w)) as [i|] eqn:Sw; [|congruence].
  destruct (InstallerType_eqb (Type_ i) InstallerTypeUnsupported).
  - intros E. unfold bind, log, emit, fail in E. inversion E. discriminate.
  - unfold invoke. unfold bind at 1. unfold emit at 1.
    apply installTask_no_panic. right. split; [exact F|].
    simpl. rewrite Sw. discriminate.
Qed.

Lemma prepareInstallerInfo_no_panic receiptIn file res w r w' :
  File_ res <> None ->
  prepareInstallerInfo env params receiptIn file res
                       (installTask env params) w = (r, w') ->
  r <> Panic.
Proof.
  intros F. unfold prepareInstallerInfo. unfold bind at 1.
  destruct (ensureInstallerInfo env params receiptIn file w)
    as [[[]|e|] w0] eqn:E0.
  - apply checkSupported_no_panic; [exact F|].
    eapply ensureInstallerInfo_sets; eauto.
  - intros E. inversion E. discriminate.
  - exfalso. eapply np_ensureInstallerInfo; eauto.
Qed.

Lemma prepareSource_no_panic allow receiptIn res w r w' :
  prepareSource env params allow receiptIn res (installTask env params) w
  = (r, w') ->
  r <> Panic.
Proof.
  assert (PI : forall rin f res0,
             File_ res0 <> None ->
             nopanic (prepareInstallerInfo env params rin f res0
                                           (installTask env params))).
  { intros rin f res0 F w1 r1 w1'. now apply prepareInstallerInfo_no_panic. }
  revert w r w'.
  change (nopanic (prepareSource env params allow receiptIn res
                                 (installTask env params))).
  unfold prepareSource. np; apply PI; discriminate.
Qed.

Lemma selectStrategy_no_panic client receiptIn allow w r w' :
  (forall p, FindUpgrade client p <> Panic) ->
  Upload_ params <> None ->
  selectStrategy env params client receiptIn allow
                 (installTask env params) w = (r, w') ->
  r <> Panic.
Proof.
  intros FU UP. unfold selectStrategy. cbv zeta.
  assert (PS := prepareSource_no_panic).
  assert (HT : forall rc w1 r1 w1',
             invoke (installTask env params)
                    (setStrategy (setReceiptIn emptyResult (Some rc))
                                 InstallPerformStrategyHeal) w1 = (r1, w1') ->
             r1 <> Panic).
  { intros rc w1 r1 w1'. unfold invoke. unfold bind at 1. unfold emit at 1.
    apply installTask_no_panic. left. reflexivity. }
  destruct receiptIn as [rc|]; [|apply PS].
  destruct (Receipt_Upload rc) as [rU|]; [|apply PS].
  destruct (Upload_ params) as [pU|]; [|congruence].
  destruct (Upload_ID rU =? Upload_ID pU); [|apply PS].
  unfold bind at 1. unfold log at 1. unfold emit at 1.
  destruct (Receipt_Build rc) as [rB|];
    [|destruct (Build_ params); apply PS].
  destruct (Build_ params) as [pB|]; [|apply PS].
  destruct (Build_ID pB >? Build_ID rB).
  - unfold bind at 1. unfold log at 1. unfold emit at 1.
    unfold bind at 1. unfold attempt at 1. unfold call at 1.
    match goal with
    | |- context [FindUpgrade client ?q] =>
        destruct (FindUpgrade client q) as [up|e|] eqn:EU
    end.
    + unfold bind at 1. unfold log at 1. unfold emit at 1.
      unfold bind at 1.
      match goal with
      | |- context [upgradeLoop ?a ?b ?c ?d] =>
          destruct (upgradeLoop_run a b c d) as [dl [_ EL]]; rewrite EL
      end.
      unfold bind at 1. unfold log at 1. unfold emit at 1.
      match goal with
      | |- context [if ?b then _ else _] => destruct b
      end.
      * unfold bind at 1. unfold log at 1. unfold emit at 1. apply HT.
      * unfold bind at 1. unfold log at 1. unfold emit at 1.
        unfold bind at 1. unfold log at 1. unfold emit at 1. apply HT.
    + unfold bind at 1. unfold log at 1. unfold emit at 1.
      unfold bind at 1. unfold log at 1. unfold emit at 1. apply HT.
    + exfalso. eapply FU; eauto.
  - destruct (Build_ID pB <? Build_ID rB);
      unfold bind at 1; unfold log at 1; unfold emit at 1; apply HT.
Qed.

End NoPanicOperate.

Lemma doInstallPerform_no_panic env params w r w' :
  calm env ->
  Upload_ params <> None ->
  doInstallPerform env params w = (r, w') ->
  r <> Panic.
Proof.
  intros Q U. unfold doInstallPerform. unfold bind at 1. unfold oc_Load at 1.
  unfold InstallPrepare. unfold bind at 1.
  match goal with
  | |- context [preparePrelude env params ?w0] =>
      destruct (preparePrelude env params w0) as [[[c rc]|e|] w1] eqn:P
  end.
  - destruct (prelude_receipt _ _ _ _ _ _ P) as [_ CC].
    apply selectStrategy_no_panic; auto.
    intros p. eapply calm_FindUpgrade; eauto.
  - intros E. inversion E. discriminate.
  - exfalso. eapply np_preparePrelude; eauto.
Qed.


Lemma baseEnv_calm : calm baseEnv.
Proof.
  constructor; intros; try discriminate.
  - inversion H; subst. discriminate.
  - inversion H; subst. discriminate.
  - inversion H; subst. discriminate.
Qed.


(** * The profile endpoints *)

Import profile.

Ltac rpc_unfold :=
  unfold login, answer, LoginWithPassword, LoginWithAPIKey, UseSavedLogin,
    Forget, List, captchaFlow, keyFlow, bind, call, db, deref, call_total,
    ret, fail, emit in *.

Ltac rpc_case E :=
  match type of E with
  | context [match ?x with inl _ => _ | inr _ => _ end] => destruct x eqn:?
  | context [match ?x with Some _ => _ | None => _ end] => destruct x eqn:?
  | context [if ?x then _ else _] => destruct x eqn:?
  end.

Lemma self_app {A} (t d : list A) : t = t ++ d -> [] = d.
Proof.
  intros E. apply (app_inv_head t). now rewrite app_nil_r.
Qed.

(** Run a handler symbolically: one goal per path, with the result and
    the calls it added in place. *)
Ltac rpc_run E d :=
  rpc_unfold;
  repeat (rpc_case E; cbn [fst snd] in E);
  rewrite <- ?app_assoc in E;
  apply pair_equal_spec in E; destruct E as [Er E];
  first [ apply app_inv_head in E | apply self_app in E ];
  subst d; cbn [app] in *;
  try discriminate Er;
  first [ injection Er as <- | subst | idtac ].

(** X12.  A login that answers ([LoginWithPassword], [LoginWithAPIKey]
    or [UseSavedLogin]) has handed exactly one profile to [Save], the
    save succeeded, and the profile in the answer is that profile
    formatted.  A login that fails has saved nothing, unless the failure
    is that of the one [Save]; a login that panics has saved nothing. *)
Theorem a_login_returns_the_profile_it_saved env l t r d :
  login env l t = (r, t ++ d) ->
  match r with
  | Returns p =>
      exists saved, saves d = [saved] /\ db_Save env saved = None /\
                    p = formatProfile saved
  | Fails _ =>
      saves d = [] \/ exists saved, saves d = [saved] /\ db_Save env saved <> None
  | Panics => saves d = []
  end.
Proof.
  intros E. destruct l; rpc_run E d; cbn [saves]; eauto.
  all: try (right; eexists; split; [reflexivity|congruence]).
Qed.

Lemma a_login_returns_the_profile_it_saved_witness :
  exists saved,
    saves guardedCalls = [saved] /\ db_Save guardedEnv saved = None /\
    pw_Profile guardedResult = formatProfile saved.
Proof.
  exact (a_login_returns_the_profile_it_saved guardedEnv (ByPassword aliceLogin)
           [] (Returns (pw_Profile guardedResult)) guardedCalls eq_refl).
Defined.

(** X13.  An empty user name, an empty password or an empty API key is
    refused with an error made by [errors.New] before any call is made:
    the trace is as it was. *)
Theorem refused_parameters_reach_nothing env l t :
  refused l = true ->
  exists msg, login env l t = (Fails (New msg), t).
Proof.
  intros Rf. destruct l; cbn [refused] in Rf; rpc_unfold.
  - destruct (String.eqb (Username params) ""); [eauto|].
    cbn [orb] in Rf. rewrite Rf. eauto.
  - rewrite Rf. eauto.
  - discriminate.
Qed.

Lemma refused_parameters_reach_nothing_witness :
  exists msg,
    login guardedEnv (ByPassword {| Username := "alice"; Password := "" |}) [] =
    (Fails (New msg), []).
Proof.
  exact (refused_parameters_reach_nothing guardedEnv
           (ByPassword {| Username := "alice"; Password := "" |}) [] eq_refl).
Defined.

(** X14.  An error returned by [LoginWithPassword] is either an error
    with a stack, or it is the bare [ErrAborted]; in that case the last
    call was a captcha or a TOTP prompt that the user answered with an
    empty string, no client was made from a key and nothing was saved. *)
Theorem password_login_fails_traced_or_aborted env params t e d :
  LoginWithPassword env params t = (Fails e, t ++ d) ->
  (exists e', e = Traced e') \/
  (e = ErrAborted /\
   exists d0 ev, d = d0 ++ [ev] /\ emptyAnswer env ev /\
                 count isKeyClient d = 0%nat /\ saves d = []).
Proof.
  intros E.
  assert (W : forall x, exists e', Wrap x = Traced e').
  { intros [ | |x]; cbn; eauto. }
  rpc_run E d.
  all: try solve [left; first [apply W | unfold New; eauto]].
  all: right; split; [reflexivity|].
  all: match goal with
       | |- exists d0 ev, [?a; ?b; ?c] = _ /\ _ => exists [a; b], c
       | |- exists d0 ev, [?a; ?b; ?c; ?x] = _ /\ _ => exists [a; b; c], x
       | |- exists d0 ev, [?a; ?b; ?c; ?x; ?y] = _ /\ _ => exists [a; b; c; x], y
       end.
  all: repeat split; cbn [emptyAnswer]; eauto.
  all: eexists; split; [eassumption|]; now apply String.eqb_eq.
Qed.

Lemma password_login_fails_traced_or_aborted_witness :
  (exists e', ErrAborted = Traced e') \/
  (ErrAborted = ErrAborted /\
   exists d0 ev, promptedCalls = d0 ++ [ev] /\ emptyAnswer hesitantEnv ev /\
                 count isKeyClient promptedCalls = 0%nat /\
                 saves promptedCalls = []).
Proof.
  exact (password_login_fails_traced_or_aborted hesitantEnv aliceLogin []
           ErrAborted promptedCalls eq_refl).
Defined.

(** X15.  The key [LoginWithPassword] makes its client from comes from
    the answer to a login call that either asked for no captcha or was
    the call repeated with the captcha response.  When that answer holds
    no token, the key and the cookie of the result are those of the
    answer; when it holds a token, they are those of the successful
    [TOTPVerify] made with that token and a non-empty code, and the key
    of the login answer is not used. *)
Theorem password_login_uses_the_key_of_the_last_answer env params root t r d key :
  rc_RootClient env = inr root ->
  LoginWithPassword env params t = (r, t ++ d) ->
  In (EvKeyClient key) d ->
  exists lp resp,
    In (EvLoginWithPassword lp) d /\
    rc_LoginWithPassword root lp = inr resp /\
    (RecaptchaNeeded resp = false \/ login_RecaptchaResponse lp <> "") /\
    if String.eqb (Token resp) "" then
      option_map Key (login_Key resp) = Some key /\
      forall res, r = Returns res -> pw_Cookie res = login_Cookie resp
    else
      exists vp v,
        In (EvTOTPVerify vp) d /\ verify_Token vp = Token resp /\
        verify_Code vp <> "" /\ rc_TOTPVerify root vp = inr v /\
        option_map Key (verify_Key v) = Some key /\
        forall res, r = Returns res -> pw_Cookie res = verify_Cookie v.
Proof.
  intros Hroot E HIn. unfold LoginWithPassword, bind at 1 in E.
  unfold call at 1 in E. rewrite Hroot in E.
  rpc_run E d; cbn [In] in HIn.
  all: repeat match goal with
       | H : _ \/ _ |- _ => destruct H as [H|H]; try discriminate H
       | H : False |- _ => destruct H
       end.
  all: injection HIn as <-.
  all: match goal with
       | Hl : rc_LoginWithPassword _ ?lp = inr ?resp |- _ =>
           exists lp, resp;
           split; [cbn [In]; tauto|]; split; [exact Hl|];
           split; [first [left; assumption
                         | right; cbn [login_RecaptchaResponse];
                           now apply String.eqb_neq]|];
           match goal with
           | Ht : negb (String.eqb (Token resp) "") = _ |- _ =>
               destruct (String.eqb (Token resp) "") eqn:Tk; try discriminate Ht
           end;
           first
             [ split;
               [ now match goal with Hk : login_Key resp = _ |- _ => rewrite Hk end
               | intros ? Hres;
                 first [discriminate Hres | injection Hres as <-; reflexivity] ]
             | match goal with
               | Hv : rc_TOTPVerify _ ?vp = inr ?v |- _ =>
                   exists vp, v;
                   split; [cbn [In]; tauto|]; split; [reflexivity|];
                   split; [cbn [verify_Code]; now apply String.eqb_neq|];
                   split; [exact Hv|];
                   split;
                   [ now match goal with Hk : verify_Key v = _ |- _ => rewrite Hk end
                   | intros ? Hres;
                     first [discriminate Hres | injection Hres as <-; reflexivity] ]
               end ]
       end.
Qed.

Lemma password_login_uses_the_key_of_the_last_answer_witness :
  exists lp resp,
    In (EvLoginWithPassword lp) guardedCalls /\
    rc_LoginWithPassword guardedRoot lp = inr resp /\
    (RecaptchaNeeded resp = false \/ login_RecaptchaResponse lp <> "") /\
    if String.eqb (Token resp) "" then
      option_map Key (login_Key resp) = Some "key-2" /\
      forall res, Returns guardedResult = Returns res ->
                  pw_Cookie res = login_Cookie resp
    else
      exists vp v,
        In (EvTOTPVerify vp) guardedCalls /\ verify_Token vp = Token resp /\
        verify_Code vp <> "" /\ rc_TOTPVerify guardedRoot vp = inr v /\
        option_map Key (verify_Key v) = Some "key-2" /\
        forall res, Returns guardedResult = Returns res ->
                    pw_Cookie res = verify_Cookie v.
Proof.
  apply (password_login_uses_the_key_of_the_last_answer guardedEnv aliceLogin
           guardedRoot [] (Returns guardedResult) guardedCalls "key-2"
           eq_refl eq_refl).
  cbn. tauto.
Defined.

(** X16.  [LoginWithPassword] calls the login of the root client at most
    twice, each time with the user name and password of the request,
    asks for a captcha at most once and for a TOTP code at most once, and
    makes at most one client from a key. *)
Theorem password_login_asks_once_and_retries_once env params t r d :
  LoginWithPassword env params t = (r, t ++ d) ->
  (count isLogin d <= 2)%nat /\
  (count isCaptcha d <= 1)%nat /\
  (count isTOTP d <= 1)%nat /\
  (count isKeyClient d <= 1)%nat /\
  forall lp, In (EvLoginWithPassword lp) d ->
             login_Username lp = Username params /\
             login_Password lp = Password params.
Proof.
  intros E. rpc_run E d; unfold count; cbn.
  all: repeat match goal with |- _ /\ _ => split end; try lia; try tauto.
  all: intros lp HIn;
       repeat match goal with
       | H : _ \/ _ |- _ => destruct H as [H|H]; try discriminate H
       | H : False |- _ => destruct H
       end;
       injection HIn as <-; split; reflexivity.
Qed.

Lemma password_login_asks_once_and_retries_once_witness :
  (count isLogin guardedCalls <= 2)%nat /\
  (count isCaptcha guardedCalls <= 1)%nat /\
  (count isTOTP guardedCalls <= 1)%nat /\
  (count isKeyClient guardedCalls <= 1)%nat /\
  forall lp, In (EvLoginWithPassword lp) guardedCalls ->
             login_Username lp = Username aliceLogin /\
             login_Password lp = Password aliceLogin.
Proof.
  exact (password_login_asks_once_and_retries_once guardedEnv aliceLogin []
           (Returns guardedResult) guardedCalls eq_refl).
Defined.

(** X17.  [Forget] never panics.  When it answers, the profile id was not
    zero and [Success] tells whether the profile was found: if so that
    profile, and no other, was deleted, otherwise nothing was.  It fails
    on the id zero, without any call, or when the one [Delete] fails. *)
Theorem Forget_reports_what_it_deleted env params t r d :
  Forget env params t = (r, t ++ d) ->
  match r with
  | Returns res =>
      forget_ProfileID params <> 0%Z /\
      if Success res then
        exists p, models_ProfileByID env (forget_ProfileID params) = Some p /\
                  deletes d = [p] /\ db_Delete env p = None
      else
        models_ProfileByID env (forget_ProfileID params) = None /\ deletes d = []
  | Fails e =>
      (forget_ProfileID params = 0%Z /\ d = []) \/
      exists p, models_ProfileByID env (forget_ProfileID params) = Some p /\
                deletes d = [p] /\ db_Delete env p <> None
  | Panics => False
  end.
Proof.
  intros E. rpc_run E d; cbn [deletes Success].
  all: try solve [left; split; [now apply Z.eqb_eq|reflexivity]].
  all: try solve [right; eexists; repeat split; congruence].
  all: split; [now apply Z.eqb_neq|].
  all: first [split; [assumption|reflexivity]
             | eexists; repeat split; assumption].
Qed.

Lemma Forget_reports_what_it_deleted_witness :
  forget_ProfileID forgetAlice <> 0%Z /\
  exists p, models_ProfileByID guardedEnv (forget_ProfileID forgetAlice) = Some p /\
            deletes [EvProfileByID 41; EvDelete storedAlice] = [p] /\
            db_Delete guardedEnv p = None.
Proof.
  exact (Forget_reports_what_it_deleted guardedEnv forgetAlice []
           (Returns {| Success := true |})
           [EvProfileByID 41; EvDelete storedAlice] eq_refl).
Defined.

Lemma formatted_is_map ps acc :
  fold_left (fun acc p => acc ++ [formatProfile p]) ps acc =
  acc ++ map formatProfile ps.
Proof.
  revert acc. induction ps as [|p ps IH]; intros acc; cbn [fold_left map].
  - now rewrite app_nil_r.
  - rewrite IH, <- app_assoc. reflexivity.
Qed.

(** X18.  [List] makes one query and never panics; its answer holds the
    formatted profiles of the query, one for each and in the same order,
    and a failed query is returned wrapped. *)
Theorem List_formats_every_profile_in_order env t r d :
  List env t = (r, t ++ d) ->
  d = [EvFind] /\
  match r with
  | Returns res =>
      exists ps, db_Find env = inr ps /\ Profiles res = map formatProfile ps
  | Fails e => exists e0, db_Find env = inl e0 /\ e = Wrap e0
  | Panics => False
  end.
Proof.
  intros E. rpc_run E d; split; try reflexivity.
  - eauto.
  - eexists. split; [reflexivity|]. cbn [Profiles]. apply formatted_is_map.
Qed.

Lemma List_formats_every_profile_in_order_witness :
  [EvFind] = [EvFind] /\
  exists ps, db_Find guardedEnv = inr ps /\
             [formatProfile storedAlice] = map formatProfile ps.
Proof.
  exact (List_formats_every_profile_in_order guardedEnv []
           (Returns {| Profiles := [formatProfile storedAlice] |})
           [EvFind] eq_refl).
Defined.

(** X19.  [UseSavedLogin] logs "Logged in!" exactly when it answers; it
    makes no client from a key and no login call, and a profile it saves
    is the stored profile of the request as [UpdateFromUser] left it,
    given the user of [GetMe]'s answer. *)
Theorem saved_login_updates_the_stored_profile env params t r d :
  UseSavedLogin env params t = (r, t ++ d) ->
  (In (EvOpf "Logged in!") d <-> exists res, r = Returns res) /\
  count isKeyClient d = 0%nat /\
  count isLogin d = 0%nat /\
  forall p, In p (saves d) ->
    exists stored client me,
      rc_ProfileClient env (saved_ProfileID params) = Some (stored, client) /\
      GetMe client = inr me /\
      UpdateFromUser env stored (me_User me) = Some p.
Proof.
  intros E.
  rpc_run E d; unfold count; cbn [filter isKeyClient isLogin saves length];
    (split;
     [ split;
       [ intros HIn; cbn [In] in HIn
       | intros [res Hres]; try discriminate Hres; cbn [In]; tauto ]
     | split; [reflexivity|split; [reflexivity|intros q HIn; cbn [In] in HIn]] ]).
  all: repeat match goal with
       | H : _ \/ _ |- _ => destruct H as [H|H]; try discriminate H
       | H : False |- _ => destruct H
       end.
  all: eauto.
  all: subst q; destruct p as [stored client]; cbn [fst snd] in *; eauto 10.
Qed.

Lemma saved_login_updates_the_stored_profile_witness :
  (In (EvOpf "Logged in!") savedLoginCalls <->
   exists res,
     Returns {| sl_Profile := formatProfile (savedAlice "key-0") |} = Returns res) /\
  count isKeyClient savedLoginCalls = 0%nat /\
  count isLogin savedLoginCalls = 0%nat /\
  forall p, In p (saves savedLoginCalls) ->
    exists stored client me,
      rc_ProfileClient guardedEnv (saved_ProfileID useAlice) = Some (stored, client) /\
      GetMe client = inr me /\
      UpdateFromUser guardedEnv stored (me_User me) = Some p.
Proof.
  exact (saved_login_updates_the_stored_profile guardedEnv useAlice []
           (Returns {| sl_Profile := formatProfile (savedAlice "key-0") |})
           savedLoginCalls eq_refl).
Defined.

(** X20.  [LoginWithPassword] panics only right after a login answer
    that holds neither a token nor a key, after a [TOTPVerify] answer
    without a key, or after a [GetMe] answer without a user (or on which
    [UpdateFromUser] panics); nothing was saved then. *)
Theorem password_login_panics_only_on_a_missing_key_or_user env params t d :
  LoginWithPassword env params t = (Panics, t ++ d) ->
  exists d0 ev,
    d = d0 ++ [ev] /\ saves d = [] /\
    match ev with
    | EvLoginWithPassword lp =>
        exists root resp,
          rc_RootClient env = inr root /\
          rc_LoginWithPassword root lp = inr resp /\
          Token resp = "" /\ login_Key resp = None
    | EvTOTPVerify vp =>
        exists root v,
          rc_RootClient env = inr root /\
          rc_TOTPVerify root vp = inr v /\ verify_Key v = None
    | EvGetMe =>
        exists key client me,
          In (EvKeyClient key) d0 /\ rc_KeyClient env key = inr client /\
          GetMe client = inr me /\
          match me_User me with
          | None => True
          | Some user =>
              UpdateFromUser env (newProfile (User_ID user) key) (Some user) = None
          end
    | _ => False
    end.
Proof.
  intros E. rpc_run E d.
  all: match goal with
       | |- exists d0 ev, ?l = _ /\ _ =>
           exists (removelast l), (last l EvGetMe); cbn [removelast last app saves]
       end.
  all: split; [reflexivity|split; [reflexivity|]].
  all: try solve
         [ do 2 eexists; split; [reflexivity|]; split; [eassumption|]; split;
           [ match goal with
             | Ht : negb (String.eqb (Token _) "") = false |- _ =>
                 apply negb_false_iff, String.eqb_eq in Ht; exact Ht
             end
           | assumption ] ].
  all: try solve [do 2 eexists; split; [reflexivity|]; split; eassumption].
  all: do 3 eexists; split; [cbn [In]; eauto 8|];
       split; [eassumption|split; [eassumption|]];
       match goal with
       | Hu : me_User _ = _ |- _ => rewrite Hu
       end; try exact I; assumption.
Qed.

Lemma password_login_panics_only_on_a_missing_key_or_user_witness :
  exists d0 ev,
    [EvRootClient; EvLoginWithPassword firstAttempt] = d0 ++ [ev] /\
    saves [EvRootClient; EvLoginWithPassword firstAttempt] = [] /\
    match ev with
    | EvLoginWithPassword lp =>
        exists root resp,
          rc_RootClient (profileEnv keylessRoot "" "") = inr root /\
          rc_LoginWithPassword root lp = inr resp /\
          Token resp = "" /\ login_Key resp = None
    | EvTOTPVerify vp =>
        exists root v,
          rc_RootClient (profileEnv keylessRoot "" "") = inr root /\
          rc_TOTPVerify root vp = inr v /\ verify_Key v = None
    | EvGetMe =>
        exists key client me,
          In (EvKeyClient key) d0 /\
          rc_KeyClient (profileEnv keylessRoot "" "") key = inr client /\
          GetMe client = inr me /\
          match me_User me with
          | None => True
          | Some user =>
              UpdateFromUser (profileEnv keylessRoot "" "")
                (newProfile (User_ID user) key) (Some user) = None
          end
    | _ => False
    end.
Proof.
  exact (password_login_panics_only_on_a_missing_key_or_user
           (profileEnv keylessRoot "" "") aliceLogin []
           [EvRootClient; EvLoginWithPassword firstAttempt] eq_refl).
Defined.

